(** * MTSAD: alarm detection and rule-based diagnosis

    A shallow embedding of the two pages of the dashboard that carry logic:

    - [pages/2_개선된_알람.py]: the alarm scan.  For every product the
      score rows are sorted by time and scanned once from left to right; a
      run of rows whose [product_anomaly_score] exceeds [alpha] becomes an
      alarm when it lasts at least [beta] minutes, and the alarm collects
      the sensor scores and the alert rows of its period.
    - [pages/3_상세_정보.py]: the detail page, which filters one product
      and one time window and, on request, derives a severity and a list of
      recommended actions from the window.

    Conventions of the embedding.

    - A data frame is the list of its rows, in row order.
    - A timestamp is the number of seconds since the epoch, in [Z]; the CSV
      files hold whole seconds ([strftime("%Y-%m-%d %H:%M:%S")]).
    - A score is a rational number.  Every finite float is a rational and
      float comparison is the comparison of these rationals; the rounding
      of float arithmetic and NaN scores are outside the model.
    - Text is [string], a sequence of bytes; non-ASCII text is its UTF-8
      encoding, whose byte order is the code point order Python uses. *)

From Stdlib Require Import String Ascii.
From Stdlib Require Import List ZArith QArith Qminmax Qround Bool Lia Lqa Arith.
From Stdlib Require Import Sorting.Sorted Sorting.Permutation.
From Equations Require Import Equations.
From Equations.Prop Require Import Logic.
Import ListNotations.

Local Open Scope nat_scope.

(** ** Data model *)

Module Frame.

(** The two exceptions the loops over the cells catch, and the exceptions
    that reach them and that they do not catch: [ast.literal_eval] also
    raises TypeError, MemoryError and RecursionError, [.items()] raises
    AttributeError on a value that is no dict, and [score >= 1.0] raises
    TypeError on a value that is no number. *)
Inductive ParseError : Type := ValueError | SyntaxError.

Inductive Uncaught : Type :=
| AttributeError | TypeError | MemoryError | RecursionError.

(** What the body of such a loop meets in a [sensor_anomaly_score] cell:
    [ast.literal_eval] gives a dict from sensor name to score, kept in
    iteration order ([Parsed]); it raises one of the two exceptions that
    are caught ([Malformed]); or it raises another exception, or gives a
    value that is no dict or a dict with a value that is no number, on
    which the body raises ([Unhandled], with the exception raised).
    Sensor names are text and scores are finite numbers. *)
Inductive Literal : Type :=
| Parsed (sensor_dict : list (string * Q))
| Malformed (e : ParseError)
| Unhandled (e : Uncaught).

(** How a part of a script ends: with its value, or with an exception
    that nothing catches, which ends the script. *)
Inductive Outcome (A : Type) : Type :=
| Done (a : A)
| Raises (e : Uncaught).

Arguments Done {A} _.
Arguments Raises {A} _.

Definition bind {A B : Type} (o : Outcome A) (f : A -> Outcome B)
  : Outcome B :=
  match o with
  | Done a => f a
  | Raises e => Raises e
  end.

(** A row of [anomaly_data.csv]. *)
Record AnomalyRow : Type := mkAnomalyRow {
  time : Z;
  product_id : string;
  sensor_anomaly_score : Literal;
  product_anomaly_score : Q
}.

(** A row of [alert_data.csv]. *)
Record AlertRow : Type := mkAlertRow {
  alert_time : Z;
  alert_product_id : string;
  identifier : string
}.

(** A row of [action_history.csv]; the columns are 조치 일자, product_id,
    현상, 원인 and 처방. *)
Record ActionRow : Type := mkActionRow {
  action_date : Z;
  action_product_id : string;
  symptom : string;
  cause : string;
  treatment : string
}.

(** An entry of an alarm's [sensor_anomalies] list. *)
Record SensorAnomaly : Type := mkSensorAnomaly {
  sa_time : Z;
  sa_sensor : string;
  sa_score : Q
}.

(** An entry of the [alarms] list.  [max_score] is [None] where pandas
    gives NaN, the maximum of an empty column. *)
Record Alarm : Type := mkAlarm {
  alarm_product_id : string;
  start_time : Z;
  end_time : Z;
  duration_minutes : Q;
  max_score : option Q;
  sensor_anomalies : list SensorAnomaly;
  alerts : list AlertRow
}.

End Frame.
Import Frame.

(** ** Comparisons and columns *)

(** [x > y] and [x >= y] on scores. *)
Definition Qgtb (x y : Q) : bool := negb (Qle_bool x y).
Definition Qgeb (x y : Q) : bool := Qle_bool y x.

(** [df[col].max()]: NaN ([None]) on an empty column. *)
Definition col_max (col : list Q) : option Q :=
  match col with
  | [] => None
  | x :: rest => Some (fold_left Qmax rest x)
  end.

(** [df.iloc[start:stop]]; a slice is clamped to the frame. *)
Definition iloc_slice {A : Type} (df : list A) (start stop : nat) : list A :=
  firstn (stop - start) (skipn start df).

(** [df.iloc[idx]["time"]].  pandas raises IndexError outside the frame;
    the scan reads inside it only (see [maximal_run_range]), and the model
    reads 0 elsewhere. *)
Definition iloc_time (df : list AnomalyRow) (idx : nat) : Z :=
  nth idx (map time df) 0%Z.

(** [df.sort_values(key)], ascending: insertion of each row after the rows
    that do not exceed it.  Rows with equal keys keep their order here;
    pandas leaves their order open. *)
Section SortValues.
Context {A : Type} (key : A -> Z).

Fixpoint insert_row (row : A) (sorted : list A) : list A :=
  match sorted with
  | [] => [row]
  | r :: rest =>
      if (key r <=? key row)%Z then r :: insert_row row rest
      else row :: r :: rest
  end.

Definition sort_values (df : list A) : list A :=
  fold_left (fun sorted row => insert_row row sorted) df [].
End SortValues.

(** [sort_values(key, ascending=False)]. *)
Definition sort_values_desc {A : Type} (key : A -> Z) (df : list A) : list A :=
  sort_values (fun row => (- key row)%Z) df.

(** [sorted(column.unique())] on a text column: the distinct values in
    order of first appearance, then sorted. *)
Fixpoint unique (col : list string) : list string :=
  match col with
  | [] => []
  | x :: rest => x :: filter (fun y => negb (String.eqb x y)) (unique rest)
  end.

Fixpoint insert_str (x : string) (sorted : list string) : list string :=
  match sorted with
  | [] => [x]
  | y :: rest =>
      if String.leb y x then y :: insert_str x rest else x :: y :: rest
  end.

Definition sorted_str (col : list string) : list string :=
  fold_left (fun acc x => insert_str x acc) col [].

(** ** The alarm page *)

Module AlarmPage.

(** [load_alert_data]: the alert frame, or an empty frame with the same
    columns when [alert_data.csv] is missing. *)
Definition load_alert_data (file : option (list AlertRow)) : list AlertRow :=
  match file with
  | Some df => df
  | None => []
  end.

(** The two sliders of the sidebar.  [st.sidebar.slider] hands back a
    position between [min_value] and [max_value]. *)
Record Slider (A : Type) : Type := mkSlider {
  min_value : A;
  max_value : A;
  value : A;
  step : A
}.

Arguments mkSlider {A} _ _ _ _.
Arguments min_value {A} _.
Arguments max_value {A} _.
Arguments value {A} _.
Arguments step {A} _.

Definition alpha_slider : Slider Q := mkSlider 0.0%Q 3.5%Q 1.0%Q 0.1%Q.
Definition beta_slider : Slider Z := mkSlider 2%Z 30%Z 4%Z 2%Z.

Definition alpha_in_slider (alpha : Q) : Prop :=
  (min_value alpha_slider <= alpha /\ alpha <= max_value alpha_slider)%Q.
Definition beta_in_slider (beta : Z) : Prop :=
  (min_value beta_slider <= beta <= max_value beta_slider)%Z.

(** [anomaly_df[anomaly_df["product_id"] == product_id].sort_values("time")] *)
Definition product_data (anomaly_df : list AnomalyRow) (pid : string)
  : list AnomalyRow :=
  sort_values time
    (filter (fun row => String.eqb (product_id row) pid) anomaly_df).

(** [row["product_anomaly_score"] > alpha] *)
Definition above (alpha : Q) (row : AnomalyRow) : bool :=
  Qgtb (product_anomaly_score row) alpha.

(** The inner loop:
    [while end_idx + 1 < len(product_data)
           and product_data.iloc[end_idx + 1][...] > alpha: end_idx += 1].
    [nth_error] is [None] exactly when the index is not below the length,
    so its match is the bounds test followed by the read. *)
Equations? extend_run (data : list AnomalyRow) (alpha : Q) (end_idx : nat)
  : nat by wf (length data - end_idx) lt :=
  extend_run data alpha end_idx with inspect (nth_error data (end_idx + 1)) := {
    | exist _ (Some row) Hrow =>
        if above alpha row then extend_run data alpha (end_idx + 1)
        else end_idx
    | exist _ None _ => end_idx }.
Proof.
  assert (end_idx + 1 < length data) by (apply nth_error_Some; congruence).
  lia.
Qed.

(** [(end_time - start_time).total_seconds() / 60 + 2] *)
Definition duration_of (start_time end_time : Z) : Q :=
  (inject_Z (end_time - start_time) / 60 + 2)%Q.

(** The body of [for _, row in period_data.iterrows()]: the entries one row
    appends to [sensor_anomalies].  A cell that does not parse raises in
    [literal_eval], before anything is appended, and the handler moves on
    to the next row; an exception that the handler does not catch ends the
    script. *)
Definition collect_row (acc : list SensorAnomaly) (row : AnomalyRow)
  : Outcome (list SensorAnomaly) :=
  match sensor_anomaly_score row with
  | Parsed sensor_dict =>
      Done (fold_left
              (fun acc item =>
                 if Qgeb (snd item) 1%Q
                 then acc ++ [mkSensorAnomaly (time row) (fst item) (snd item)]
                 else acc)
              sensor_dict acc)
  | Malformed _ => Done acc
  | Unhandled e => Raises e
  end.

Definition collect_sensor_anomalies (period_data : list AnomalyRow)
  : Outcome (list SensorAnomaly) :=
  fold_left (fun acc row => bind acc (fun l => collect_row l row))
            period_data (Done []).

(** [alert_df[(product_id == pid) & (time >= start_time) & (time <= end_time)]] *)
Definition period_alerts (alert_df : list AlertRow) (pid : string)
    (start_time end_time : Z) : list AlertRow :=
  filter
    (fun a => String.eqb (alert_product_id a) pid
              && (start_time <=? alert_time a)%Z
              && (alert_time a <=? end_time)%Z)
    alert_df.

(** The block under [if duration_minutes >= beta] for the run
    [start_idx .. end_idx]: the dict appended to [alarms]. *)
Definition alarm_record (data : list AnomalyRow) (alert_df : list AlertRow)
    (pid : string) (start_idx end_idx : nat) : Outcome Alarm :=
  let start_time := iloc_time data start_idx in
  let end_time := iloc_time data end_idx in
  let period_data := iloc_slice data start_idx (end_idx + 1) in
  bind (collect_sensor_anomalies period_data)
       (fun sensor_anomalies =>
          Done {| alarm_product_id := pid;
                  start_time := start_time;
                  end_time := end_time;
                  duration_minutes := duration_of start_time end_time;
                  max_score :=
                    col_max (map product_anomaly_score period_data);
                  sensor_anomalies := sensor_anomalies;
                  alerts := period_alerts alert_df pid start_time end_time |}).

(** What the scan does with a finished run: [if duration_minutes >= beta]
    the alarm is built and appended.  The cells of a shorter run are not
    read. *)
Definition record_run (data : list AnomalyRow) (alert_df : list AlertRow)
    (beta : Z) (pid : string) (start_idx end_idx : nat)
    (alarms : list Alarm) : Outcome (list Alarm) :=
  let duration_minutes :=
    duration_of (iloc_time data start_idx) (iloc_time data end_idx) in
  if Qgeb duration_minutes (inject_Z beta)
  then bind (alarm_record data alert_df pid start_idx end_idx)
            (fun a => Done (alarms ++ [a]))
  else Done alarms.

(** The outer loop [while i < len(product_data)], with the list [alarms]
    it appends to. *)
Equations? scan (data : list AnomalyRow) (alert_df : list AlertRow)
    (alpha : Q) (beta : Z) (pid : string) (i : nat) (alarms : list Alarm)
  : Outcome (list Alarm) by wf (length data - i) lt :=
  scan data alert_df alpha beta pid i alarms with inspect (nth_error data i) := {
    | exist _ (Some row) Hrow =>
        if above alpha row then
          let start_idx := i in
          let end_idx := extend_run data alpha i in
          match record_run data alert_df beta pid start_idx end_idx alarms with
          | Done alarms =>
              scan data alert_df alpha beta pid (end_idx + 1) alarms
          | Raises e => Raises e
          end
        else scan data alert_df alpha beta pid (i + 1) alarms
    | exist _ None _ => Done alarms }.
Proof.
  all: assert (i < length data) by (apply nth_error_Some; congruence).
  - assert (Hge : forall e, e <= extend_run data alpha e).
    { clear. intro e. funelim (extend_run data alpha e).
      - destruct (above alpha row); lia.
      - lia. }
    specialize (Hge i). lia.
  - lia.
Qed.

(** One turn of [for product_id in product_ids]: the rows of the product
    in time order, [continue] when there are none, the scan otherwise. *)
Definition scan_product (anomaly_df : list AnomalyRow)
    (alert_df : list AlertRow) (alpha : Q) (beta : Z)
    (alarms : list Alarm) (pid : string) : Outcome (list Alarm) :=
  let data := product_data anomaly_df pid in
  if length data =? 0 then Done alarms
  else scan data alert_df alpha beta pid 0 alarms.

(** The list [alarms] after the loop over
    [sorted(anomaly_df["product_id"].unique())]. *)
Definition alarms (anomaly_df : list AnomalyRow) (alert_df : list AlertRow)
    (alpha : Q) (beta : Z) : Outcome (list Alarm) :=
  let product_ids := sorted_str (unique (map product_id anomaly_df)) in
  fold_left
    (fun acc pid =>
       bind acc (fun l => scan_product anomaly_df alert_df alpha beta l pid))
    product_ids (Done []).

(** The page from its two files: [st.stop()] ([None]) when
    [anomaly_data.csv] is missing; otherwise the alarms it lists, or the
    exception that ends it. *)
Definition alarm_page (anomaly_file : option (list AnomalyRow))
    (alert_file : option (list AlertRow)) (alpha : Q) (beta : Z)
  : option (Outcome (list Alarm)) :=
  match anomaly_file with
  | None => None
  | Some anomaly_df =>
      Some (alarms anomaly_df (load_alert_data alert_file) alpha beta)
  end.

(** The alarms one product contributes: its turn of the loop, started on
    an empty list. *)
Definition product_alarms (anomaly_df : list AnomalyRow)
    (alert_df : list AlertRow) (alpha : Q) (beta : Z) (pid : string)
  : Outcome (list Alarm) :=
  scan_product anomaly_df alert_df alpha beta [] pid.

(** *** The runs the scan visits

    [runs data alpha i] lists, in the order of the scan, the pairs
    [(start_idx, end_idx)] that the outer loop reaches from index [i] on. *)
Equations? runs (data : list AnomalyRow) (alpha : Q) (i : nat)
  : list (nat * nat) by wf (length data - i) lt :=
  runs data alpha i with inspect (nth_error data i) := {
    | exist _ (Some row) Hrow =>
        if above alpha row then
          (i, extend_run data alpha i)
            :: runs data alpha (extend_run data alpha i + 1)
        else runs data alpha (i + 1)
    | exist _ None _ => [] }.
Proof.
  all: assert (i < length data) by (apply nth_error_Some; congruence).
  - assert (Hge : forall e, e <= extend_run data alpha e).
    { clear. intro e. funelim (extend_run data alpha e).
      - destruct (above alpha row); lia.
      - lia. }
    specialize (Hge i). lia.
  - lia.
Qed.

(** The test [duration_minutes >= beta] for the run [se]. *)
Definition long_enough (data : list AnomalyRow) (beta : Z) (se : nat * nat)
  : bool :=
  Qgeb (duration_of (iloc_time data (fst se)) (iloc_time data (snd se)))
       (inject_Z beta).

(** The row at index [k] has a score above [alpha]. *)
Definition above_at (alpha : Q) (data : list AnomalyRow) (k : nat) : Prop :=
  exists row, nth_error data k = Some row
              /\ (alpha < product_anomaly_score row)%Q.

(** [start_idx .. end_idx] is a maximal run of rows above [alpha]: every
    row of it is above, the row before it (if any) and the row after it
    (if any) are not. *)
Definition maximal_run (alpha : Q) (data : list AnomalyRow)
    (start_idx end_idx : nat) : Prop :=
  start_idx <= end_idx
  /\ (forall k, start_idx <= k <= end_idx -> above_at alpha data k)
  /\ (forall k, k + 1 = start_idx -> ~ above_at alpha data k)
  /\ ~ above_at alpha data (end_idx + 1).

(** What a row adds to [sensor_anomalies], stated directly: the items of
    its dict with a score of at least 1.0, in the order of the dict. *)
Definition row_anomalies (row : AnomalyRow) : list SensorAnomaly :=
  match sensor_anomaly_score row with
  | Parsed sensor_dict =>
      map (fun item => mkSensorAnomaly (time row) (fst item) (snd item))
          (filter (fun item => Qgeb (snd item) 1%Q) sensor_dict)
  | Malformed _ => []
  | Unhandled _ => []
  end.

(** The exception the cell of a row raises in the loops, if it raises
    one, and the first such exception among the rows of a period. *)
Definition raised_by (row : AnomalyRow) : option Uncaught :=
  match sensor_anomaly_score row with
  | Unhandled e => Some e
  | _ => None
  end.

Fixpoint first_of {A : Type} (raised : A -> option Uncaught) (l : list A)
  : option Uncaught :=
  match l with
  | [] => None
  | x :: rest =>
      match raised x with
      | Some e => Some e
      | None => first_of raised rest
      end
  end.

Definition first_raised (rows : list AnomalyRow) : option Uncaught :=
  first_of raised_by rows.

(** The alarm of the run [start_idx .. end_idx] when no cell of the run
    raises, stated directly. *)
Definition run_record (data : list AnomalyRow) (alert_df : list AlertRow)
    (pid : string) (start_idx end_idx : nat) : Alarm :=
  let start_time := iloc_time data start_idx in
  let end_time := iloc_time data end_idx in
  let period_data := iloc_slice data start_idx (end_idx + 1) in
  {| alarm_product_id := pid;
     start_time := start_time;
     end_time := end_time;
     duration_minutes := duration_of start_time end_time;
     max_score := col_max (map product_anomaly_score period_data);
     sensor_anomalies := flat_map row_anomalies period_data;
     alerts := period_alerts alert_df pid start_time end_time |}.

(** The records of the runs of a product that last long enough, and of
    all products in the order of the page: what the page lists when it
    does not raise. *)
Definition product_records (anomaly_df : list AnomalyRow)
    (alert_df : list AlertRow) (alpha : Q) (beta : Z) (pid : string)
  : list Alarm :=
  let data := product_data anomaly_df pid in
  map (fun se => run_record data alert_df pid (fst se) (snd se))
      (filter (long_enough data beta) (runs data alpha 0)).

Definition alarm_records (anomaly_df : list AnomalyRow)
    (alert_df : list AlertRow) (alpha : Q) (beta : Z) : list Alarm :=
  flat_map (product_records anomaly_df alert_df alpha beta)
           (sorted_str (unique (map product_id anomaly_df))).

(** The first exception among the periods of the runs [rs], in order. *)
Definition runs_raised (data : list AnomalyRow) (rs : list (nat * nat))
  : option Uncaught :=
  first_of (fun se => first_raised (iloc_slice data (fst se) (snd se + 1)))
           rs.

(** The exception that ends the scan of a product, if one does: the first
    among the runs that last long enough; and the one that ends the page:
    the first among the products. *)
Definition product_raised (anomaly_df : list AnomalyRow) (alpha : Q)
    (beta : Z) (pid : string) : option Uncaught :=
  let data := product_data anomaly_df pid in
  runs_raised data (filter (long_enough data beta) (runs data alpha 0)).

Definition page_raised (anomaly_df : list AnomalyRow) (alpha : Q)
    (beta : Z) : option Uncaught :=
  first_of (product_raised anomaly_df alpha beta)
           (sorted_str (unique (map product_id anomaly_df))).

End AlarmPage.

(** ** The detail page *)

Module DetailPage.

(** [severity]: the strings 높음, 중간 and 낮음. *)
Inductive Severity : Type := High | Medium | Low.

(** [pat in s] on text. *)
Fixpoint contains (pat s : string) : bool :=
  String.prefix pat s
  || match s with
     | EmptyString => false
     | String _ rest => contains pat rest
     end.

(** [x >= y] where [x] may be NaN: a comparison with NaN is false. *)
Definition nan_geb (x : option Q) (y : Q) : bool :=
  match x with
  | Some v => Qgeb v y
  | None => false
  end.

(** The lines [diagnosis_parts] receives under 권장 조치. *)
Definition rec_temperature_sensor : string := "1. 온도 센서 점검 및 교체 검토".
Definition rec_cooling_system : string := "2. 냉각 시스템 점검 및 정비".
Definition rec_past_fix : string :=
  "3. 과거 조치 이력상 온도 센서 교체가 효과적이었습니다.".
Definition rec_physical_inspection : string :=
  "4. 현장 점검을 통한 물리적 상태 확인 권장".
Definition rec_keep_monitoring : string := "1. 지속적인 모니터링 및 데이터 수집".
Definition rec_inspect_sensors : string := "2. 이상 감지된 센서의 상세 점검".
Definition rec_preventive : string := "3. 예방적 정비 일정 수립 검토".
Definition rec_regular_schedule : string := "1. 정기 점검 일정 유지".
Definition rec_monitor_state : string := "2. 현재 상태 모니터링 지속".

(** The result of the diagnosis as far as it is modelled: the severity and
    the lines appended under 권장 조치, in order.  The summary lines, which
    print floats, are left out. *)
Record Diagnosis : Type := mkDiagnosis {
  severity : Severity;
  recommendations : list string
}.

(** How the page ends: stopped because [anomaly_data.csv] is missing
    ([st.error]); failed while the sidebar is set up, when the score frame
    has no row (the date inputs take their bounds from
    [anomaly_df["time"].min()] and [.max()], which are NaT then, and
    [NaT.date()] raises); stopped because the selection holds no score row
    ([st.warning]); ended by an exception that a loop over the cells
    does not catch; or shown, with the diagnosis when the button was
    pressed. *)
Inductive PageView : Type :=
| StoppedNoFile
| FailedNoTimes
| StoppedNoData
| Raised (e : Uncaught)
| Shown (diagnosis : option Diagnosis).

Definition load_frame {A : Type} (file : option (list A)) : list A :=
  match file with
  | Some df => df
  | None => []
  end.

(** [anomaly_df[(product_id == selected_product) & (time >= start_datetime)
    & (time <= end_datetime)]] *)
Definition filtered_anomaly (anomaly_df : list AnomalyRow)
    (selected_product : string) (start_datetime end_datetime : Z)
  : list AnomalyRow :=
  filter
    (fun row => String.eqb (product_id row) selected_product
                && (start_datetime <=? time row)%Z
                && (time row <=? end_datetime)%Z)
    anomaly_df.

Definition filtered_alert (alert_df : list AlertRow)
    (selected_product : string) (start_datetime end_datetime : Z)
  : list AlertRow :=
  filter
    (fun a => String.eqb (alert_product_id a) selected_product
              && (start_datetime <=? alert_time a)%Z
              && (alert_time a <=? end_datetime)%Z)
    alert_df.

(** The actions of the product, most recent first when there are any. *)
Definition filtered_action_history (action_history_df : list ActionRow)
    (selected_product : string) : list ActionRow :=
  let rows :=
    filter (fun a => String.eqb (action_product_id a) selected_product)
           action_history_df in
  if 0 <? length rows then sort_values_desc action_date rows else rows.

(** The dict comprehension of section 2: the sensors of one row with a
    score of at least 1.0. *)
Definition high_sensors (sensor_dict : list (string * Q))
  : list (string * Q) :=
  filter (fun item => Qgeb (snd item) 1%Q) sensor_dict.

(** One row of the loop that fills [sensor_data_list]: a table row with
    the time and the high sensors when there are any.  The table prints
    the time with [strftime] and the scores with two decimals; the model
    keeps the values. *)
Definition sensor_table_row (acc : list (Z * list (string * Q)))
    (row : AnomalyRow) : Outcome (list (Z * list (string * Q))) :=
  match sensor_anomaly_score row with
  | Parsed sensor_dict =>
      let hs := high_sensors sensor_dict in
      Done (if 0 <? length hs then acc ++ [(time row, hs)] else acc)
  | Malformed _ => Done acc
  | Unhandled e => Raises e
  end.

Definition sensor_data_list (window : list AnomalyRow)
  : Outcome (list (Z * list (string * Q))) :=
  fold_left (fun acc row => bind acc (fun l => sensor_table_row l row))
            window (Done []).

(** One row of the loop that fills [high_sensor_list]. *)
Definition collect_high (acc : list (string * Q)) (row : AnomalyRow)
  : Outcome (list (string * Q)) :=
  match sensor_anomaly_score row with
  | Parsed sensor_dict =>
      Done (fold_left
              (fun acc item =>
                 if Qgeb (snd item) 1%Q then acc ++ [(fst item, snd item)]
                 else acc)
              sensor_dict acc)
  | Malformed _ => Done acc
  | Unhandled e => Raises e
  end.

Definition high_sensor_list (window : list AnomalyRow)
  : Outcome (list (string * Q)) :=
  fold_left (fun acc row => bind acc (fun l => collect_high l row))
            window (Done []).

(** What the two loops hold when no cell raises, stated directly: the
    high sensors of the rows of the window, and the table rows. *)
Definition row_high_sensors (row : AnomalyRow) : list (string * Q) :=
  match sensor_anomaly_score row with
  | Parsed sensor_dict => high_sensors sensor_dict
  | Malformed _ => []
  | Unhandled _ => []
  end.

Definition window_high_sensors (window : list AnomalyRow)
  : list (string * Q) :=
  flat_map row_high_sensors window.

Definition window_table (window : list AnomalyRow)
  : list (Z * list (string * Q)) :=
  flat_map
    (fun row =>
       if 0 <? length (row_high_sensors row)
       then [(time row, row_high_sensors row)] else [])
    window.

(** [identifier.unique().tolist() if len(filtered_alert) > 0 else []] *)
Definition alert_types (window_alerts : list AlertRow) : list string :=
  if 0 <? length window_alerts then unique (map identifier window_alerts)
  else [].

(** [filtered_action_history.head(3)] when there is a history, as records;
    the records keep the columns 조치 일자, 현상 and 처방. *)
Definition similar_actions (history : list ActionRow) : list ActionRow :=
  if 0 <? length history then firstn 3 history else [].

Section Diagnosis.

(** [repr] of a float.  Python prints a float with digits, a point, an
    exponent mark and a sign, or as inf or nan ([float_repr_chars]). *)
Variable float_repr : Q -> string.

Definition float_chars : list ascii :=
  list_ascii_of_string "0123456789.e+-infa".

(** [repr] of a sensor name.  Python puts the name between quotes and
    escapes the backslash, the quote and the characters that do not
    print. *)
Variable str_repr : string -> string.

(** A name between single quotes: what [repr] prints for a name without
    a character to escape, as the sensor names of the generator are. *)
Definition quoted (s : string) : string :=
  ("'" ++ s ++ "'")%string.

(** [str] of a list of (sensor, score) tuples. *)
Definition tuple_repr (item : string * Q) : string :=
  ("(" ++ str_repr (fst item) ++ ", " ++ float_repr (snd item) ++ ")")%string.

Definition list_str (l : list (string * Q)) : string :=
  ("[" ++ String.concat ", " (map tuple_repr l) ++ "]")%string.

(** The severity of [max_score]. *)
Definition severity_of (max_score : option Q) : Severity :=
  if nan_geb max_score 2.5%Q then High
  else if nan_geb max_score 1.5%Q then Medium
  else Low.

(** The lines appended between the headers 권장 조치 and 분석 요약. *)
Definition recommendations_of (max_score : option Q)
    (sensors : list (string * Q)) (types : list string)
    (actions : list ActionRow) : list string :=
  let parts := [] in
  if nan_geb max_score 2.5%Q then
    let parts :=
      if contains "temperature-sensor" (list_str sensors)
      then parts ++ [rec_temperature_sensor] else parts in
    let parts :=
      if existsb (String.eqb "과열") types
         || existsb (String.eqb "오버 히팅") types
      then parts ++ [rec_cooling_system] else parts in
    let parts :=
      if (0 <? length actions)
         && existsb (fun a => contains "온도센서교체" (treatment a)) actions
      then parts ++ [rec_past_fix] else parts in
    parts ++ [rec_physical_inspection]
  else if nan_geb max_score 1.5%Q then
    let parts := parts ++ [rec_keep_monitoring] in
    let parts :=
      if 0 <? length sensors then parts ++ [rec_inspect_sensors]
      else parts in
    parts ++ [rec_preventive]
  else
    let parts := parts ++ [rec_regular_schedule] in
    parts ++ [rec_monitor_state].

(** The block under [if ai_diagnosis_clicked]. *)
Definition ai_diagnosis (window : list AnomalyRow)
    (window_alerts : list AlertRow) (history : list ActionRow)
  : Outcome Diagnosis :=
  let max_score := col_max (map product_anomaly_score window) in
  bind (high_sensor_list window)
       (fun high_sensor_list =>
          Done {| severity := severity_of max_score;
                  recommendations :=
                    recommendations_of max_score high_sensor_list
                      (alert_types window_alerts)
                      (similar_actions history) |}).

(** The diagnosis when no cell of the window raises, stated directly. *)
Definition diagnosis_of (window : list AnomalyRow)
    (window_alerts : list AlertRow) (history : list ActionRow)
  : Diagnosis :=
  let max_score := col_max (map product_anomaly_score window) in
  {| severity := severity_of max_score;
     recommendations :=
       recommendations_of max_score (window_high_sensors window)
         (alert_types window_alerts) (similar_actions history) |}.

(** The page, from its files and the inputs of its sidebar: the selected
    product and the two ends of the time window, as the user sets them.
    The loop of section 2 reads every cell of the window before the button
    of the diagnosis is looked at. *)
Definition detail_page (anomaly_file : option (list AnomalyRow))
    (alert_file : option (list AlertRow))
    (action_file : option (list ActionRow))
    (selected_product : string) (start_datetime end_datetime : Z)
    (ai_diagnosis_clicked : bool) : PageView :=
  match anomaly_file with
  | None => StoppedNoFile
  | Some [] => FailedNoTimes
  | Some anomaly_df =>
      let window :=
        filtered_anomaly anomaly_df selected_product
          start_datetime end_datetime in
      let window_alerts :=
        filtered_alert (load_frame alert_file) selected_product
          start_datetime end_datetime in
      let history :=
        filtered_action_history (load_frame action_file)
          selected_product in
      if length window =? 0 then StoppedNoData
      else
        match sensor_data_list window with
        | Raises e => Raised e
        | Done sensor_data_list =>
            if ai_diagnosis_clicked then
              match ai_diagnosis window window_alerts history with
              | Done diagnosis => Shown (Some diagnosis)
              | Raises e => Raised e
              end
            else Shown None
        end
  end.

End Diagnosis.

(** Python's [repr] of a text of ASCII characters: between single quotes,
    or between double quotes when the text holds a single quote and no
    double quote; the backslash and the quote are escaped, and so are the
    characters that do not print. *)
Definition hex_digit (n : nat) : ascii :=
  nth n (list_ascii_of_string "0123456789abcdef") "0"%char.

Definition escape_char (quote c : ascii) : string :=
  let n := nat_of_ascii c in
  let backslash := ascii_of_nat 92 in
  if (n =? 92) || Ascii.eqb c quote then String backslash (String c "")
  else if n =? 9 then String backslash "t"
  else if n =? 10 then String backslash "n"
  else if n =? 13 then String backslash "r"
  else if (n <? 32) || (n =? 127)
       then String backslash
              (String "x" (String (hex_digit (n / 16))
                                  (String (hex_digit (n mod 16)) "")))
  else String c "".

Definition repr_ascii (s : string) : string :=
  let single := ascii_of_nat 39 in
  let double := ascii_of_nat 34 in
  let quote :=
    if existsb (Ascii.eqb single) (list_ascii_of_string s)
       && negb (existsb (Ascii.eqb double) (list_ascii_of_string s))
    then double else single in
  String quote
    (String.concat "" (map (escape_char quote) (list_ascii_of_string s))
     ++ String quote "")%string.

(** A name that [repr] leaves as it is: printing ASCII characters other
    than the single quote and the backslash. *)
Definition plain_char (c : ascii) : bool :=
  let n := nat_of_ascii c in
  (32 <=? n) && (n <? 127) && negb (n =? 39) && negb (n =? 92).

Definition plain_name (s : string) : bool :=
  forallb plain_char (list_ascii_of_string s).

End DetailPage.

(** ** The tables and summaries of the detail page *)

Module DetailSummary.
Import DetailPage.

(** A dict from sensor to score, in insertion order: [d.get(key)] and
    [d[key] = v], which keeps the place of a key that is there and appends
    a new one. *)
Fixpoint dict_get (key : string) (d : list (string * Q)) : option Q :=
  match d with
  | [] => None
  | (k, v) :: rest => if String.eqb k key then Some v else dict_get key rest
  end.

Fixpoint dict_set (key : string) (v : Q) (d : list (string * Q))
  : list (string * Q) :=
  match d with
  | [] => [(key, v)]
  | (k, w) :: rest =>
      if String.eqb k key then (k, v) :: rest
      else (k, w) :: dict_set key v rest
  end.

(** [x < y] on scores. *)
Definition Qltb (x y : Q) : bool := negb (Qle_bool y x).

(** The loop that fills [unique_sensors]:
    [if sensor not in unique_sensors or unique_sensors[sensor] < score]. *)
Definition unique_sensors (sensors : list (string * Q))
  : list (string * Q) :=
  fold_left
    (fun d item =>
       match dict_get (fst item) d with
       | None => dict_set (fst item) (snd item) d
       | Some old =>
           if Qltb old (snd item) then dict_set (fst item) (snd item) d
           else d
       end)
    sensors [].

(** What the loop keeps true of the dict [d] once it has read the entries
    [seen]: every sensor seen has one entry, with the largest score seen
    for it. *)
Definition summarises (d seen : list (string * Q)) : Prop :=
  NoDup (map fst d)
  /\ (forall k, In k (map fst d) <-> In k (map fst seen))
  /\ forall k v, In (k, v) d ->
       In (k, v) seen /\ forall v', In (k, v') seen -> (v' <= v)%Q.

(** [sorted(items, key=lambda x: x[1], reverse=True)]: descending, and
    items with equal scores keep their order. *)
Fixpoint insert_desc (item : string * Q) (sorted : list (string * Q))
  : list (string * Q) :=
  match sorted with
  | [] => [item]
  | x :: rest =>
      if Qle_bool (snd item) (snd x) then x :: insert_desc item rest
      else item :: x :: rest
  end.

Definition sorted_desc (items : list (string * Q)) : list (string * Q) :=
  fold_left (fun acc item => insert_desc item acc) items [].

(** The sensors and scores of the lines under 이상 감지된 센서. *)
Definition sensor_summary (sensors : list (string * Q))
  : list (string * Q) :=
  sorted_desc (unique_sensors sensors).

(** The identifiers and counts of the lines under 이벤트 이상 감지. *)
Definition alert_counts (window_alerts : list AlertRow)
  : list (string * nat) :=
  map (fun alert_type =>
         (alert_type,
          length (filter (fun a => String.eqb (identifier a) alert_type)
                         window_alerts)))
      (alert_types window_alerts).

End DetailSummary.

(** ** The dashboard *)

Module Dashboard.

(** [sorted(df["product_id"].unique())], the options of the multiselect
    and its default. *)
Definition product_ids (df : list AnomalyRow) : list string :=
  sorted_str (unique (map product_id df)).

(** [df[df["product_id"].isin(selected_products)]] *)
Definition filtered_df (df : list AnomalyRow) (selected_products : list string)
  : list AnomalyRow :=
  filter (fun row => existsb (String.eqb (product_id row)) selected_products)
         df.

(** [df[col].min()]: NaN ([None]) on an empty column. *)
Definition col_min (col : list Q) : option Q :=
  match col with
  | [] => None
  | x :: rest => Some (fold_left Qmin rest x)
  end.

(** The column in ascending order. *)
Fixpoint insert_score (x : Q) (sorted : list Q) : list Q :=
  match sorted with
  | [] => [x]
  | y :: rest =>
      if Qle_bool y x then y :: insert_score x rest else x :: y :: rest
  end.

Definition sort_scores (col : list Q) : list Q :=
  fold_left (fun acc x => insert_score x acc) col [].

(** [df[col].median()]: the middle value of the sorted column, the mean of
    the two middle values when their number is even, NaN on an empty
    column. *)
Definition median (col : list Q) : option Q :=
  let sorted := sort_scores col in
  let n := length col in
  if n =? 0 then None
  else if Nat.even n
       then Some ((nth (n / 2 - 1) sorted 0 + nth (n / 2) sorted 0) / 2)%Q
       else Some (nth (n / 2) sorted 0%Q).

(** [len(filtered_df[filtered_df["product_anomaly_score"] > 2.0])] *)
Definition high_anomaly_count (rows : list AnomalyRow) : nat :=
  length (filter (fun row => Qgtb (product_anomaly_score row) 2.0%Q) rows).

(** The distinct times of a column, in order of first appearance. *)
Fixpoint unique_times (col : list Z) : list Z :=
  match col with
  | [] => []
  | t :: rest => t :: filter (fun u => negb (t =? u)%Z) (unique_times rest)
  end.

(** One cell of [pivot_table(index="product_id", columns="time",
    values="product_anomaly_score", aggfunc="first")]: the score of the
    first row of the product at the time, NaN ([None]) without one. *)
Definition pivot_cell (rows : list AnomalyRow) (pid : string) (t : Z)
  : option Q :=
  match filter (fun row => String.eqb (product_id row) pid
                           && (time row =? t)%Z) rows with
  | [] => None
  | row :: _ => Some (product_anomaly_score row)
  end.

(** The columns and the index of the pivot table, both in ascending
    order, and its values, one list per product. *)
Definition pivot_columns (rows : list AnomalyRow) : list Z :=
  sort_values (fun t => t) (unique_times (map time rows)).

Definition pivot_index (rows : list AnomalyRow) : list string :=
  sorted_str (unique (map product_id rows)).

Definition pivot_values (rows : list AnomalyRow) : list (list (option Q)) :=
  map (fun pid => map (pivot_cell rows pid) (pivot_columns rows))
      (pivot_index rows).

(** The four metrics under 통계 정보. *)
Record Stats : Type := mkStats {
  median_score : option Q;
  max_of_scores : option Q;
  min_of_scores : option Q;
  high_count : nat
}.

Definition stats_of (rows : list AnomalyRow) : Stats :=
  {| median_score := median (map product_anomaly_score rows);
     max_of_scores := col_max (map product_anomaly_score rows);
     min_of_scores := col_min (map product_anomaly_score rows);
     high_count := high_anomaly_count rows |}.

(** How the page ends: stopped because the score file is missing
    ([load_data]); failed in the sidebar on a frame without rows, whose
    first and last time are NaT and cannot be printed; stopped because the
    selection holds no row; or shown, with the heat map (its values and
    its height) and the metrics.  The colours, the labels and the table of
    the expander are left out. *)
Inductive DashboardView : Type :=
| NoFile
| NoTimes
| NoSelection
| Heatmap (z : list (list (option Q))) (height : nat) (stats : Stats).

Definition dashboard (file : option (list AnomalyRow))
    (selected_products : list string) : DashboardView :=
  match file with
  | None => NoFile
  | Some [] => NoTimes
  | Some df =>
      let rows := filtered_df df selected_products in
      if length rows =? 0 then NoSelection
      else Heatmap (pivot_values rows)
                   (400 + length (pivot_values rows) * 50)
                   (stats_of rows)
  end.

End Dashboard.

(** ** The generator of the mock data

    [generate_mock_data.py] draws from numpy's random generator.  In the
    model every draw is an input: a value per place of the program that
    draws and per turn of the loops around it.  What is proved for all
    such inputs within the ranges numpy promises holds for every run. *)

Module MockData.

(** 2024-01-15 10:00:00, in seconds. *)
Definition START_TIME : Z := 1705312800.
Definition TIME_INTERVAL_MINUTES : Z := 2.
Definition NUM_TIME_POINTS : nat := 30.

Definition PRODUCT_IDS : list string :=
  ["RAG-00042"; "RAG-00055"; "RAG-00038"; "RAG-00066"; "RAG-00051";
   "RAG-00073"]%string.

Definition SENSORS : list string :=
  ["temperature-sensor"; "fuse-state"; "current-position"; "adb-value";
   "snr-db"]%string.

Definition ALERT_IDENTIFIERS : list string :=
  ["사용제한"; "인덕션 연결 끊김"; "오버 히팅"; "내부 과열"; "스톨"; "수동 모드";
   "라이트 커튼 인식"; "온도 센서 연결 끊김"]%string.

Definition TREATMENTS : list string :=
  ["온도센서교체"; "하네스교체"; "X축 교체"; "RGB버튼 교체"]%string.

(** [round(x, 2)]: the nearest multiple of 0.01, the even one when two are
    as near.  Scores are rationals here: a float of Python is read as the
    decimal number it is written as. *)
Definition round_half_even (q : Q) : Z :=
  let f := Qfloor q in
  match (q - inject_Z f ?= 1 # 2)%Q with
  | Lt => f
  | Gt => (f + 1)%Z
  | Eq => if Z.even f then f else (f + 1)%Z
  end.

Definition round2 (q : Q) : Q :=
  (inject_Z (round_half_even (q * 100)) / 100)%Q.

(** [generate_normal_sensor_scores]; [exponential] is the draw of
    [np.random.exponential(0.05)] for each sensor. *)
Definition generate_normal_sensor_scores (exponential : string -> Q)
  : list (string * Q) :=
  map (fun sensor => (sensor, round2 (Qmin (exponential sensor) 0.3)))
      SENSORS.

(** [generate_spike_anomaly_scores]; [anomaly_sensors] is the draw of
    [np.random.choice], [uniform] that of [np.random.uniform(2.0, 3.5)]. *)
Definition generate_spike_anomaly_scores (anomaly_sensors : list string)
    (uniform exponential : string -> Q) : list (string * Q) :=
  map (fun sensor =>
         let score :=
           if existsb (String.eqb sensor) anomaly_sensors
           then uniform sensor
           else Qmin (exponential sensor) 0.3 in
         (sensor, round2 score))
      SENSORS.

(** [generate_gradual_anomaly_scores(base_level)]; [normal] is the draw of
    [np.random.normal(0, 0.15)] for each sensor. *)
Definition generate_gradual_anomaly_scores (base_level : Q)
    (normal : string -> Q) : list (string * Q) :=
  map (fun sensor =>
         let variation := normal sensor in
         let score := Qmax 0 (base_level + variation) in
         let score := Qmax score (base_level * 0.8) in
         (sensor, round2 (Qmin score 3.5)))
      SENSORS.

(** An entry of [product_states]. *)
Record ProductState : Type := mkProductState {
  in_gradual_anomaly : bool;
  anomaly_level : Q;
  state_start_time : Z
}.

Definition initial_state : ProductState := mkProductState false 0.0 (-1).

(** The draws of one run of [generate_data]. *)
Record Draws : Type := mkDraws {
  gradual_anomaly_products : list string;
  gradual_start_times : string -> nat;
  random : nat -> string -> Q;
  exponential : nat -> string -> string -> Q;
  spike_sensors : nat -> string -> list string;
  uniform : nat -> string -> string -> Q;
  normal : nat -> string -> string -> Q
}.

(** [START_TIME + timedelta(minutes=i * TIME_INTERVAL_MINUTES)] *)
Definition current_time (i : nat) : Z :=
  (START_TIME + Z.of_nat i * TIME_INTERVAL_MINUTES * 60)%Z.

(** The gradual branch of the loop body: the state of the product after
    it and the scores, when the product is in its gradual anomaly. *)
Definition gradual_step (draws : Draws) (i : nat) (pid : string)
    (state : ProductState) : ProductState * option (list (string * Q)) :=
  if existsb (String.eqb pid) (gradual_anomaly_products draws) then
    if gradual_start_times draws pid <=? i then
      let state :=
        if negb (in_gradual_anomaly state)
        then mkProductState true 0.5 (Z.of_nat i)
        else state in
      let elapsed := (Z.of_nat i - state_start_time state)%Z in
      let level := Qmin (0.5 + inject_Z elapsed * 0.15) 3.5 in
      let state :=
        mkProductState (in_gradual_anomaly state) level
                       (state_start_time state) in
      (state, Some (generate_gradual_anomaly_scores level
                      (normal draws i pid)))
    else (state, None)
  else (state, None).

(** The record of one product at one time point: the row as the pages
    read it back from the CSV file.  [max] of an empty dict raises
    ValueError ([None]). *)
Definition make_record (i : nat) (pid : string)
    (sensor_scores : list (string * Q)) : option AnomalyRow :=
  match col_max (map snd sensor_scores) with
  | Some product_score =>
      Some (mkAnomalyRow (current_time i) pid (Parsed sensor_scores)
              (round2 product_score))
  | None => None
  end.

(** The body of [for product_id in PRODUCT_IDS], on the states and the
    records so far; [None] once an exception was raised. *)
Definition generate_record (draws : Draws) (i : nat)
    (acc : option ((string -> ProductState) * list AnomalyRow))
    (pid : string) : option ((string -> ProductState) * list AnomalyRow) :=
  match acc with
  | None => None
  | Some (product_states, records) =>
      let (state, gradual) := gradual_step draws i pid (product_states pid) in
      let sensor_scores :=
        match gradual with
        | Some scores => scores
        | None =>
            if DetailSummary.Qltb (random draws i pid) 0.95
            then generate_normal_sensor_scores (exponential draws i pid)
            else generate_spike_anomaly_scores (spike_sensors draws i pid)
                   (uniform draws i pid) (exponential draws i pid)
        end in
      match make_record i pid sensor_scores with
      | Some record =>
          Some (fun q => if String.eqb q pid then state else product_states q,
                records ++ [record])
      | None => None
      end
  end.

(** [generate_data]: the records of all time points and products. *)
Definition generate_data (draws : Draws) : option (list AnomalyRow) :=
  option_map snd
    (fold_left
       (fun acc i => fold_left (generate_record draws i) PRODUCT_IDS acc)
       (seq 0 NUM_TIME_POINTS)
       (Some (fun _ => initial_state, []))).

(** The anomaly level of a product [elapsed] time points into its gradual
    anomaly, and the scores it gets at time point [i], written without the
    states. *)
Definition level_after (elapsed : nat) : Q :=
  Qmin (0.5 + inject_Z (Z.of_nat elapsed) * 0.15) 3.5.

Definition scores_at (draws : Draws) (i : nat) (pid : string)
  : list (string * Q) :=
  if existsb (String.eqb pid) (gradual_anomaly_products draws)
     && (gradual_start_times draws pid <=? i)
  then generate_gradual_anomaly_scores
         (level_after (i - gradual_start_times draws pid))
         (normal draws i pid)
  else if DetailSummary.Qltb (random draws i pid) 0.95
       then generate_normal_sensor_scores (exponential draws i pid)
       else generate_spike_anomaly_scores (spike_sensors draws i pid)
              (uniform draws i pid) (exponential draws i pid).

(** The aggregate score and the record of a product at a time point, and
    the records of a run, in the order the loops append them. *)
Definition product_score_of (sensor_scores : list (string * Q)) : Q :=
  match col_max (map snd sensor_scores) with
  | Some product_score => round2 product_score
  | None => 0
  end.

Definition record_at (draws : Draws) (i : nat) (pid : string) : AnomalyRow :=
  mkAnomalyRow (current_time i) pid (Parsed (scores_at draws i pid))
               (product_score_of (scores_at draws i pid)).

Definition records_of (draws : Draws) : list AnomalyRow :=
  flat_map (fun i => map (record_at draws i) PRODUCT_IDS)
           (seq 0 NUM_TIME_POINTS).

(** What the state of a product holds before time point [i]: whether its
    gradual anomaly has begun, and when. *)
Definition state_ok (draws : Draws) (i : nat) (pid : string)
    (state : ProductState) : Prop :=
  if existsb (String.eqb pid) (gradual_anomaly_products draws)
     && (gradual_start_times draws pid <? i)
  then in_gradual_anomaly state = true
       /\ state_start_time state = Z.of_nat (gradual_start_times draws pid)
  else in_gradual_anomaly state = false.

(** What numpy promises of the draws that the properties rely on. *)
Definition draws_in_range (draws : Draws) : Prop :=
  gradual_anomaly_products draws <> []
  /\ incl (gradual_anomaly_products draws) PRODUCT_IDS
  /\ (forall pid, In pid (gradual_anomaly_products draws) ->
                  5 <= gradual_start_times draws pid < 15)
  /\ (forall i pid sensor, (0 <= exponential draws i pid sensor)%Q)
  /\ (forall i pid sensor,
        (2.0 <= uniform draws i pid sensor)%Q
        /\ (uniform draws i pid sensor <= 3.5)%Q)
  /\ (forall i pid, spike_sensors draws i pid <> []
                    /\ incl (spike_sensors draws i pid) SENSORS).

(** A run of draws for the examples: RAG-00055 starts its gradual anomaly
    at time point 7, RAG-00042 has a spike at time point 3, everything
    else is quiet. *)
Definition sample_draws : Draws :=
  mkDraws ["RAG-00055"%string] (fun _ => 7)
          (fun i pid =>
             if (i =? 3) && String.eqb pid "RAG-00042" then 0.97%Q
             else 0.5%Q)
          (fun _ _ _ => 0.04%Q)
          (fun _ _ => ["fuse-state"%string]) (fun _ _ _ => 2.5%Q)
          (fun _ _ _ => 0.1%Q).

(** *** The alerts *)

(** An entry of [alert_states]; [alert_duration] is its key "duration". *)
Record AlertState : Type := mkAlertState {
  has_alert : bool;
  alert_type : option string;
  alert_duration : Z
}.

Definition initial_alert_state : AlertState := mkAlertState false None 0.

(** The draws of one run of [generate_alert_data], per time point and
    product: [randint(1, 6)], [random()], [uniform(0.03, 0.05)] and
    [choice(ALERT_IDENTIFIERS)]. *)
Record AlertDraws : Type := mkAlertDraws {
  alert_randint : nat -> string -> Z;
  alert_random : nat -> string -> Q;
  alert_uniform : nat -> string -> Q;
  alert_choice : nat -> string -> string
}.

(** A record of the alert frame; the identifier is the alert type of the
    state, which the code also sets to None. *)
Record AlertRecord : Type := mkAlertRecord {
  ar_time : Z;
  ar_product_id : string;
  ar_identifier : option string
}.

(** The body of [for product_id in PRODUCT_IDS] on the state of the
    product: the state after it and the record it appends, if any. *)
Definition alert_step (draws : AlertDraws) (i : nat) (pid : string)
    (state : AlertState) : AlertState * option AlertRecord :=
  if has_alert state then
    let duration := (alert_duration state + 1)%Z in
    if (duration <=? alert_randint draws i pid)%Z then
      (mkAlertState true (alert_type state) duration,
       Some (mkAlertRecord (current_time i) pid (alert_type state)))
    else (mkAlertState false None 0, None)
  else
    if DetailSummary.Qltb (alert_random draws i pid) (alert_uniform draws i pid)
    then
      let alert_type := alert_choice draws i pid in
      (mkAlertState true (Some alert_type) 1,
       Some (mkAlertRecord (current_time i) pid (Some alert_type)))
    else (state, None).

Definition generate_alert_record (draws : AlertDraws) (i : nat)
    (acc : (string -> AlertState) * list AlertRecord) (pid : string)
  : (string -> AlertState) * list AlertRecord :=
  let (alert_states, records) := acc in
  let (state, record) := alert_step draws i pid (alert_states pid) in
  (fun q => if String.eqb q pid then state else alert_states q,
   match record with
   | Some r => records ++ [r]
   | None => records
   end).

(** [generate_alert_data]: the records of all time points and products. *)
Definition generate_alert_data (draws : AlertDraws) : list AlertRecord :=
  snd (fold_left
         (fun acc i =>
            fold_left (generate_alert_record draws i) PRODUCT_IDS acc)
         (seq 0 NUM_TIME_POINTS)
         (fun _ => initial_alert_state, [])).

(** The state of a product before time point [i] and the record of the
    product at [i], from the draws of the product alone. *)
Fixpoint alert_state_before (draws : AlertDraws) (pid : string) (i : nat)
  : AlertState :=
  match i with
  | 0 => initial_alert_state
  | S j => fst (alert_step draws j pid (alert_state_before draws pid j))
  end.

Definition alert_at (draws : AlertDraws) (i : nat) (pid : string)
  : option AlertRecord :=
  snd (alert_step draws i pid (alert_state_before draws pid i)).

(** What numpy promises of the draws of the alerts. *)
Definition alert_draws_in_range (draws : AlertDraws) : Prop :=
  forall i pid,
    (1 <= alert_randint draws i pid <= 5)%Z
    /\ In (alert_choice draws i pid) ALERT_IDENTIFIERS.

(** Draws for the examples: one alert, of RAG-00038 at time point 4, kept
    for three time points. *)
Definition sample_alert_draws : AlertDraws :=
  mkAlertDraws (fun _ _ => 3%Z)
               (fun i pid =>
                  if (i =? 4) && String.eqb pid "RAG-00038" then 0.01%Q
                  else 0.5%Q)
               (fun _ _ => 0.04%Q)
               (fun _ _ => "오버 히팅"%string).

End MockData.

(** ** The duration as the specification words it *)

Module Spec.

(** The gaps between consecutive timestamps of a series. *)
Fixpoint gaps (times : list Z) : list Z :=
  match times with
  | [] => []
  | t1 :: rest =>
      match rest with
      | [] => []
      | t2 :: _ => (t2 - t1)%Z :: gaps rest
      end
  end.

(** The nominal sample interval derived from the series: the minimum
    positive gap between consecutive timestamps, when there is one. *)
Definition nominal_sample_interval (times : list Z) : option Z :=
  match filter (fun g => (0 <? g)%Z) (gaps times) with
  | [] => None
  | g :: more => Some (fold_left Z.min more g)
  end.

(** [(timestamp[end] - timestamp[start]) + nominal_sample_interval], in
    seconds. *)
Definition duration (times : list Z) (start_idx end_idx : nat) : option Z :=
  match nominal_sample_interval times with
  | Some interval =>
      Some (nth end_idx times 0 - nth start_idx times 0 + interval)%Z
  | None => None
  end.

End Spec.

(** ** Sample frames *)

Module Samples.

Definition row (t : Z) (pid : string) (score : Q) : AnomalyRow :=
  mkAnomalyRow t pid (Parsed [("temperature-sensor"%string, score)]) score.

(** The series of scenario A: device D1, a row every two minutes. *)
Definition scenario_a : list AnomalyRow :=
  [row 0 "D1" 0.1; row 120 "D1" 0.1; row 240 "D1" 1.5; row 360 "D1" 1.6;
   row 480 "D1" 1.4; row 600 "D1" 0.2]%Q.

(** A series with a row every minute, all above 1.0. *)
Definition every_minute : list AnomalyRow :=
  [row 0 "D1" 2.0; row 60 "D1" 2.0; row 120 "D1" 2.0]%Q.

(** Scenario A with a cell that does not parse in the middle of the run. *)
Definition scenario_d : list AnomalyRow :=
  [row 0 "D1" 0.1; row 120 "D1" 0.1; row 240 "D1" 1.5;
   mkAnomalyRow 360 "D1" (Malformed SyntaxError) 1.6;
   row 480 "D1" 1.4; row 600 "D1" 0.2]%Q.

(** Scenario A with a cell that holds a list in the middle of the run, as
    the text [[1.6]] does: [literal_eval] gives the list and [.items()]
    raises AttributeError. *)
Definition scenario_list_cell : list AnomalyRow :=
  [row 0 "D1" 0.1; row 120 "D1" 0.1; row 240 "D1" 1.5;
   mkAnomalyRow 360 "D1" (Unhandled AttributeError) 1.6;
   row 480 "D1" 1.4; row 600 "D1" 0.2]%Q.

(** Scenario C: two runs above 1.0 with a row below it in between; the
    rows are not in time order in the file. *)
Definition two_runs : list AnomalyRow :=
  [row 360 "D1" 1.2; row 0 "D1" 1.5; row 120 "D1" 1.7; row 240 "D1" 0.4;
   row 480 "D1" 0.3; row 0 "D2" 0.2]%Q.

(** A window for the diagnosis: scores up to 3.0 on the temperature
    sensor, an overheating alert, and a past replacement of the
    temperature sensor (scenario E). *)
Definition scenario_e : list AnomalyRow :=
  [row 0 "D1" 0.1; row 120 "D1" 3.0; row 240 "D1" 1.2]%Q.

Definition scenario_e_alerts : list AlertRow :=
  [mkAlertRow 120 "D1" "오버 히팅"; mkAlertRow 120 "D2" "스톨"].

Definition scenario_e_actions : list ActionRow :=
  [mkActionRow 10 "D1" "가열불가" "-" "하네스교체";
   mkActionRow 30 "D1" "과열" "-" "온도센서교체";
   mkActionRow 20 "D2" "과열" "-" "온도센서교체"].

(** A window whose only sensor name starts with a tab: no sensor name
    holds temperature-sensor, but the name prints with the tab escaped. *)
Definition tab_name : string :=
  String (ascii_of_nat 9) "emperature-sensor".

Definition scenario_tab : list AnomalyRow :=
  [mkAnomalyRow 120 "D1" (Parsed [(tab_name, 3.0%Q)]) 3.0%Q].

(** A stand-in for [repr] on floats in the examples. *)
Definition two_decimals (q : Q) : string := "0.00".

Definition sample_alerts : list AlertRow :=
  [mkAlertRow 120 "D1" "수동 모드"; mkAlertRow 240 "D1" "오버 히팅";
   mkAlertRow 480 "D1" "스톨"; mkAlertRow 360 "D2" "스톨";
   mkAlertRow 600 "D1" "내부 과열"].

End Samples.

(** * Properties *)

(** ** Comparisons *)

Lemma Qgtb_lt (x y : Q) : Qgtb x y = true <-> (y < x)%Q.
Proof.
  unfold Qgtb. rewrite negb_true_iff, <- not_true_iff_false, Qle_bool_iff.
  split; [apply Qnot_le_lt | apply Qlt_not_le].
Qed.

Lemma Qgeb_le (x y : Q) : Qgeb x y = true <-> (y <= x)%Q.
Proof. unfold Qgeb. apply Qle_bool_iff. Qed.

Lemma Qgeb_false_lt (x y : Q) : Qgeb x y = false <-> (x < y)%Q.
Proof.
  rewrite <- not_true_iff_false, Qgeb_le.
  split; [apply Qnot_le_lt | apply Qlt_not_le].
Qed.

(** ** Sorting and slicing *)

Section SortFacts.
Context {A : Type} (key : A -> Z).

Lemma insert_row_perm (row : A) (l : list A) :
  Permutation (insert_row key row l) (row :: l).
Proof.
  induction l as [| r rest IH]; simpl.
  - reflexivity.
  - destruct (key r <=? key row)%Z.
    + rewrite IH. apply perm_swap.
    + reflexivity.
Qed.

Lemma insert_row_sorted (row : A) (l : list A) :
  StronglySorted (fun a b => (key a <= key b)%Z) l ->
  StronglySorted (fun a b => (key a <= key b)%Z) (insert_row key row l).
Proof.
  induction 1 as [| r rest Hsorted IH Hall]; simpl.
  - repeat constructor.
  - destruct (key r <=? key row)%Z eqn:Hle.
    + constructor; [assumption |].
      rewrite (insert_row_perm row rest). constructor; [| assumption].
      apply Z.leb_le. assumption.
    + apply Z.leb_gt in Hle. constructor.
      * constructor; assumption.
      * constructor; [lia |].
        eapply Forall_impl; [| exact Hall]. simpl. intros b Hb. lia.
Qed.

Lemma fold_insert_perm (df acc : list A) :
  Permutation (fold_left (fun sorted row => insert_row key row sorted) df acc)
              (acc ++ df).
Proof.
  revert acc. induction df as [| row rest IH]; intros acc; simpl.
  - rewrite app_nil_r. reflexivity.
  - rewrite IH, insert_row_perm. apply Permutation_middle.
Qed.

Lemma fold_insert_sorted (df acc : list A) :
  StronglySorted (fun a b => (key a <= key b)%Z) acc ->
  StronglySorted (fun a b => (key a <= key b)%Z)
    (fold_left (fun sorted row => insert_row key row sorted) df acc).
Proof.
  revert acc. induction df as [| row rest IH]; intros acc Hacc; simpl.
  - assumption.
  - apply IH, insert_row_sorted. assumption.
Qed.

Lemma sort_values_perm (df : list A) : Permutation (sort_values key df) df.
Proof. apply (fold_insert_perm df []). Qed.

Lemma sort_values_sorted (df : list A) :
  StronglySorted (fun a b => (key a <= key b)%Z) (sort_values key df).
Proof. apply fold_insert_sorted. constructor. Qed.

Lemma sort_values_length (df : list A) :
  length (sort_values key df) = length df.
Proof. apply Permutation_length, sort_values_perm. Qed.

(** Without equal keys the order is strict. *)
Lemma sorted_nodup_strict (l : list A) :
  StronglySorted (fun a b => (key a <= key b)%Z) l ->
  NoDup (map key l) ->
  StronglySorted (fun a b => (key a < key b)%Z) l.
Proof.
  induction 1 as [| r rest Hsorted IH Hall]; simpl; intros Hnd.
  - constructor.
  - inversion Hnd as [| ? ? Hnotin Hnd']; subst.
    constructor; [apply IH; assumption |].
    rewrite Forall_forall in *. intros b Hb.
    specialize (Hall b Hb).
    assert (key r <> key b).
    { intros Heq. apply Hnotin. rewrite Heq. apply in_map. assumption. }
    lia.
Qed.

Lemma sort_values_strict (df : list A) :
  NoDup (map key df) ->
  StronglySorted (fun a b => (key a < key b)%Z) (sort_values key df).
Proof.
  intros Hnd. apply sorted_nodup_strict.
  - apply sort_values_sorted.
  - eapply Permutation_NoDup; [| exact Hnd].
    apply Permutation_map. symmetry. apply sort_values_perm.
Qed.

(** Reading a sorted frame at two positions. *)
Lemma sorted_nth (R : Z -> Z -> Prop) (l : list A) :
  StronglySorted (fun a b => R (key a) (key b)) l ->
  forall j k a b,
    j < k -> nth_error l j = Some a -> nth_error l k = Some b ->
    R (key a) (key b).
Proof.
  induction 1 as [| r rest Hsorted IH Hall]; intros j k a b Hjk Hj Hk.
  - destruct j; discriminate.
  - destruct k as [| k]; [lia |]. simpl in Hk.
    destruct j as [| j]; simpl in Hj.
    + inversion Hj; subst. rewrite Forall_forall in Hall.
      apply Hall. eapply nth_error_In. eassumption.
    + apply (IH j k); [lia | assumption | assumption].
Qed.
End SortFacts.

Lemma strongly_sorted_nth {A : Type} (R : A -> A -> Prop) (l : list A) :
  StronglySorted R l ->
  forall j k a b,
    j < k -> nth_error l j = Some a -> nth_error l k = Some b -> R a b.
Proof.
  induction 1 as [| r rest Hsorted IH Hall]; intros j k a b Hjk Hj Hk.
  - destruct j; discriminate.
  - destruct k as [| k]; [lia |]. simpl in Hk.
    destruct j as [| j]; simpl in Hj.
    + inversion Hj; subst. rewrite Forall_forall in Hall.
      apply Hall. eapply nth_error_In. eassumption.
    + apply (IH j k); [lia | assumption | assumption].
Qed.

Lemma strongly_sorted_map_filter {A B : Type} (R : A -> A -> Prop)
    (R' : B -> B -> Prop) (g : A -> B) (f : A -> bool) (l : list A) :
  StronglySorted R l ->
  (forall x y, In x l -> In y l -> R x y -> R' (g x) (g y)) ->
  StronglySorted R' (map g (filter f l)).
Proof.
  induction 1 as [| r rest Hsorted IH Hall]; intros Himp; simpl.
  - constructor.
  - assert (Hrest : StronglySorted R' (map g (filter f rest))).
    { apply IH. intros x y Hx Hy. apply Himp; right; assumption. }
    destruct (f r); [| assumption]. simpl. constructor; [assumption |].
    apply Forall_forall. intros b Hb.
    apply in_map_iff in Hb as (y & <- & Hy). apply filter_In in Hy as [Hy _].
    rewrite Forall_forall in Hall.
    apply Himp; [left; reflexivity | right; assumption | apply Hall, Hy].
Qed.

Lemma iloc_slice_nth {A : Type} (df : list A) (start stop k : nat) :
  nth_error (iloc_slice df start stop) k =
  if k <? stop - start then nth_error df (start + k) else None.
Proof.
  unfold iloc_slice. destruct (k <? stop - start) eqn:Hk.
  - apply Nat.ltb_lt in Hk.
    rewrite nth_error_firstn, nth_error_skipn.
    replace (k <? stop - start) with true by (symmetry; apply Nat.ltb_lt; lia).
    reflexivity.
  - apply Nat.ltb_ge in Hk. rewrite nth_error_firstn.
    replace (k <? stop - start) with false by (symmetry; apply Nat.ltb_ge; lia).
    reflexivity.
Qed.

Lemma iloc_slice_In {A : Type} (df : list A) (start stop : nat) (x : A) :
  In x (iloc_slice df start stop) <->
  exists k, start <= k < stop /\ nth_error df k = Some x.
Proof.
  split.
  - intros Hin. apply In_nth_error in Hin as [k Hk].
    rewrite iloc_slice_nth in Hk.
    destruct (k <? stop - start) eqn:Hlt; [| discriminate].
    apply Nat.ltb_lt in Hlt. exists (start + k). split; [lia | assumption].
  - intros (k & Hk & Hx). apply (nth_error_In _ (k - start)).
    rewrite iloc_slice_nth.
    replace (k - start <? stop - start) with true
      by (symmetry; apply Nat.ltb_lt; lia).
    replace (start + (k - start)) with k by lia. assumption.
Qed.

Lemma firstn_plus {A : Type} (a b : nat) (l : list A) :
  firstn (a + b) l = firstn a l ++ firstn b (skipn a l).
Proof.
  revert l. induction a as [| a IH]; intros l; simpl.
  - reflexivity.
  - destruct l as [| x rest]; simpl.
    + rewrite firstn_nil. reflexivity.
    + rewrite IH. reflexivity.
Qed.

(** [iloc_slice] cut at an inner index. *)
Lemma iloc_slice_split {A : Type} (df : list A) (start mid stop : nat) :
  start <= mid <= stop ->
  iloc_slice df start stop = iloc_slice df start mid ++ iloc_slice df mid stop.
Proof.
  intros H. unfold iloc_slice.
  replace (stop - start) with ((mid - start) + (stop - mid)) by lia.
  rewrite firstn_plus. f_equal.
  rewrite skipn_skipn. replace (mid - start + start) with mid by lia.
  reflexivity.
Qed.

Lemma iloc_slice_one {A : Type} (df : list A) (k : nat) (x : A) :
  nth_error df k = Some x -> iloc_slice df k (k + 1) = [x].
Proof.
  intros Hk. unfold iloc_slice. replace (k + 1 - k) with 1 by lia.
  revert k Hk. induction df as [| y rest IH]; intros k Hk.
  - destruct k; discriminate.
  - destruct k as [| k]; simpl in *.
    + inversion Hk. reflexivity.
    + apply IH. assumption.
Qed.

(** [Qmax] hands back one of its arguments. *)
Lemma Qmax_cases (x z : Q) :
  (Qmax x z = x /\ (z <= x)%Q) \/ (Qmax x z = z /\ (x <= z)%Q).
Proof.
  unfold Qmax, GenericMinMax.gmax. destruct (x ?= z)%Q eqn:Hc.
  - left. split; [reflexivity |]. apply Qeq_alt in Hc. rewrite Hc.
    apply Qle_refl.
  - right. split; [reflexivity |]. apply Qlt_alt in Hc.
    apply Qlt_le_weak. assumption.
  - left. split; [reflexivity |]. apply Qgt_alt in Hc.
    apply Qlt_le_weak. assumption.
Qed.

(** [col_max] is an element of the column that no element exceeds. *)
Lemma fold_Qmax_spec (rest : list Q) (x : Q) :
  In (fold_left Qmax rest x) (x :: rest)
  /\ forall y, In y (x :: rest) -> (y <= fold_left Qmax rest x)%Q.
Proof.
  revert x. induction rest as [| z rest IH]; intros x; simpl.
  - split; [auto |]. intros y [-> | []]. apply Qle_refl.
  - destruct (IH (Qmax x z)) as [Hin Hle].
    destruct (Qmax_cases x z) as [[Hm Hzx] | [Hm Hxz]]; rewrite Hm in *.
    + split.
      * destruct Hin as [Heq | Hin]; auto.
      * intros y [-> | [-> | Hy]].
        -- apply Hle. left. reflexivity.
        -- eapply Qle_trans; [exact Hzx |]. apply Hle. left. reflexivity.
        -- apply Hle. right. assumption.
    + split.
      * destruct Hin as [Heq | Hin]; auto.
      * intros y [-> | [-> | Hy]].
        -- eapply Qle_trans; [exact Hxz |]. apply Hle. left. reflexivity.
        -- apply Hle. left. reflexivity.
        -- apply Hle. right. assumption.
Qed.

Lemma col_max_spec (col : list Q) :
  col <> [] ->
  exists m, col_max col = Some m /\ In m col
            /\ forall y, In y col -> (y <= m)%Q.
Proof.
  destruct col as [| x rest]; [congruence |]. intros _.
  exists (fold_left Qmax rest x). split; [reflexivity |].
  apply fold_Qmax_spec.
Qed.

Module AlarmFacts.
Import AlarmPage.

Lemma above_lt (alpha : Q) (row : AnomalyRow) :
  above alpha row = true <-> (alpha < product_anomaly_score row)%Q.
Proof. apply Qgtb_lt. Qed.

Lemma above_at_row (alpha : Q) (data : list AnomalyRow) (k : nat)
    (row : AnomalyRow) :
  nth_error data k = Some row ->
  (above_at alpha data k <-> above alpha row = true).
Proof.
  intros Hk. rewrite above_lt. split.
  - intros (row' & Hk' & Hlt). congruence.
  - intros Hlt. exists row. auto.
Qed.

Lemma above_at_range (alpha : Q) (data : list AnomalyRow) (k : nat) :
  above_at alpha data k -> k < length data.
Proof.
  intros (row & Hk & _). apply nth_error_Some. congruence.
Qed.

Lemma not_above_at_end (alpha : Q) (data : list AnomalyRow) (k : nat) :
  nth_error data k = None -> ~ above_at alpha data k.
Proof. intros Hk (row & Hk' & _). congruence. Qed.

(** *** The inner loop *)

Lemma extend_run_ge (data : list AnomalyRow) (alpha : Q) (end_idx : nat) :
  end_idx <= extend_run data alpha end_idx.
Proof.
  funelim (extend_run data alpha end_idx).
  - destruct (above alpha row); lia.
  - lia.
Qed.

Lemma extend_run_stop (data : list AnomalyRow) (alpha : Q) (end_idx : nat) :
  ~ above_at alpha data (extend_run data alpha end_idx + 1).
Proof.
  funelim (extend_run data alpha end_idx).
  - destruct (above alpha row) eqn:Hab.
    + assumption.
    + rewrite (above_at_row alpha _ _ _ Hrow). congruence.
  - apply not_above_at_end. assumption.
Qed.

Lemma extend_run_above (data : list AnomalyRow) (alpha : Q) (end_idx : nat) :
  forall k, end_idx < k <= extend_run data alpha end_idx ->
            above_at alpha data k.
Proof.
  funelim (extend_run data alpha end_idx); intros k Hk.
  - destruct (above alpha row) eqn:Hab.
    + destruct (Nat.eq_dec k (end_idx + 1)) as [-> | Hne].
      * apply (above_at_row alpha _ _ _ Hrow). assumption.
      * apply H. lia.
    + lia.
  - lia.
Qed.

(** *** The loops, unfolded once *)

Lemma extend_run_eq (data : list AnomalyRow) (alpha : Q) (end_idx : nat) :
  extend_run data alpha end_idx =
  match nth_error data (end_idx + 1) with
  | Some row =>
      if above alpha row then extend_run data alpha (end_idx + 1)
      else end_idx
  | None => end_idx
  end.
Proof.
  funelim (extend_run data alpha end_idx).
  - rewrite Hrow. reflexivity.
  - rewrite e. reflexivity.
Qed.

Lemma runs_eq (data : list AnomalyRow) (alpha : Q) (i : nat) :
  runs data alpha i =
  match nth_error data i with
  | Some row =>
      if above alpha row then
        (i, extend_run data alpha i)
          :: runs data alpha (extend_run data alpha i + 1)
      else runs data alpha (i + 1)
  | None => []
  end.
Proof.
  funelim (runs data alpha i).
  - rewrite Hrow. reflexivity.
  - rewrite e. reflexivity.
Qed.

Lemma scan_eq (data : list AnomalyRow) (alert_df : list AlertRow)
    (alpha : Q) (beta : Z) (pid : string) (i : nat) (alarms : list Alarm) :
  scan data alert_df alpha beta pid i alarms =
  match nth_error data i with
  | Some row =>
      if above alpha row then
        match record_run data alert_df beta pid i (extend_run data alpha i)
                alarms with
        | Done alarms =>
            scan data alert_df alpha beta pid (extend_run data alpha i + 1)
              alarms
        | Raises e => Raises e
        end
      else scan data alert_df alpha beta pid (i + 1) alarms
  | None => Done alarms
  end.
Proof.
  funelim (scan data alert_df alpha beta pid i alarms).
  - rewrite Hrow. reflexivity.
  - rewrite e. reflexivity.
Qed.

(** Induction for a loop whose index only grows: the property holds
    past the end of the frame, and at an index inside the frame once it
    holds at every later index. *)
Lemma upward_ind (n : nat) (P : nat -> Prop) :
  (forall i, n <= i -> P i) ->
  (forall i, i < n -> (forall j, i < j -> P j) -> P i) ->
  forall i, P i.
Proof.
  intros Hend Hstep.
  assert (H : forall m i, n - i <= m -> P i).
  { induction m as [| m IH]; intros i Hi.
    - apply Hend. lia.
    - destruct (Nat.lt_ge_cases i n) as [Hlt | Hge].
      + apply Hstep; [assumption |]. intros j Hj. apply IH. lia.
      + apply Hend. assumption. }
  intros i. apply (H (n - i)). lia.
Qed.

(** *** The runs the scan visits are the maximal runs *)

Lemma runs_bounds (data : list AnomalyRow) (alpha : Q) :
  forall i s e, In (s, e) (runs data alpha i) -> i <= s /\ s <= e.
Proof.
  intros i. pattern i. apply (upward_ind (length data)); clear i.
  - intros i Hi s e. rewrite runs_eq.
    replace (nth_error data i) with (@None AnomalyRow)
      by (symmetry; apply nth_error_None; assumption).
    intros [].
  - intros i Hi IH s e. rewrite runs_eq.
    destruct (nth_error data i) as [row |]; [| intros []].
    pose proof (extend_run_ge data alpha i) as Hge.
    destruct (above alpha row).
    + intros [Heq | Hin].
      * inversion Heq; subst. lia.
      * apply IH in Hin; lia.
    + intros Hin. apply IH in Hin; lia.
Qed.

Lemma runs_sound (data : list AnomalyRow) (alpha : Q) :
  forall i,
    (forall k, k + 1 = i -> above_at alpha data k -> ~ above_at alpha data i) ->
    forall s e, In (s, e) (runs data alpha i) -> maximal_run alpha data s e.
Proof.
  intros i. pattern i. apply (upward_ind (length data)); clear i.
  - intros i Hi _ s e. rewrite runs_eq.
    replace (nth_error data i) with (@None AnomalyRow)
      by (symmetry; apply nth_error_None; assumption).
    intros [].
  - intros i Hi IH Hleft s e. rewrite runs_eq.
    destruct (nth_error data i) as [row |] eqn:Hrow; [| intros []].
    pose proof (extend_run_ge data alpha i) as Hge.
    destruct (above alpha row) eqn:Hab.
    + assert (Hi_above : above_at alpha data i)
        by (apply (above_at_row alpha _ _ _ Hrow); assumption).
      intros [Heq | Hin].
      * inversion Heq; subst s e. repeat split.
        -- assumption.
        -- intros k Hk. destruct (Nat.eq_dec k i) as [-> | Hne].
           ++ assumption.
           ++ apply (extend_run_above data alpha i). lia.
        -- intros k Hk Habove. apply (Hleft k Hk Habove). assumption.
        -- apply extend_run_stop.
      * apply (IH (extend_run data alpha i + 1)); [lia | | assumption].
        intros k _ _. apply extend_run_stop.
    + intros Hin. apply (IH (i + 1)); [lia | | assumption].
      intros k Hk Habove. assert (k = i) by lia. subst k.
      apply (above_at_row alpha _ _ _ Hrow) in Habove. congruence.
Qed.

Lemma runs_complete (data : list AnomalyRow) (alpha : Q) :
  forall i s e,
    maximal_run alpha data s e -> i <= s -> In (s, e) (runs data alpha i).
Proof.
  intros i. pattern i. apply (upward_ind (length data)); clear i.
  - intros i Hi s e (Hse & Hall & _) His.
    assert (s < length data) by (apply (above_at_range alpha), Hall; lia).
    lia.
  - intros i Hi IH s e Hrun His.
    pose proof Hrun as (Hse & Hall & Hleft & Hright).
    rewrite runs_eq.
    destruct (nth_error data i) as [row |] eqn:Hrow;
      [| apply nth_error_None in Hrow; lia].
    pose proof (extend_run_ge data alpha i) as Hge.
    pose proof (extend_run_stop data alpha i) as Hstop.
    pose proof (extend_run_above data alpha i) as Hin.
    destruct (above alpha row) eqn:Hab.
    + assert (Hi_above : above_at alpha data i)
        by (apply (above_at_row alpha _ _ _ Hrow); assumption).
      destruct (Nat.eq_dec i s) as [-> | Hne].
      * left. f_equal.
        destruct (Nat.lt_trichotomy (extend_run data alpha s) e)
          as [Hlt | [Heq | Hgt]].
        -- exfalso. apply Hstop, Hall. lia.
        -- assumption.
        -- exfalso. apply Hright, Hin. lia.
      * right. apply IH; [lia | assumption |].
        destruct (Nat.le_gt_cases s (extend_run data alpha i)) as [Hle | Hgt];
          [| lia].
        exfalso. apply (Hleft (s - 1)); [lia |].
        destruct (Nat.eq_dec (s - 1) i) as [-> | Hne']; [assumption |].
        apply Hin. lia.
    + apply IH; [lia | assumption |].
      destruct (Nat.eq_dec i s) as [-> | Hne]; [| lia].
      exfalso. assert (Hs : above_at alpha data s) by (apply Hall; lia).
      apply (above_at_row alpha _ _ _ Hrow) in Hs. congruence.
Qed.

(** The scan visits exactly the maximal runs of the frame. *)
Lemma runs_maximal (data : list AnomalyRow) (alpha : Q) (s e : nat) :
  In (s, e) (runs data alpha 0) <-> maximal_run alpha data s e.
Proof.
  split.
  - apply runs_sound. intros k Hk. lia.
  - intros Hrun. apply runs_complete; [assumption | lia].
Qed.

(** Runs come in ascending order and do not touch. *)
Lemma runs_sorted (data : list AnomalyRow) (alpha : Q) :
  forall i, StronglySorted (fun a b => snd a < fst b) (runs data alpha i).
Proof.
  intros i. pattern i. apply (upward_ind (length data)); clear i.
  - intros i Hi. rewrite runs_eq.
    replace (nth_error data i) with (@None AnomalyRow)
      by (symmetry; apply nth_error_None; assumption).
    constructor.
  - intros i Hi IH. rewrite runs_eq.
    destruct (nth_error data i) as [row |]; [| constructor].
    pose proof (extend_run_ge data alpha i) as Hge.
    destruct (above alpha row).
    + constructor.
      * apply IH. lia.
      * apply Forall_forall. intros [s e] Hin.
        apply runs_bounds in Hin. simpl. lia.
    + apply IH. lia.
Qed.

(** *** Loops that an exception ends *)

Lemma first_of_None {A : Type} (raised : A -> option Uncaught) (l : list A) :
  first_of raised l = None <-> forall x, In x l -> raised x = None.
Proof.
  induction l as [| x rest IH]; simpl.
  - split; [intros _ y [] | reflexivity].
  - destruct (raised x) eqn:Hx.
    + split; [discriminate |]. intros H.
      rewrite (H x) in Hx by (left; reflexivity). discriminate.
    + rewrite IH. split.
      * intros H y [<- | Hy]; [exact Hx | apply H; exact Hy].
      * intros H y Hy. apply H. right. exact Hy.
Qed.

Lemma first_of_Some {A : Type} (raised : A -> option Uncaught) (l : list A)
    (e : Uncaught) :
  first_of raised l = Some e -> exists x, In x l /\ raised x = Some e.
Proof.
  induction l as [| x rest IH]; simpl; [discriminate |].
  destruct (raised x) eqn:Hx.
  - intros H. inversion H; subst. exists x. auto.
  - intros H. destruct (IH H) as (y & Hy & Hr). exists y. auto.
Qed.

Lemma first_of_ext {A : Type} (raised raised' : A -> option Uncaught)
    (l : list A) :
  (forall x, raised x = raised' x) -> first_of raised l = first_of raised' l.
Proof.
  intros Hext. induction l as [| x rest IH]; simpl; [reflexivity |].
  rewrite Hext, IH. reflexivity.
Qed.

Lemma fold_bind_raises {A B : Type} (step : B -> A -> Outcome B)
    (l : list A) (e : Uncaught) :
  fold_left (fun acc x => bind acc (fun b => step b x)) l (Raises e)
  = Raises e.
Proof. induction l as [| x rest IH]; simpl; [reflexivity | exact IH]. Qed.

(** A loop that appends to a list and that an exception ends: it raises
    the first exception of its turns, or holds what the turns append. *)
Lemma fold_bind_spec {A B : Type} (step : list B -> A -> Outcome (list B))
    (raised : A -> option Uncaught) (out : A -> list B) :
  (forall acc x,
      step acc x = match raised x with
                   | Some e => Raises e
                   | None => Done (acc ++ out x)
                   end) ->
  forall l acc,
    fold_left (fun o x => bind o (fun b => step b x)) l (Done acc)
    = match first_of raised l with
      | Some e => Raises e
      | None => Done (acc ++ flat_map out l)
      end.
Proof.
  intros Hstep. induction l as [| x rest IH]; intros acc; simpl.
  - rewrite app_nil_r. reflexivity.
  - rewrite Hstep. destruct (raised x).
    + apply fold_bind_raises.
    + rewrite IH, app_assoc. reflexivity.
Qed.

(** *** The cells of a period *)

Lemma collect_items (t : Z) (sensor_dict : list (string * Q))
    (acc : list SensorAnomaly) :
  fold_left
    (fun acc item =>
       if Qgeb (snd item) 1%Q
       then acc ++ [mkSensorAnomaly t (fst item) (snd item)]
       else acc)
    sensor_dict acc
  = acc ++ map (fun item => mkSensorAnomaly t (fst item) (snd item))
               (filter (fun item => Qgeb (snd item) 1%Q) sensor_dict).
Proof.
  revert acc. induction sensor_dict as [| item rest IH]; intros acc; simpl.
  - rewrite app_nil_r. reflexivity.
  - rewrite IH. destruct (Qgeb (snd item) 1%Q); simpl.
    + rewrite <- app_assoc. reflexivity.
    + reflexivity.
Qed.

Lemma collect_row_spec (acc : list SensorAnomaly) (row : AnomalyRow) :
  collect_row acc row =
  match raised_by row with
  | Some e => Raises e
  | None => Done (acc ++ row_anomalies row)
  end.
Proof.
  unfold collect_row, raised_by, row_anomalies.
  destruct (sensor_anomaly_score row) as [sensor_dict | e | e].
  - rewrite collect_items. reflexivity.
  - rewrite app_nil_r. reflexivity.
  - reflexivity.
Qed.

Lemma collect_sensor_anomalies_spec (period_data : list AnomalyRow) :
  collect_sensor_anomalies period_data =
  match first_raised period_data with
  | Some e => Raises e
  | None => Done (flat_map row_anomalies period_data)
  end.
Proof.
  unfold collect_sensor_anomalies, first_raised.
  rewrite (fold_bind_spec collect_row raised_by row_anomalies collect_row_spec).
  reflexivity.
Qed.

(** The record of a run: the dict stated directly, unless a cell of the
    run raises. *)
Lemma alarm_record_spec (data : list AnomalyRow) (alert_df : list AlertRow)
    (pid : string) (s e : nat) :
  alarm_record data alert_df pid s e =
  match first_raised (iloc_slice data s (e + 1)) with
  | Some x => Raises x
  | None => Done (run_record data alert_df pid s e)
  end.
Proof.
  unfold alarm_record. rewrite collect_sensor_anomalies_spec.
  destruct (first_raised _); reflexivity.
Qed.

(** *** The alarms are the long enough runs, in order *)

Lemma scan_runs (data : list AnomalyRow) (alert_df : list AlertRow)
    (alpha : Q) (beta : Z) (pid : string) :
  forall i alarms,
    scan data alert_df alpha beta pid i alarms =
    match runs_raised data (filter (long_enough data beta)
                                   (runs data alpha i)) with
    | Some x => Raises x
    | None =>
        Done (alarms
              ++ map (fun se => run_record data alert_df pid (fst se) (snd se))
                     (filter (long_enough data beta) (runs data alpha i)))
    end.
Proof.
  intros i. pattern i. apply (upward_ind (length data)); clear i.
  - intros i Hi alarms. rewrite scan_eq, runs_eq.
    replace (nth_error data i) with (@None AnomalyRow)
      by (symmetry; apply nth_error_None; assumption).
    simpl. rewrite app_nil_r. reflexivity.
  - intros i Hi IH alarms. rewrite scan_eq, runs_eq.
    destruct (nth_error data i) as [row |];
      [| simpl; rewrite app_nil_r; reflexivity].
    pose proof (extend_run_ge data alpha i) as Hge.
    destruct (above alpha row).
    + unfold record_run.
      change (Qgeb (duration_of (iloc_time data i)
                      (iloc_time data (extend_run data alpha i)))
                   (inject_Z beta))
        with (long_enough data beta (i, extend_run data alpha i)).
      simpl filter.
      destruct (long_enough data beta (i, extend_run data alpha i)).
      * rewrite alarm_record_spec. unfold runs_raised. simpl first_of.
        destruct (first_raised _); [reflexivity |].
        simpl bind. cbv iota. rewrite IH by lia. unfold runs_raised.
        destruct (first_of _ _); [reflexivity |].
        simpl map. rewrite <- app_assoc. reflexivity.
      * cbv iota. apply IH. lia.
    + apply IH. lia.
Qed.

Lemma product_records_runs (anomaly_df : list AnomalyRow)
    (alert_df : list AlertRow) (alpha : Q) (beta : Z) (pid : string) :
  product_records anomaly_df alert_df alpha beta pid =
  map (fun se => run_record (product_data anomaly_df pid) alert_df pid
                   (fst se) (snd se))
      (filter (long_enough (product_data anomaly_df pid) beta)
              (runs (product_data anomaly_df pid) alpha 0)).
Proof. reflexivity. Qed.

Lemma long_enough_le (data : list AnomalyRow) (beta : Z) (s e : nat) :
  long_enough data beta (s, e) = true <->
  (inject_Z beta <= duration_of (iloc_time data s) (iloc_time data e))%Q.
Proof. unfold long_enough. simpl. apply Qgeb_le. Qed.

(** A listed alarm of a product is the record of a maximal run of its rows
    that lasts long enough, and every such run has its record. *)
Lemma product_records_In (anomaly_df : list AnomalyRow)
    (alert_df : list AlertRow) (alpha : Q) (beta : Z) (pid : string)
    (a : Alarm) :
  In a (product_records anomaly_df alert_df alpha beta pid) <->
  exists s e,
    maximal_run alpha (product_data anomaly_df pid) s e
    /\ (inject_Z beta <=
        duration_of (iloc_time (product_data anomaly_df pid) s)
                    (iloc_time (product_data anomaly_df pid) e))%Q
    /\ a = run_record (product_data anomaly_df pid) alert_df pid s e.
Proof.
  rewrite product_records_runs, in_map_iff. split.
  - intros ([s e] & Ha & Hin). apply filter_In in Hin as [Hin Hlong].
    exists s, e. split; [apply runs_maximal; assumption |].
    split; [apply long_enough_le; assumption | symmetry; exact Ha].
  - intros (s & e & Hrun & Hlong & Ha). exists (s, e).
    split; [symmetry; exact Ha |]. apply filter_In.
    split; [apply runs_maximal; assumption |
            apply long_enough_le; assumption].
Qed.

(** The turn of a product: the exception of its scan, or the records of
    its runs appended to the list. *)
Lemma scan_product_spec (anomaly_df : list AnomalyRow)
    (alert_df : list AlertRow) (alpha : Q) (beta : Z)
    (alarms : list Alarm) (pid : string) :
  scan_product anomaly_df alert_df alpha beta alarms pid =
  match product_raised anomaly_df alpha beta pid with
  | Some x => Raises x
  | None => Done (alarms ++ product_records anomaly_df alert_df alpha beta pid)
  end.
Proof.
  unfold product_records, product_raised, scan_product.
  destruct (length (product_data anomaly_df pid) =? 0) eqn:Hlen.
  - apply Nat.eqb_eq in Hlen. rewrite runs_eq.
    replace (nth_error (product_data anomaly_df pid) 0)
      with (@None AnomalyRow)
      by (symmetry; apply nth_error_None; lia).
    simpl. rewrite app_nil_r. reflexivity.
  - apply scan_runs.
Qed.

Lemma product_alarms_spec (anomaly_df : list AnomalyRow)
    (alert_df : list AlertRow) (alpha : Q) (beta : Z) (pid : string) :
  product_alarms anomaly_df alert_df alpha beta pid =
  match product_raised anomaly_df alpha beta pid with
  | Some x => Raises x
  | None => Done (product_records anomaly_df alert_df alpha beta pid)
  end.
Proof. unfold product_alarms. apply scan_product_spec. Qed.

(** The page: the first exception of its scans, or the records of all
    products. *)
Lemma alarms_spec (anomaly_df : list AnomalyRow) (alert_df : list AlertRow)
    (alpha : Q) (beta : Z) :
  alarms anomaly_df alert_df alpha beta =
  match page_raised anomaly_df alpha beta with
  | Some x => Raises x
  | None => Done (alarm_records anomaly_df alert_df alpha beta)
  end.
Proof.
  unfold alarms, page_raised, alarm_records.
  rewrite (fold_bind_spec
             (fun l pid => scan_product anomaly_df alert_df alpha beta l pid)
             (product_raised anomaly_df alpha beta)
             (product_records anomaly_df alert_df alpha beta)).
  - reflexivity.
  - intros acc pid. apply scan_product_spec.
Qed.

Lemma alarms_Done (anomaly_df : list AnomalyRow) (alert_df : list AlertRow)
    (alpha : Q) (beta : Z) (listed : list Alarm) :
  alarms anomaly_df alert_df alpha beta = Done listed ->
  listed = alarm_records anomaly_df alert_df alpha beta.
Proof.
  rewrite alarms_spec. destruct (page_raised _ _ _); [discriminate |].
  intros H. inversion H. reflexivity.
Qed.

Lemma product_alarms_Done (anomaly_df : list AnomalyRow)
    (alert_df : list AlertRow) (alpha : Q) (beta : Z) (pid : string)
    (listed : list Alarm) :
  product_alarms anomaly_df alert_df alpha beta pid = Done listed ->
  listed = product_records anomaly_df alert_df alpha beta pid.
Proof.
  rewrite product_alarms_spec. destruct (product_raised _ _ _ _);
    [discriminate |].
  intros H. inversion H. reflexivity.
Qed.

Lemma alarm_records_flat_map (anomaly_df : list AnomalyRow)
    (alert_df : list AlertRow) (alpha : Q) (beta : Z) :
  alarm_records anomaly_df alert_df alpha beta =
  flat_map (product_records anomaly_df alert_df alpha beta)
           (sorted_str (unique (map product_id anomaly_df))).
Proof. reflexivity. Qed.

(** *** Reading the sorted rows of a product *)

Lemma iloc_time_nth (data : list AnomalyRow) (k : nat) (row : AnomalyRow) :
  nth_error data k = Some row -> iloc_time data k = time row.
Proof.
  intros Hk. unfold iloc_time.
  apply (nth_error_nth (map time data)). rewrite nth_error_map, Hk.
  reflexivity.
Qed.

Lemma product_data_sorted (anomaly_df : list AnomalyRow) (pid : string) :
  StronglySorted (fun a b => (time a <= time b)%Z)
                 (product_data anomaly_df pid).
Proof. apply sort_values_sorted. Qed.

Lemma product_data_In (anomaly_df : list AnomalyRow) (pid : string)
    (row : AnomalyRow) :
  In row (product_data anomaly_df pid) <->
  In row anomaly_df /\ product_id row = pid.
Proof.
  unfold product_data. split.
  - intros Hin.
    apply (Permutation_in _ (sort_values_perm time _)) in Hin.
    apply filter_In in Hin as [Hin Hpid]. apply String.eqb_eq in Hpid. auto.
  - intros [Hin Hpid].
    apply (Permutation_in _ (Permutation_sym (sort_values_perm time _))).
    apply filter_In. split; [assumption | apply String.eqb_eq; assumption].
Qed.

Lemma iloc_time_le (data : list AnomalyRow) (j k : nat) :
  StronglySorted (fun a b => (time a <= time b)%Z) data ->
  j <= k -> k < length data -> (iloc_time data j <= iloc_time data k)%Z.
Proof.
  intros Hsorted Hjk Hk.
  destruct (nth_error data j) as [a |] eqn:Hj;
    [| apply nth_error_None in Hj; lia].
  destruct (nth_error data k) as [b |] eqn:Hb;
    [| apply nth_error_None in Hb; lia].
  rewrite (iloc_time_nth _ _ _ Hj), (iloc_time_nth _ _ _ Hb).
  destruct (Nat.eq_dec j k) as [-> | Hne].
  - assert (a = b) by congruence. subst. lia.
  - apply (sorted_nth time Z.le data Hsorted j k); [lia | assumption ..].
Qed.

Lemma iloc_time_lt (data : list AnomalyRow) (j k : nat) :
  StronglySorted (fun a b => (time a < time b)%Z) data ->
  j < k -> k < length data -> (iloc_time data j < iloc_time data k)%Z.
Proof.
  intros Hsorted Hjk Hk.
  destruct (nth_error data j) as [a |] eqn:Hj;
    [| apply nth_error_None in Hj; lia].
  destruct (nth_error data k) as [b |] eqn:Hb;
    [| apply nth_error_None in Hb; lia].
  rewrite (iloc_time_nth _ _ _ Hj), (iloc_time_nth _ _ _ Hb).
  apply (sorted_nth time Z.lt data Hsorted j k); [lia | assumption ..].
Qed.

Lemma run_times_ordered (anomaly_df : list AnomalyRow) (pid : string)
    (s e : nat) :
  s <= e < length (product_data anomaly_df pid) ->
  (iloc_time (product_data anomaly_df pid) s
   <= iloc_time (product_data anomaly_df pid) e)%Z.
Proof.
  intros Hse. apply iloc_time_le; [apply product_data_sorted | lia | lia].
Qed.

Lemma maximal_run_range (alpha : Q) (data : list AnomalyRow) (s e : nat) :
  maximal_run alpha data s e -> s <= e /\ e < length data.
Proof.
  intros (Hse & Hall & _). split; [assumption |].
  apply (above_at_range alpha), Hall. lia.
Qed.

(** Every row above the threshold lies in a run the scan visits. *)
Lemma above_in_run (data : list AnomalyRow) (alpha : Q) (k : nat) :
  above_at alpha data k ->
  forall i, i <= k ->
    exists s e, In (s, e) (runs data alpha i) /\ s <= k <= e.
Proof.
  intros Hk i. pattern i. apply (upward_ind (length data)); clear i.
  - intros i Hi Hik. apply above_at_range in Hk. lia.
  - intros i Hi IH Hik. rewrite runs_eq.
    destruct (nth_error data i) as [row |] eqn:Hrow;
      [| apply nth_error_None in Hrow; lia].
    destruct (above alpha row) eqn:Hab.
    + destruct (Nat.le_gt_cases k (extend_run data alpha i)) as [Hle | Hgt].
      * exists i, (extend_run data alpha i). split; [left; reflexivity | lia].
      * destruct (IH (extend_run data alpha i + 1)) as (s & e & Hin & Hse).
        -- pose proof (extend_run_ge data alpha i). lia.
        -- lia.
        -- exists s, e. split; [right; assumption | assumption].
    + destruct (Nat.eq_dec i k) as [-> | Hne].
      * apply (above_at_row alpha _ _ _ Hrow) in Hk. congruence.
      * destruct (IH (i + 1)) as (s & e & Hin & Hse); [lia | lia |].
        exists s, e. auto.
Qed.

(** *** The evidence of a period *)

Lemma row_anomalies_In (row : AnomalyRow) (x : SensorAnomaly) :
  In x (row_anomalies row) <->
  exists sensor_dict sensor score,
    sensor_anomaly_score row = Parsed sensor_dict
    /\ In (sensor, score) sensor_dict
    /\ (1 <= score)%Q
    /\ x = mkSensorAnomaly (time row) sensor score.
Proof.
  unfold row_anomalies. split.
  - destruct (sensor_anomaly_score row) as [sensor_dict | err | err];
      [| intros [] | intros []].
    intros Hin. apply in_map_iff in Hin as ([sensor score] & Hx & Hin).
    apply filter_In in Hin as [Hin Hge]. apply Qgeb_le in Hge.
    exists sensor_dict, sensor, score. simpl in *. auto.
  - intros (sensor_dict & sensor & score & -> & Hin & Hge & ->).
    apply in_map_iff. exists (sensor, score). split; [reflexivity |].
    apply filter_In. split; [assumption | apply Qgeb_le; assumption].
Qed.

Lemma row_anomalies_time (row : AnomalyRow) (x : SensorAnomaly) :
  In x (row_anomalies row) -> sa_time x = time row.
Proof.
  intros Hin. apply row_anomalies_In in Hin
    as (sensor_dict & sensor & score & _ & _ & _ & ->).
  reflexivity.
Qed.

Lemma flat_map_anomalies_sorted (rows : list AnomalyRow) :
  StronglySorted (fun a b => (time a <= time b)%Z) rows ->
  StronglySorted (fun x y => (sa_time x <= sa_time y)%Z)
                 (flat_map row_anomalies rows).
Proof.
  induction 1 as [| row rest Hsorted IH Hall]; simpl.
  - constructor.
  - assert (Hrest : Forall (fun y => (time row <= sa_time y)%Z)
                           (flat_map row_anomalies rest)).
    { apply Forall_forall. intros y Hy.
      apply in_flat_map in Hy as (row' & Hin & Hy).
      rewrite (row_anomalies_time _ _ Hy).
      rewrite Forall_forall in Hall. apply Hall. assumption. }
    assert (Hrow : Forall (fun x => sa_time x = time row) (row_anomalies row)).
    { apply Forall_forall. intros x. apply row_anomalies_time. }
    induction Hrow as [| x xs Hx Hxs IHxs]; simpl.
    + assumption.
    + constructor; [assumption |].
      apply Forall_app. split.
      * eapply Forall_impl; [| exact Hxs]. simpl. intros y Hy. lia.
      * eapply Forall_impl; [| exact Hrest]. simpl. intros y Hy. lia.
Qed.

Lemma iloc_slice_sorted {A : Type} (R : A -> A -> Prop) (df : list A)
    (start stop : nat) :
  StronglySorted R df -> StronglySorted R (iloc_slice df start stop).
Proof.
  intros Hsorted. unfold iloc_slice.
  assert (Hskip : StronglySorted R (skipn start df)).
  { revert df Hsorted. induction start as [| n IH]; intros df Hsorted.
    - assumption.
    - destruct df as [| x rest]; [constructor |]. simpl.
      apply IH. inversion Hsorted. assumption. }
  revert Hskip. generalize (skipn start df) as l. generalize (stop - start).
  induction n as [| n IH]; intros l Hl; simpl.
  - constructor.
  - destruct l as [| x rest]; [constructor |].
    inversion Hl as [| ? ? Hrest Hall]; subst.
    constructor; [apply IH; assumption |].
    rewrite Forall_forall in *. intros y Hy. apply Hall.
    rewrite <- (firstn_skipn n rest). apply in_or_app. left. assumption.
Qed.

Lemma period_alerts_In (alert_df : list AlertRow) (pid : string)
    (t1 t2 : Z) (ev : AlertRow) :
  In ev (period_alerts alert_df pid t1 t2) <->
  In ev alert_df /\ alert_product_id ev = pid
  /\ (t1 <= alert_time ev <= t2)%Z.
Proof.
  unfold period_alerts. rewrite filter_In, !andb_true_iff, String.eqb_eq,
    !Z.leb_le. tauto.
Qed.

End AlarmFacts.

Import AlarmPage AlarmFacts.

(** ** The product ids of the page *)

Lemma unique_In (col : list string) (x : string) :
  In x (unique col) <-> In x col.
Proof.
  induction col as [| y rest IH]; simpl; [tauto |].
  rewrite filter_In, IH, negb_true_iff.
  destruct (String.eqb_spec y x) as [-> | Hne].
  - split; auto.
  - split.
    + intros [Heq | [Hin _]]; auto.
    + intros [Heq | Hin]; auto.
Qed.

Lemma insert_str_perm (x : string) (l : list string) :
  Permutation (insert_str x l) (x :: l).
Proof.
  induction l as [| y rest IH]; simpl.
  - reflexivity.
  - destruct (String.leb y x).
    + rewrite IH. apply perm_swap.
    + reflexivity.
Qed.

Lemma sorted_str_perm (col : list string) : Permutation (sorted_str col) col.
Proof.
  unfold sorted_str. rewrite <- (app_nil_l col) at 2.
  generalize (@nil string).
  induction col as [| x rest IH]; intros acc; simpl.
  - rewrite app_nil_r. reflexivity.
  - rewrite IH, insert_str_perm. apply Permutation_middle.
Qed.

Lemma product_ids_In (anomaly_df : list AnomalyRow) (pid : string) :
  In pid (sorted_str (unique (map product_id anomaly_df))) <->
  exists row, In row anomaly_df /\ product_id row = pid.
Proof.
  split.
  - intros Hin. apply (Permutation_in _ (sorted_str_perm _)) in Hin.
    apply unique_In, in_map_iff in Hin as (row & Hpid & Hin). eauto.
  - intros (row & Hin & Hpid).
    apply (Permutation_in _ (Permutation_sym (sorted_str_perm _))).
    apply unique_In, in_map_iff. eauto.
Qed.

Lemma product_records_unknown (anomaly_df : list AnomalyRow)
    (alert_df : list AlertRow) (alpha : Q) (beta : Z) (pid : string) :
  (forall row, In row anomaly_df -> product_id row <> pid) ->
  product_records anomaly_df alert_df alpha beta pid = [].
Proof.
  intros Hnone. unfold product_records.
  destruct (product_data anomaly_df pid) as [| row rest] eqn:Hdata.
  - reflexivity.
  - exfalso. assert (Hin : In row (product_data anomaly_df pid))
      by (rewrite Hdata; left; reflexivity).
    apply product_data_In in Hin as [Hin Hpid]. apply (Hnone row); assumption.
Qed.

(** An alarm is on the page exactly when it is an alarm of some product. *)
Lemma alarm_records_In (anomaly_df : list AnomalyRow) (alert_df : list AlertRow)
    (alpha : Q) (beta : Z) (a : Alarm) :
  In a (alarm_records anomaly_df alert_df alpha beta) <->
  exists pid, In a (product_records anomaly_df alert_df alpha beta pid).
Proof.
  rewrite alarm_records_flat_map, in_flat_map. split.
  - intros (pid & _ & Hin). eauto.
  - intros (pid & Hin). exists pid. split; [| assumption].
    apply product_ids_In.
    destruct (product_data anomaly_df pid) as [| row rest] eqn:Hdata.
    + unfold product_records, scan_product in Hin. rewrite Hdata in Hin.
      destruct Hin.
    + exists row. apply product_data_In. rewrite Hdata. left. reflexivity.
Qed.

(** ** The cells that end the page *)

Lemma raised_by_Unhandled (row : AnomalyRow) (x : Uncaught) :
  raised_by row = Some x <-> sensor_anomaly_score row = Unhandled x.
Proof.
  unfold raised_by. destruct (sensor_anomaly_score row);
    split; intros H; try discriminate; inversion H; reflexivity.
Qed.

Lemma raised_by_None (row : AnomalyRow) :
  raised_by row = None <-> forall x, sensor_anomaly_score row <> Unhandled x.
Proof.
  unfold raised_by. destruct (sensor_anomaly_score row); split; intros H;
    try reflexivity; try discriminate; try (intros x; discriminate).
  exfalso. apply (H e). reflexivity.
Qed.

(** The scan of a product raises exactly the exception of a cell in a run
    that lasts long enough. *)
Lemma product_raised_Some (anomaly_df : list AnomalyRow) (alpha : Q)
    (beta : Z) (pid : string) (x : Uncaught) :
  product_raised anomaly_df alpha beta pid = Some x ->
  exists s e k row,
    maximal_run alpha (product_data anomaly_df pid) s e
    /\ (inject_Z beta <=
        duration_of (iloc_time (product_data anomaly_df pid) s)
                    (iloc_time (product_data anomaly_df pid) e))%Q
    /\ s <= k <= e
    /\ nth_error (product_data anomaly_df pid) k = Some row
    /\ sensor_anomaly_score row = Unhandled x.
Proof.
  unfold product_raised, runs_raised. intros H.
  apply first_of_Some in H as ([s e] & Hin & Hraised).
  apply filter_In in Hin as [Hin Hlong]. cbn [fst snd] in Hraised.
  apply first_of_Some in Hraised as (row & Hrow & Hx).
  apply iloc_slice_In in Hrow as (k & Hk & Hrow).
  exists s, e, k, row. split; [apply runs_maximal; exact Hin |].
  split; [apply long_enough_le; exact Hlong |].
  split; [lia |]. split; [exact Hrow | apply raised_by_Unhandled; exact Hx].
Qed.

Lemma product_raised_None (anomaly_df : list AnomalyRow) (alpha : Q)
    (beta : Z) (pid : string) :
  product_raised anomaly_df alpha beta pid = None <->
  forall s e k row,
    maximal_run alpha (product_data anomaly_df pid) s e ->
    (inject_Z beta <=
     duration_of (iloc_time (product_data anomaly_df pid) s)
                 (iloc_time (product_data anomaly_df pid) e))%Q ->
    s <= k <= e ->
    nth_error (product_data anomaly_df pid) k = Some row ->
    raised_by row = None.
Proof.
  unfold product_raised, runs_raised. rewrite first_of_None. split.
  - intros H s e k row Hrun Hlong Hk Hrow.
    assert (Hin : In (s, e)
                     (filter (long_enough (product_data anomaly_df pid) beta)
                             (runs (product_data anomaly_df pid) alpha 0))).
    { apply filter_In. split; [apply runs_maximal; exact Hrun |].
      apply long_enough_le; exact Hlong. }
    specialize (H (s, e) Hin). cbn [fst snd] in H.
    unfold first_raised in H. rewrite first_of_None in H. apply H.
    apply iloc_slice_In. exists k. split; [lia | exact Hrow].
  - intros H [s e] Hin. apply filter_In in Hin as [Hin Hlong].
    cbn [fst snd]. apply first_of_None. intros row Hrow.
    apply iloc_slice_In in Hrow as (k & Hk & Hrow).
    apply (H s e k row); [apply runs_maximal; exact Hin | | lia | exact Hrow].
    apply long_enough_le. exact Hlong.
Qed.

Lemma product_raised_unknown (anomaly_df : list AnomalyRow) (alpha : Q)
    (beta : Z) (pid : string) :
  product_data anomaly_df pid = [] ->
  product_raised anomaly_df alpha beta pid = None.
Proof.
  intros Hdata. apply product_raised_None. intros s e k row _ _ _ Hrow.
  rewrite Hdata in Hrow. destruct k; discriminate.
Qed.

Lemma page_raised_None (anomaly_df : list AnomalyRow) (alpha : Q)
    (beta : Z) :
  page_raised anomaly_df alpha beta = None <->
  forall pid, product_raised anomaly_df alpha beta pid = None.
Proof.
  unfold page_raised. rewrite first_of_None. split.
  - intros H pid.
    destruct (product_data anomaly_df pid) as [| row rest] eqn:Hdata;
      [apply product_raised_unknown; exact Hdata |].
    apply H, product_ids_In. exists row. apply product_data_In.
    rewrite Hdata. left. reflexivity.
  - intros H pid _. apply H.
Qed.

Lemma page_raised_Some (anomaly_df : list AnomalyRow) (alpha : Q)
    (beta : Z) (x : Uncaught) :
  page_raised anomaly_df alpha beta = Some x ->
  exists pid, product_raised anomaly_df alpha beta pid = Some x.
Proof.
  unfold page_raised. intros H.
  apply first_of_Some in H as (pid & _ & Hx). eauto.
Qed.

(** A frame without a cell that raises is scanned to the end. *)
Lemma page_raised_handled (anomaly_df : list AnomalyRow) (alpha : Q)
    (beta : Z) :
  (forall row, In row anomaly_df -> raised_by row = None) ->
  page_raised anomaly_df alpha beta = None.
Proof.
  intros Hall. apply page_raised_None. intros pid.
  apply product_raised_None. intros s e k row _ _ _ Hrow.
  apply Hall. apply nth_error_In, product_data_In in Hrow. apply Hrow.
Qed.

Lemma alarms_Done_iff (anomaly_df : list AnomalyRow)
    (alert_df : list AlertRow) (alpha : Q) (beta : Z)
    (listed : list Alarm) :
  alarms anomaly_df alert_df alpha beta = Done listed <->
  page_raised anomaly_df alpha beta = None
  /\ listed = alarm_records anomaly_df alert_df alpha beta.
Proof.
  rewrite alarms_spec. destruct (page_raised _ _ _); split.
  - discriminate.
  - intros [H _]. discriminate.
  - intros H. inversion H. auto.
  - intros [_ ->]. reflexivity.
Qed.

Lemma product_alarms_Done_iff (anomaly_df : list AnomalyRow)
    (alert_df : list AlertRow) (alpha : Q) (beta : Z) (pid : string)
    (listed : list Alarm) :
  product_alarms anomaly_df alert_df alpha beta pid = Done listed <->
  product_raised anomaly_df alpha beta pid = None
  /\ listed = product_records anomaly_df alert_df alpha beta pid.
Proof.
  rewrite product_alarms_spec. destruct (product_raised _ _ _ _); split.
  - discriminate.
  - intros [H _]. discriminate.
  - intros H. inversion H. auto.
  - intros [_ ->]. reflexivity.
Qed.

(** ** The alarm scan: runs, durations, invariants *)

Lemma run_record_times (data : list AnomalyRow) (alert_df : list AlertRow)
    (pid : string) (s e : nat) :
  start_time (run_record data alert_df pid s e) = iloc_time data s
  /\ end_time (run_record data alert_df pid s e) = iloc_time data e
  /\ duration_minutes (run_record data alert_df pid s e) =
     duration_of (iloc_time data s) (iloc_time data e).
Proof. repeat split. Qed.

Lemma iloc_slice_length {A : Type} (df : list A) (start stop : nat) :
  start <= stop -> stop <= length df ->
  length (iloc_slice df start stop) = stop - start.
Proof.
  intros H1 H2. unfold iloc_slice. rewrite length_firstn, length_skipn. lia.
Qed.

(** C1, as amended: the duration of an alarm is the time from the first to
    the last row of its run, in minutes, plus the constant 2; the added
    term is the same for every series, whatever the gaps between its
    timestamps. *)
Theorem duration_adds_two_minutes :
  forall (anomaly_df : list AnomalyRow) (alert_df : list AlertRow)
         (alpha : Q) (beta : Z) (pid : string)
         (listed : list Alarm) (a : Alarm),
    product_alarms anomaly_df alert_df alpha beta pid = Done listed ->
    In a listed ->
    exists s e,
      maximal_run alpha (product_data anomaly_df pid) s e
      /\ start_time a = iloc_time (product_data anomaly_df pid) s
      /\ end_time a = iloc_time (product_data anomaly_df pid) e
      /\ (duration_minutes a ==
          inject_Z (end_time a - start_time a) / 60 + 2)%Q.
Proof.
  intros anomaly_df alert_df alpha beta pid listed a Hdone Hin.
  apply product_alarms_Done in Hdone. subst listed.
  apply product_records_In in Hin as (s & e & Hrun & _ & ->).
  exists s, e. split; [assumption |].
  split; [reflexivity |]. split; [reflexivity |].
  simpl. unfold duration_of. reflexivity.
Qed.

Lemma duration_adds_two_minutes_witness :
  product_alarms Samples.scenario_a [] 1%Q 4 "D1"
  = Done [run_record (product_data Samples.scenario_a "D1") [] "D1" 2 4]
  /\ exists s e,
      maximal_run 1%Q (product_data Samples.scenario_a "D1") s e
      /\ start_time
           (run_record (product_data Samples.scenario_a "D1") [] "D1" 2 4) =
         iloc_time (product_data Samples.scenario_a "D1") s
      /\ end_time
           (run_record (product_data Samples.scenario_a "D1") [] "D1" 2 4) =
         iloc_time (product_data Samples.scenario_a "D1") e
      /\ (duration_minutes
            (run_record (product_data Samples.scenario_a "D1") [] "D1" 2 4)
          == inject_Z
               (end_time
                  (run_record (product_data Samples.scenario_a "D1") []
                     "D1" 2 4)
                - start_time
                    (run_record (product_data Samples.scenario_a "D1") []
                       "D1" 2 4)) / 60 + 2)%Q.
Proof.
  assert (Hdone : product_alarms Samples.scenario_a [] 1%Q 4 "D1"
                  = Done [run_record (product_data Samples.scenario_a "D1")
                            [] "D1" 2 4])
    by (vm_compute; reflexivity).
  split; [exact Hdone |].
  exact (duration_adds_two_minutes Samples.scenario_a [] 1%Q 4 "D1" _ _
           Hdone (or_introl eq_refl)).
Defined.

(** C1, as stated, fails: on a series with a row every minute the scan
    reports 4 minutes for the run of three rows, while the timestamps give
    a sample interval of 60 seconds and a duration of 180 seconds. *)
Lemma duration_not_from_series :
  exists a,
    product_alarms Samples.every_minute [] 1%Q 2 "D1" = Done [a]
    /\ Spec.nominal_sample_interval
         (map time (product_data Samples.every_minute "D1")) = Some 60%Z
    /\ Spec.duration (map time (product_data Samples.every_minute "D1")) 0 2
       = Some 180%Z
    /\ (duration_minutes a * 60 == 240)%Q
    /\ ~ (duration_minutes a * 60 == inject_Z 180)%Q.
Proof.
  eexists. split; [vm_compute; reflexivity |].
  split; [reflexivity |]. split; [reflexivity |].
  split; [reflexivity | discriminate].
Qed.

(** C9: every alarm of a product is the record of a run [s .. e] of its
    time-ordered rows with at least one row, its start is not after its
    end, every row of the run has a score above [alpha], and [max_score]
    is the largest score of the run, hence above [alpha] too. *)
Theorem alarm_invariants :
  forall (anomaly_df : list AnomalyRow) (alert_df : list AlertRow)
         (alpha : Q) (beta : Z) (pid : string)
         (listed : list Alarm) (a : Alarm),
    product_alarms anomaly_df alert_df alpha beta pid = Done listed ->
    In a listed ->
    exists s e,
      a = run_record (product_data anomaly_df pid) alert_df pid s e
      /\ s <= e < length (product_data anomaly_df pid)
      /\ length (iloc_slice (product_data anomaly_df pid) s (e + 1))
         = e - s + 1
      /\ (start_time a <= end_time a)%Z
      /\ (forall k row,
            s <= k <= e ->
            nth_error (product_data anomaly_df pid) k = Some row ->
            (alpha < product_anomaly_score row)%Q)
      /\ exists m,
          max_score a = Some m
          /\ (alpha < m)%Q
          /\ (exists row,
                In row (iloc_slice (product_data anomaly_df pid) s (e + 1))
                /\ product_anomaly_score row = m)
          /\ (forall row,
                In row (iloc_slice (product_data anomaly_df pid) s (e + 1)) ->
                (product_anomaly_score row <= m)%Q).
Proof.
  intros anomaly_df alert_df alpha beta pid listed a Hdone Hin.
  apply product_alarms_Done in Hdone. subst listed.
  apply product_records_In in Hin as (s & e & Hrun & _ & ->).
  set (data := product_data anomaly_df pid) in *.
  pose proof (maximal_run_range _ _ _ _ Hrun) as [Hse He].
  destruct Hrun as (_ & Hall & _).
  assert (Hlen : length (iloc_slice data s (e + 1)) = e - s + 1)
    by (rewrite iloc_slice_length; lia).
  assert (Hrows : forall k row, s <= k <= e -> nth_error data k = Some row ->
                                (alpha < product_anomaly_score row)%Q).
  { intros k row Hk Hrow. destruct (Hall k Hk) as (row' & Hrow' & Hlt).
    congruence. }
  exists s, e. split; [reflexivity |]. split; [lia |].
  split; [assumption |].
  split; [apply run_times_ordered; fold data; lia |].
  split; [assumption |].
  destruct (col_max_spec
              (map product_anomaly_score (iloc_slice data s (e + 1))))
    as (m & Hm & Hin & Hmax).
  { intros Hnil. apply (f_equal (@length Q)) in Hnil.
    rewrite length_map, Hlen in Hnil. simpl in Hnil. lia. }
  apply in_map_iff in Hin as (row & Hscore & Hin).
  exists m. split; [exact Hm |]. split.
  - apply iloc_slice_In in Hin as (k & Hk & Hrow). rewrite <- Hscore.
    apply (Hrows k); [lia | assumption].
  - split; [exists row; auto |].
    intros row' Hin'. apply Hmax, in_map. assumption.
Qed.

Lemma alarm_invariants_witness :
  product_alarms Samples.scenario_a [] 1%Q 4 "D1"
  = Done [run_record (product_data Samples.scenario_a "D1") [] "D1" 2 4]
  /\ max_score (run_record (product_data Samples.scenario_a "D1") []
                  "D1" 2 4) = Some 1.6%Q
  /\ exists s e,
      run_record (product_data Samples.scenario_a "D1") [] "D1" 2 4 =
      run_record (product_data Samples.scenario_a "D1") [] "D1" s e
      /\ s <= e < length (product_data Samples.scenario_a "D1").
Proof.
  assert (Hdone : product_alarms Samples.scenario_a [] 1%Q 4 "D1"
                  = Done [run_record (product_data Samples.scenario_a "D1")
                            [] "D1" 2 4])
    by (vm_compute; reflexivity).
  split; [exact Hdone |]. split; [reflexivity |].
  destruct (alarm_invariants Samples.scenario_a [] 1%Q 4 "D1" _ _ Hdone
              (or_introl eq_refl))
    as (s & e & Ha & Hse & _).
  exists s, e. split; assumption.
Defined.

(** C3: a row lies in a run of the scan exactly when its score is strictly
    greater than [alpha], so a row whose score equals [alpha] lies in no
    run; the alarm of a run is in the list exactly when the duration of the
    run is at least [beta]; and a run without an alarm is shorter than
    [beta]. *)
Theorem threshold_strict_duration_inclusive :
  forall (anomaly_df : list AnomalyRow) (alert_df : list AlertRow)
         (alpha : Q) (beta : Z) (pid : string) (listed : list Alarm),
    product_alarms anomaly_df alert_df alpha beta pid = Done listed ->
    (forall k row,
        nth_error (product_data anomaly_df pid) k = Some row ->
        ((exists s e, maximal_run alpha (product_data anomaly_df pid) s e
                      /\ s <= k <= e)
         <-> (alpha < product_anomaly_score row)%Q))
    /\ (forall k row,
          nth_error (product_data anomaly_df pid) k = Some row ->
          (product_anomaly_score row == alpha)%Q ->
          ~ exists s e, maximal_run alpha (product_data anomaly_df pid) s e
                        /\ s <= k <= e)
    /\ (forall s e,
          maximal_run alpha (product_data anomaly_df pid) s e ->
          (In (run_record (product_data anomaly_df pid) alert_df pid s e)
              listed
           <-> (inject_Z beta <=
                duration_minutes
                  (run_record (product_data anomaly_df pid) alert_df pid
                     s e))%Q))
    /\ (forall s e,
          maximal_run alpha (product_data anomaly_df pid) s e ->
          ~ In (run_record (product_data anomaly_df pid) alert_df pid s e)
               listed ->
          (duration_minutes
             (run_record (product_data anomaly_df pid) alert_df pid s e)
           < inject_Z beta)%Q).
Proof.
  intros anomaly_df alert_df alpha beta pid listed Hdone.
  apply product_alarms_Done in Hdone. subst listed.
  set (data := product_data anomaly_df pid).
  assert (Hpoint : forall k row,
             nth_error data k = Some row ->
             ((exists s e, maximal_run alpha data s e /\ s <= k <= e)
              <-> (alpha < product_anomaly_score row)%Q)).
  { intros k row Hrow. split.
    - intros (s & e & (_ & Hall & _) & Hk).
      destruct (Hall k Hk) as (row' & Hrow' & Hlt). congruence.
    - intros Hlt.
      destruct (above_in_run data alpha k) with (i := 0)
        as (s & e & Hin & Hk); [exists row; auto | lia |].
      exists s, e. split; [apply runs_maximal; assumption | assumption]. }
  assert (Hemit : forall s e,
             maximal_run alpha data s e ->
             (In (run_record data alert_df pid s e)
                 (product_records anomaly_df alert_df alpha beta pid)
              <-> (inject_Z beta <=
                   duration_minutes (run_record data alert_df pid s e))%Q)).
  { intros s e Hrun. rewrite product_records_In. split.
    - intros (s' & e' & _ & Hlong & Heq). rewrite Heq. exact Hlong.
    - intros Hlong. exists s, e. auto. }
  split; [exact Hpoint |]. split.
  - intros k row Hrow Heq Hrun. apply (Hpoint k row Hrow) in Hrun.
    rewrite Heq in Hrun. apply (Qlt_irrefl alpha). assumption.
  - split; [exact Hemit |].
    intros s e Hrun Hnot. apply Qnot_le_lt. intros Hle.
    apply Hnot, Hemit; assumption.
Qed.

Lemma threshold_strict_duration_inclusive_witness :
  product_alarms Samples.scenario_a [] 1%Q 4 "D1"
  = Done [run_record (product_data Samples.scenario_a "D1") [] "D1" 2 4]
  /\ product_alarms Samples.scenario_a [] 1%Q 8 "D1" = Done []
  /\ maximal_run 1%Q (product_data Samples.scenario_a "D1") 2 4
  /\ (inject_Z 4 <=
      duration_minutes
        (run_record (product_data Samples.scenario_a "D1") [] "D1" 2 4))%Q
  /\ (duration_minutes
        (run_record (product_data Samples.scenario_a "D1") [] "D1" 2 4)
      < inject_Z 8)%Q.
Proof.
  assert (Hdone : product_alarms Samples.scenario_a [] 1%Q 4 "D1"
                  = Done [run_record (product_data Samples.scenario_a "D1")
                            [] "D1" 2 4])
    by (vm_compute; reflexivity).
  assert (Hnone : product_alarms Samples.scenario_a [] 1%Q 8 "D1" = Done [])
    by (vm_compute; reflexivity).
  assert (Hrun : maximal_run 1%Q (product_data Samples.scenario_a "D1") 2 4).
  { apply runs_maximal. vm_compute. left. reflexivity. }
  destruct (threshold_strict_duration_inclusive
              Samples.scenario_a [] 1%Q 4 "D1" _ Hdone)
    as (_ & _ & Hemit & _).
  destruct (threshold_strict_duration_inclusive
              Samples.scenario_a [] 1%Q 8 "D1" _ Hnone)
    as (_ & _ & _ & Homit).
  split; [exact Hdone |]. split; [exact Hnone |]. split; [exact Hrun |].
  split.
  - apply Hemit; [exact Hrun |]. left. reflexivity.
  - apply Homit; [exact Hrun |]. intros [].
Defined.

(** Scenarios A and B: one alarm from 240 s to 480 s lasting 6 minutes with
    a maximum of 1.6 when [beta] is 4, none when [beta] is 8. *)
Example scenario_a_alarm :
  alarms Samples.scenario_a [] 1%Q 4 =
  Done [run_record (product_data Samples.scenario_a "D1") [] "D1" 2 4]
  /\ runs (product_data Samples.scenario_a "D1") 1%Q 0 = [(2, 4)]
  /\ (duration_minutes
        (run_record (product_data Samples.scenario_a "D1") [] "D1" 2 4)
      == 6)%Q
  /\ max_score
       (run_record (product_data Samples.scenario_a "D1") [] "D1" 2 4)
     = Some 1.6%Q.
Proof. repeat split. Qed.

Example scenario_b_no_alarm :
  alarms Samples.scenario_a [] 1%Q 8 = Done [].
Proof. reflexivity. Qed.

(** A row whose score equals the threshold does not start a run. *)
Example at_threshold_not_above :
  alarms [Samples.row 0 "D1" 1.0%Q; Samples.row 120 "D1" 1.0%Q] [] 1%Q 2
  = Done [].
Proof. reflexivity. Qed.

(** C4: every alarm is the record of a maximal run of rows above [alpha];
    when every row of a non-empty series is above [alpha] the only maximal
    run is the whole series; and, the timestamps of the product being
    distinct, an alarm that comes earlier in the list ends before a later
    one starts (and never after it starts, whatever the timestamps). *)
Theorem runs_maximal_and_disjoint :
  forall (anomaly_df : list AnomalyRow) (alert_df : list AlertRow)
         (alpha : Q) (beta : Z) (pid : string) (listed : list Alarm),
    product_alarms anomaly_df alert_df alpha beta pid = Done listed ->
    (forall a,
        In a listed ->
        exists s e,
          maximal_run alpha (product_data anomaly_df pid) s e
          /\ a = run_record (product_data anomaly_df pid) alert_df pid s e)
    /\ (product_data anomaly_df pid <> [] ->
        (forall row, In row (product_data anomaly_df pid) ->
                     (alpha < product_anomaly_score row)%Q) ->
        forall s e,
          maximal_run alpha (product_data anomaly_df pid) s e <->
          s = 0 /\ e = length (product_data anomaly_df pid) - 1)
    /\ (NoDup (map time
                  (filter (fun row => String.eqb (product_id row) pid)
                          anomaly_df)) ->
        forall i j a b,
          i < j ->
          nth_error listed i = Some a ->
          nth_error listed j = Some b ->
          (start_time a <= end_time a)%Z
          /\ (end_time a < start_time b)%Z)
    /\ (forall i j a b,
          i < j ->
          nth_error listed i = Some a ->
          nth_error listed j = Some b ->
          (end_time a <= start_time b)%Z).
Proof.
  intros anomaly_df alert_df alpha beta pid listed Hdone.
  apply product_alarms_Done in Hdone. subst listed.
  set (data := product_data anomaly_df pid).
  split; [| split; [| split]].
  - intros a Hin. apply product_records_In in Hin as (s & e & Hrun & _ & Ha).
    exists s, e. auto.
  - intros Hne Hall s e.
    assert (Habove : forall k, k < length data -> above_at alpha data k).
    { intros k Hk. destruct (nth_error data k) as [row |] eqn:Hrow;
        [| apply nth_error_None in Hrow; lia].
      exists row. split; [exact Hrow |].
      apply Hall. eapply nth_error_In. eassumption. }
    assert (Hlen : 0 < length data)
      by (destruct data; [congruence | simpl; lia]).
    split.
    + intros Hrun. pose proof (maximal_run_range _ _ _ _ Hrun) as [Hse He].
      destruct Hrun as (_ & _ & Hleft & Hright). split.
      * destruct s as [| s]; [reflexivity |]. exfalso.
        apply (Hleft s); [lia |]. apply Habove. lia.
      * destruct (Nat.eq_dec (e + 1) (length data)) as [Heq | Hneq]; [lia |].
        exfalso. apply Hright, Habove. lia.
    + intros [-> ->]. repeat split.
      * lia.
      * intros k Hk. apply Habove. lia.
      * intros k Hk. lia.
      * intros Hlast. apply above_at_range in Hlast. lia.
  - intros Hnd i j a b Hij Ha Hb.
    assert (Hstrict : StronglySorted (fun x y => (time x < time y)%Z) data)
      by (apply sort_values_strict; assumption).
    split.
    + apply nth_error_In, product_records_In in Ha
        as (s & e & Hrun & _ & ->).
      apply run_times_ordered, maximal_run_range with (alpha := alpha).
      exact Hrun.
    + rewrite product_records_runs in Ha, Hb. fold data in Ha, Hb.
      revert Ha Hb.
      apply (strongly_sorted_nth
               (fun x y : Alarm => (end_time x < start_time y)%Z));
        [| assumption].
      apply (strongly_sorted_map_filter (fun x y => snd x < fst y)).
      * apply runs_sorted.
      * intros [s1 e1] [s2 e2] _ H2 Hlt. simpl in *.
        apply runs_maximal, maximal_run_range in H2.
        apply iloc_time_lt; [assumption | lia | lia].
  - intros i j a b Hij Ha Hb.
    rewrite product_records_runs in Ha, Hb. fold data in Ha, Hb.
    revert Ha Hb.
    apply (strongly_sorted_nth
             (fun x y : Alarm => (end_time x <= start_time y)%Z));
      [| assumption].
    apply (strongly_sorted_map_filter (fun x y => snd x < fst y)).
    + apply runs_sorted.
    + intros [s1 e1] [s2 e2] _ H2 Hlt. simpl in *.
      apply runs_maximal, maximal_run_range in H2.
      apply iloc_time_le; [apply product_data_sorted | lia | lia].
Qed.

Lemma runs_maximal_and_disjoint_witness :
  product_alarms Samples.two_runs [] 1%Q 2 "D1"
  = Done [run_record (product_data Samples.two_runs "D1") [] "D1" 0 1;
          run_record (product_data Samples.two_runs "D1") [] "D1" 3 3]
  /\ NoDup (map time
              (filter (fun row => String.eqb (product_id row) "D1")
                      Samples.two_runs))
  /\ forall a b,
      nth_error
        [run_record (product_data Samples.two_runs "D1") [] "D1" 0 1;
         run_record (product_data Samples.two_runs "D1") [] "D1" 3 3] 0
      = Some a ->
      nth_error
        [run_record (product_data Samples.two_runs "D1") [] "D1" 0 1;
         run_record (product_data Samples.two_runs "D1") [] "D1" 3 3] 1
      = Some b ->
      (start_time a <= end_time a)%Z /\ (end_time a < start_time b)%Z.
Proof.
  assert (Hdone : product_alarms Samples.two_runs [] 1%Q 2 "D1"
                  = Done [run_record (product_data Samples.two_runs "D1") []
                            "D1" 0 1;
                          run_record (product_data Samples.two_runs "D1") []
                            "D1" 3 3])
    by (vm_compute; reflexivity).
  assert (Hnd : NoDup (map time
                         (filter (fun row => String.eqb (product_id row) "D1")
                                 Samples.two_runs))).
  { vm_compute. repeat constructor; simpl; intuition discriminate. }
  split; [exact Hdone |]. split; [exact Hnd |].
  intros a b.
  destruct (runs_maximal_and_disjoint Samples.two_runs [] 1%Q 2 "D1" _ Hdone)
    as (_ & _ & Hsep & _).
  apply (Hsep Hnd 0 1). lia.
Defined.

(** Scenario C: two runs separated by a row below the threshold give two
    alarms in time order. *)
Example scenario_c_two_alarms :
  alarms Samples.two_runs [] 1%Q 2
  = Done (alarm_records Samples.two_runs [] 1%Q 2)
  /\ map (fun a => (start_time a, end_time a))
         (alarm_records Samples.two_runs [] 1%Q 2)
     = [(0, 120); (360, 360)]%Z.
Proof. split; reflexivity. Qed.

(** ** The evidence of an alarm *)

(** C6: the [sensor_anomalies] of an alarm are, row by row in the time
    order of the run, the items of each row's dict whose score is at least
    1.0, so an entry is in the list exactly when it comes from such an
    item; the entries are in ascending time order; and the [alerts] are the
    alert rows of the product whose time lies between [start_time] and
    [end_time], both included. *)
Theorem evidence_of_alarm :
  forall (anomaly_df : list AnomalyRow) (alert_df : list AlertRow)
         (alpha : Q) (beta : Z) (pid : string)
         (listed : list Alarm) (a : Alarm),
    product_alarms anomaly_df alert_df alpha beta pid = Done listed ->
    In a listed ->
    exists s e,
      maximal_run alpha (product_data anomaly_df pid) s e
      /\ a = run_record (product_data anomaly_df pid) alert_df pid s e
      /\ sensor_anomalies a =
         flat_map row_anomalies
                  (iloc_slice (product_data anomaly_df pid) s (e + 1))
      /\ (forall x,
            In x (sensor_anomalies a) <->
            exists k row sensor_dict sensor score,
              s <= k <= e
              /\ nth_error (product_data anomaly_df pid) k = Some row
              /\ sensor_anomaly_score row = Parsed sensor_dict
              /\ In (sensor, score) sensor_dict
              /\ (1 <= score)%Q
              /\ x = mkSensorAnomaly (time row) sensor score)
      /\ StronglySorted (fun x y => (sa_time x <= sa_time y)%Z)
                        (sensor_anomalies a)
      /\ alerts a =
         filter (fun ev => String.eqb (alert_product_id ev) pid
                           && (start_time a <=? alert_time ev)%Z
                           && (alert_time ev <=? end_time a)%Z)
                alert_df
      /\ (forall ev,
            In ev (alerts a) <->
            In ev alert_df /\ alert_product_id ev = pid
            /\ (start_time a <= alert_time ev <= end_time a)%Z).
Proof.
  intros anomaly_df alert_df alpha beta pid listed a Hdone Hin.
  apply product_alarms_Done in Hdone. subst listed.
  apply product_records_In in Hin as (s & e & Hrun & _ & ->).
  set (data := product_data anomaly_df pid) in *.
  exists s, e. split; [assumption |]. split; [reflexivity |].
  assert (Hsa : sensor_anomalies (run_record data alert_df pid s e) =
                flat_map row_anomalies (iloc_slice data s (e + 1)))
    by reflexivity.
  split; [exact Hsa |]. split; [| split; [| split]].
  - intros x. rewrite Hsa, in_flat_map. split.
    + intros (row & Hrow & Hx). apply iloc_slice_In in Hrow as (k & Hk & Hrow).
      apply row_anomalies_In in Hx
        as (sensor_dict & sensor & score & Hd & Hin & Hge & ->).
      exists k, row, sensor_dict, sensor, score.
      repeat split; try assumption; lia.
    + intros (k & row & sensor_dict & sensor & score
              & Hk & Hrow & Hd & Hin & Hge & ->).
      exists row. split.
      * apply iloc_slice_In. exists k. split; [lia | assumption].
      * apply row_anomalies_In. exists sensor_dict, sensor, score. auto.
  - rewrite Hsa. apply flat_map_anomalies_sorted, iloc_slice_sorted.
    apply product_data_sorted.
  - reflexivity.
  - intros ev. apply period_alerts_In.
Qed.

Lemma evidence_of_alarm_witness :
  product_alarms Samples.scenario_a Samples.sample_alerts 1%Q 4 "D1"
  = Done [run_record (product_data Samples.scenario_a "D1")
            Samples.sample_alerts "D1" 2 4]
  /\ In (mkAlertRow 240 "D1" "오버 히팅")
        (alerts (run_record (product_data Samples.scenario_a "D1")
                   Samples.sample_alerts "D1" 2 4))
  /\ In (mkAlertRow 480 "D1" "스톨")
        (alerts (run_record (product_data Samples.scenario_a "D1")
                   Samples.sample_alerts "D1" 2 4))
  /\ In (mkSensorAnomaly 360 "temperature-sensor" 1.6%Q)
        (sensor_anomalies
           (run_record (product_data Samples.scenario_a "D1")
              Samples.sample_alerts "D1" 2 4)).
Proof.
  assert (Hdone : product_alarms Samples.scenario_a Samples.sample_alerts
                    1%Q 4 "D1"
                  = Done [run_record (product_data Samples.scenario_a "D1")
                            Samples.sample_alerts "D1" 2 4])
    by (vm_compute; reflexivity).
  destruct (evidence_of_alarm Samples.scenario_a Samples.sample_alerts
              1%Q 4 "D1" _ _ Hdone (or_introl eq_refl))
    as (s & e & _ & _ & _ & _ & _ & _ & Hev).
  split; [exact Hdone |]. split; [| split].
  - apply Hev. split; [simpl; tauto |]. split; [reflexivity |].
    vm_compute. split; discriminate.
  - apply Hev. split; [simpl; tauto |]. split; [reflexivity |].
    vm_compute. split; discriminate.
  - vm_compute. right. left. reflexivity.
Defined.

(** The alerts of scenario A's alarm: the rows of D1 at 240 s and 480 s,
    the two ends of the period, and none from outside it or from D2. *)
Example scenario_a_alerts :
  alerts (run_record (product_data Samples.scenario_a "D1")
            Samples.sample_alerts "D1" 2 4)
  = [mkAlertRow 240 "D1" "오버 히팅"; mkAlertRow 480 "D1" "스톨"].
Proof. reflexivity. Qed.




(** Scenario D: the run is an alarm and carries the entries of the two
    rows that parse. *)
Example scenario_d_alarm :
  alarms Samples.scenario_d [] 1%Q 4
  = Done (alarm_records Samples.scenario_d [] 1%Q 4)
  /\ map sensor_anomalies (alarm_records Samples.scenario_d [] 1%Q 4)
     = [[mkSensorAnomaly 240 "temperature-sensor" 1.5%Q;
         mkSensorAnomaly 480 "temperature-sensor" 1.4%Q]].
Proof. split; reflexivity. Qed.

(** ** Empty and missing inputs *)

(** C8: an empty score frame gives no alarm; with [alert_data.csv] missing
    or empty the page still lists its alarms and every alarm has no alert;
    and a product id without rows in the score frame has an empty series
    and no alarm, on its own turn of the loop and on the page. *)
Theorem empty_inputs_give_empty_results :
  forall (anomaly_df : list AnomalyRow) (alert_df : list AlertRow)
         (alpha : Q) (beta : Z),
    alarms [] alert_df alpha beta = Done []
    /\ alarm_page (Some []) (Some alert_df) alpha beta = Some (Done [])
    /\ alarm_page (Some anomaly_df) None alpha beta
       = Some (alarms anomaly_df [] alpha beta)
    /\ alarm_page (Some anomaly_df) (Some []) alpha beta
       = Some (alarms anomaly_df [] alpha beta)
    /\ (forall listed a,
          alarms anomaly_df [] alpha beta = Done listed ->
          In a listed -> alerts a = [])
    /\ (forall pid,
          (forall row, In row anomaly_df -> product_id row <> pid) ->
          product_data anomaly_df pid = []
          /\ product_alarms anomaly_df alert_df alpha beta pid = Done []
          /\ forall listed a,
               alarms anomaly_df alert_df alpha beta = Done listed ->
               In a listed -> alarm_product_id a <> pid).
Proof.
  intros anomaly_df alert_df alpha beta.
  split; [reflexivity |]. split; [reflexivity |].
  split; [reflexivity |]. split; [reflexivity |]. split.
  - intros listed a Hdone Hin. apply alarms_Done in Hdone. subst listed.
    apply alarm_records_In in Hin as (pid & Hin).
    apply product_records_In in Hin as (s & e & _ & _ & ->). reflexivity.
  - intros pid Hnone.
    assert (Hdata : product_data anomaly_df pid = []).
    { destruct (product_data anomaly_df pid) as [| row rest] eqn:Hdata;
        [reflexivity |].
      exfalso. assert (Hin : In row (product_data anomaly_df pid))
        by (rewrite Hdata; left; reflexivity).
      apply product_data_In in Hin as [Hin Hpid].
      apply (Hnone row); assumption. }
    split; [exact Hdata |]. split.
    + rewrite product_alarms_spec, product_raised_unknown by exact Hdata.
      rewrite product_records_unknown by exact Hnone. reflexivity.
    + intros listed a Hdone Hin Hpid.
      apply alarms_Done in Hdone. subst listed.
      apply alarm_records_In in Hin as (pid' & Hin).
      assert (pid' = pid).
      { apply product_records_In in Hin as (s & e & _ & _ & ->).
        exact Hpid. }
      subst pid'. rewrite (product_records_unknown _ _ _ _ _ Hnone) in Hin.
      destruct Hin.
Qed.

Lemma empty_inputs_give_empty_results_witness :
  (forall row, In row Samples.scenario_a -> product_id row <> "D9"%string)
  /\ product_alarms Samples.scenario_a Samples.sample_alerts 1%Q 4 "D9"
     = Done []
  /\ alarms Samples.scenario_a [] 1%Q 4
     = Done [run_record (product_data Samples.scenario_a "D1") [] "D1" 2 4]
  /\ alerts (run_record (product_data Samples.scenario_a "D1") []
                "D1" 2 4) = [].
Proof.
  assert (Hnone : forall row, In row Samples.scenario_a ->
                              product_id row <> "D9"%string).
  { intros row Hin. simpl in Hin.
    repeat (destruct Hin as [<- | Hin]; [discriminate |]). destruct Hin. }
  assert (Hdone : alarms Samples.scenario_a [] 1%Q 4
                  = Done [run_record (product_data Samples.scenario_a "D1")
                            [] "D1" 2 4])
    by (vm_compute; reflexivity).
  destruct (empty_inputs_give_empty_results
              Samples.scenario_a Samples.sample_alerts 1%Q 4)
    as (_ & _ & _ & _ & _ & Hunknown).
  destruct (empty_inputs_give_empty_results Samples.scenario_a [] 1%Q 4)
    as (_ & _ & _ & _ & Hempty & _).
  split; [exact Hnone |].
  split; [apply (proj1 (proj2 (Hunknown "D9"%string Hnone))) |].
  split; [exact Hdone |].
  apply (Hempty _ _ Hdone). left. reflexivity.
Defined.

(** ** Text search *)

Module TextFacts.
Import DetailPage.

Lemma append_assoc (a b c : string) :
  ((a ++ b) ++ c)%string = (a ++ (b ++ c))%string.
Proof.
  induction a as [| x a IH]; simpl; [reflexivity | rewrite IH; reflexivity].
Qed.

Lemma contains_cons (pat : string) (c : ascii) (s : string) :
  contains pat (String c s) = prefix pat (String c s) || contains pat s.
Proof. reflexivity. Qed.

Lemma prefix_head_ne (c0 : ascii) (p : string) (d : ascii) (s : string) :
  c0 <> d -> prefix (String c0 p) (String d s) = false.
Proof.
  intros Hne. simpl. destruct (ascii_dec c0 d); [contradiction | reflexivity].
Qed.

(** Text without the first character of the pattern cannot start a match. *)
Lemma contains_skip (c0 : ascii) (p g rest : string) :
  (forall c, In c (list_ascii_of_string g) -> c <> c0) ->
  contains (String c0 p) (g ++ rest) = contains (String c0 p) rest.
Proof.
  induction g as [| d g IH]; intros Hg; simpl append.
  - reflexivity.
  - rewrite contains_cons, prefix_head_ne.
    + apply IH. intros c Hc. apply Hg. right. assumption.
    + intros Heq. apply (Hg d); [left; reflexivity | congruence].
Qed.

Lemma contains_none (c0 : ascii) (p g : string) :
  (forall c, In c (list_ascii_of_string g) -> c <> c0) ->
  contains (String c0 p) g = false.
Proof.
  induction g as [| d g IH]; intros Hg.
  - reflexivity.
  - rewrite contains_cons, prefix_head_ne.
    + apply IH. intros c Hc. apply Hg. right. assumption.
    + intros Heq. apply (Hg d); [left; reflexivity | congruence].
Qed.

(** A match cannot run over a character the pattern does not have. *)
Lemma prefix_delim (pat x : string) (q : ascii) (rest : string) :
  ~ In q (list_ascii_of_string pat) ->
  prefix pat (x ++ String q rest) = prefix pat x.
Proof.
  revert x. induction pat as [| c pat IH]; intros x Hq.
  - destruct x; reflexivity.
  - destruct x as [| d x]; simpl.
    + destruct (ascii_dec c q) as [-> | Hne]; [| reflexivity].
      exfalso. apply Hq. left. reflexivity.
    + destruct (ascii_dec c d); [| reflexivity].
      apply IH. intros Hin. apply Hq. right. assumption.
Qed.

Lemma contains_delim (pat name : string) (q : ascii) (rest : string) :
  pat <> EmptyString ->
  ~ In q (list_ascii_of_string pat) ->
  contains pat (name ++ String q rest) =
  contains pat name || contains pat rest.
Proof.
  intros Hne Hq. induction name as [| c name IH].
  - simpl append. rewrite contains_cons.
    change (String q rest) with (EmptyString ++ String q rest)%string at 1.
    rewrite prefix_delim by assumption.
    destruct pat; [congruence | reflexivity].
  - simpl append. rewrite !contains_cons, IH.
    change (String c (name ++ String q rest))
      with (String c name ++ String q rest)%string.
    rewrite prefix_delim by assumption.
    rewrite orb_assoc. reflexivity.
Qed.

Lemma list_ascii_app (a b : string) :
  list_ascii_of_string (a ++ b) =
  (list_ascii_of_string a ++ list_ascii_of_string b)%list.
Proof.
  induction a as [| c a IH]; simpl; [reflexivity | rewrite IH; reflexivity].
Qed.

Section ListStr.
Variable float_repr : Q -> string.
Hypothesis float_repr_chars :
  forall q c, In c (list_ascii_of_string (float_repr q)) ->
              In c float_chars.

Local Abbreviation pat := ("temperature-sensor"%string).

Lemma tuple_repr_shape (item : string * Q) (rest : string) :
  (tuple_repr float_repr quoted item ++ rest)%string =
  ("('" ++ (fst item
            ++ String "'"
                 ((", " ++ float_repr (snd item) ++ ")") ++ rest)))%string.
Proof.
  unfold tuple_repr, quoted. simpl.
  rewrite !append_assoc. simpl. rewrite !append_assoc. reflexivity.
Qed.

Lemma contains_tuple (item : string * Q) (rest : string) :
  contains pat (tuple_repr float_repr quoted item ++ rest) =
  contains pat (fst item) || contains pat rest.
Proof.
  rewrite tuple_repr_shape.
  rewrite contains_skip.
  2: { intros c [<- | [<- | []]]; discriminate. }
  rewrite contains_delim.
  2: discriminate.
  2: { simpl. intuition discriminate. }
  f_equal. apply contains_skip.
  intros c Hc. rewrite !list_ascii_app in Hc. simpl in Hc.
  destruct Hc as [<- | [<- | Hc]]; [discriminate | discriminate |].
  apply in_app_or in Hc as [Hc | [<- | []]]; [| discriminate].
  apply float_repr_chars in Hc. intros ->.
  simpl in Hc. intuition discriminate.
Qed.

Lemma contains_concat (l : list (string * Q)) (rest : string) :
  (forall c, In c (list_ascii_of_string rest) -> c <> "t"%char) ->
  contains pat (String.concat ", " (map (tuple_repr float_repr quoted) l)
                ++ rest)
  = existsb (fun item => contains pat (fst item)) l.
Proof.
  intros Hrest. induction l as [| item l IH].
  - simpl. apply contains_none. assumption.
  - destruct l as [| item' l'].
    + simpl String.concat. rewrite contains_tuple. simpl existsb.
      f_equal. specialize (IH). simpl in IH. exact IH.
    + change (String.concat ", " (map (tuple_repr float_repr quoted)
                                      (item :: item' :: l')))
        with (tuple_repr float_repr quoted item
              ++ ", "
              ++ String.concat ", "
                   (map (tuple_repr float_repr quoted) (item' :: l')))%string.
      rewrite !append_assoc, contains_tuple.
      change (existsb (fun i => contains pat (fst i)) (item :: item' :: l'))
        with (contains pat (fst item)
              || existsb (fun i => contains pat (fst i)) (item' :: l')).
      f_equal. rewrite contains_skip; [exact IH |].
      intros c [<- | [<- | []]]; discriminate.
Qed.

(** The search in [str(high_sensor_list)] finds the pattern exactly when
    a sensor name of the list holds it. *)
Lemma contains_list_str (l : list (string * Q)) :
  contains "temperature-sensor" (list_str float_repr quoted l) =
  existsb (fun item => contains "temperature-sensor" (fst item)) l.
Proof.
  unfold list_str.
  rewrite (contains_skip "t" _ "[").
  2: { intros c [<- | []]; discriminate. }
  apply contains_concat.
  intros c [<- | []]; discriminate.
Qed.
End ListStr.

(** Where every name prints as it is, between single quotes, the search
    in [str(high_sensor_list)] is the search in the names. *)
Lemma list_str_quoted (float_repr : Q -> string)
    (str_repr : string -> string) (l : list (string * Q)) :
  (forall item, In item l -> str_repr (fst item) = quoted (fst item)) ->
  list_str float_repr str_repr l = list_str float_repr quoted l.
Proof.
  intros Hl. unfold list_str. do 2 f_equal. f_equal.
  apply map_ext_in. intros item Hin. unfold tuple_repr.
  rewrite (Hl item Hin). reflexivity.
Qed.

Lemma escape_plain (c : ascii) :
  plain_char c = true -> escape_char (ascii_of_nat 39) c = String c "".
Proof.
  unfold plain_char, escape_char. intros H.
  apply andb_prop in H as [H H92]. apply andb_prop in H as [H H39].
  apply andb_prop in H as [H32 H127].
  apply negb_true_iff in H92, H39. apply Nat.eqb_neq in H39.
  apply Nat.leb_le in H32. apply Nat.ltb_lt in H127.
  rewrite H92.
  replace (Ascii.eqb c (ascii_of_nat 39)) with false.
  2: { symmetry. apply Ascii.eqb_neq. intros ->. apply H39. reflexivity. }
  cbn [orb].
  replace (nat_of_ascii c =? 9) with false
    by (symmetry; apply Nat.eqb_neq; lia).
  replace (nat_of_ascii c =? 10) with false
    by (symmetry; apply Nat.eqb_neq; lia).
  replace (nat_of_ascii c =? 13) with false
    by (symmetry; apply Nat.eqb_neq; lia).
  replace (nat_of_ascii c <? 32) with false
    by (symmetry; apply Nat.ltb_ge; lia).
  replace (nat_of_ascii c =? 127) with false
    by (symmetry; apply Nat.eqb_neq; lia).
  reflexivity.
Qed.

(** [repr] leaves a plain name as it is. *)
Lemma repr_ascii_plain (s : string) :
  plain_name s = true -> repr_ascii s = quoted s.
Proof.
  unfold plain_name, repr_ascii, quoted. intros Hplain.
  replace (existsb (Ascii.eqb (ascii_of_nat 39)) (list_ascii_of_string s))
    with false.
  2: { symmetry. apply not_true_iff_false. intros Hex.
       apply existsb_exists in Hex as (c & Hin & Hc).
       apply Ascii.eqb_eq in Hc. subst c.
       rewrite forallb_forall in Hplain. specialize (Hplain _ Hin).
       discriminate. }
  cbn [andb]. change (String (ascii_of_nat 39) ?x) with ("'" ++ x)%string.
  cbn [append]. f_equal.
  induction s as [| c rest IH]; [reflexivity |].
  cbn [list_ascii_of_string forallb] in Hplain.
  apply andb_prop in Hplain as [Hc Hrest].
  cbn [list_ascii_of_string map]. specialize (IH Hrest).
  destruct (list_ascii_of_string rest) as [| c' more] eqn:Hchars.
  - cbn [String.concat map] in *. rewrite escape_plain by exact Hc.
    cbn [append]. f_equal. exact IH.
  - cbn [String.concat map] in *. rewrite escape_plain by exact Hc.
    cbn [append]. f_equal. exact IH.
Qed.

End TextFacts.

(** ** The detail page *)

Module DetailFacts.
Import DetailPage.

(** [window_high_sensors] holds the items with a score of at least 1.0
    of the rows of the window that parse. *)
Lemma window_high_sensors_In (window : list AnomalyRow) (x : string * Q) :
  In x (window_high_sensors window) <->
  exists row sensor_dict,
    In row window /\ sensor_anomaly_score row = Parsed sensor_dict
    /\ In x sensor_dict /\ (1 <= snd x)%Q.
Proof.
  unfold window_high_sensors, row_high_sensors, high_sensors.
  rewrite in_flat_map. split.
  - intros (row & Hrow & Hx).
    destruct (sensor_anomaly_score row) as [sensor_dict | e | e] eqn:Hcell;
      [| destruct Hx | destruct Hx].
    apply filter_In in Hx as [Hx Hge]. apply Qgeb_le in Hge.
    exists row, sensor_dict. auto.
  - intros (row & sensor_dict & Hrow & Hcell & Hx & Hge).
    exists row. split; [exact Hrow |]. rewrite Hcell.
    apply filter_In. split; [exact Hx | apply Qgeb_le; exact Hge].
Qed.

Lemma collect_high_items (sensor_dict : list (string * Q))
    (acc : list (string * Q)) :
  fold_left
    (fun acc item =>
       if Qgeb (snd item) 1%Q then acc ++ [(fst item, snd item)] else acc)
    sensor_dict acc
  = acc ++ high_sensors sensor_dict.
Proof.
  unfold high_sensors.
  revert acc. induction sensor_dict as [| item rest IH]; intros acc; simpl.
  - rewrite app_nil_r. reflexivity.
  - rewrite IH. destruct (Qgeb (snd item) 1%Q); simpl.
    + rewrite <- app_assoc, <- surjective_pairing. reflexivity.
    + reflexivity.
Qed.

Lemma collect_high_spec (acc : list (string * Q)) (row : AnomalyRow) :
  collect_high acc row =
  match raised_by row with
  | Some e => Raises e
  | None => Done (acc ++ row_high_sensors row)
  end.
Proof.
  unfold collect_high, raised_by, row_high_sensors.
  destruct (sensor_anomaly_score row) as [sensor_dict | e | e].
  - rewrite collect_high_items. reflexivity.
  - rewrite app_nil_r. reflexivity.
  - reflexivity.
Qed.

(** The loop of the diagnosis: the high sensors of the window, unless a
    cell raises. *)
Lemma high_sensor_list_spec (window : list AnomalyRow) :
  high_sensor_list window =
  match first_raised window with
  | Some e => Raises e
  | None => Done (window_high_sensors window)
  end.
Proof.
  unfold high_sensor_list, first_raised, window_high_sensors.
  rewrite (fold_bind_spec collect_high raised_by row_high_sensors
             collect_high_spec).
  reflexivity.
Qed.

Lemma sensor_table_row_spec (acc : list (Z * list (string * Q)))
    (row : AnomalyRow) :
  sensor_table_row acc row =
  match raised_by row with
  | Some e => Raises e
  | None =>
      Done (acc ++ if 0 <? length (row_high_sensors row)
                   then [(time row, row_high_sensors row)] else [])
  end.
Proof.
  unfold sensor_table_row, raised_by, row_high_sensors.
  destruct (sensor_anomaly_score row) as [sensor_dict | e | e].
  - destruct (0 <? length (high_sensors sensor_dict));
      [| rewrite app_nil_r]; reflexivity.
  - rewrite app_nil_r. reflexivity.
  - reflexivity.
Qed.

(** The loop of section 2: the table rows of the window, unless a cell
    raises. *)
Lemma sensor_data_list_spec (window : list AnomalyRow) :
  sensor_data_list window =
  match first_raised window with
  | Some e => Raises e
  | None => Done (window_table window)
  end.
Proof.
  unfold sensor_data_list, first_raised, window_table.
  rewrite (fold_bind_spec sensor_table_row raised_by
             (fun row => if 0 <? length (row_high_sensors row)
                         then [(time row, row_high_sensors row)] else [])
             sensor_table_row_spec).
  reflexivity.
Qed.

Lemma ai_diagnosis_spec (float_repr : Q -> string)
    (str_repr : string -> string) (window : list AnomalyRow)
    (window_alerts : list AlertRow) (history : list ActionRow) :
  ai_diagnosis float_repr str_repr window window_alerts history =
  match first_raised window with
  | Some e => Raises e
  | None => Done (diagnosis_of float_repr str_repr window window_alerts
                    history)
  end.
Proof.
  unfold ai_diagnosis. rewrite high_sensor_list_spec.
  destruct (first_raised window); reflexivity.
Qed.

(** The page on a score frame with rows. *)
Lemma detail_page_rows (float_repr : Q -> string)
    (str_repr : string -> string)
    (anomaly_df : list AnomalyRow) (alert_file : option (list AlertRow))
    (action_file : option (list ActionRow)) (pid : string) (t1 t2 : Z)
    (clicked : bool) :
  anomaly_df <> [] ->
  detail_page float_repr str_repr (Some anomaly_df) alert_file action_file
              pid t1 t2 clicked =
  if length (filtered_anomaly anomaly_df pid t1 t2) =? 0 then StoppedNoData
  else
    match first_raised (filtered_anomaly anomaly_df pid t1 t2) with
    | Some e => Raised e
    | None =>
        if clicked
        then Shown (Some (diagnosis_of float_repr str_repr
                            (filtered_anomaly anomaly_df pid t1 t2)
                            (filtered_alert (load_frame alert_file) pid t1 t2)
                            (filtered_action_history (load_frame action_file)
                               pid)))
        else Shown None
    end.
Proof.
  intros Hrows. destruct anomaly_df as [| row0 rest]; [congruence |].
  unfold detail_page.
  destruct (length (filtered_anomaly (row0 :: rest) pid t1 t2) =? 0);
    [reflexivity |].
  rewrite sensor_data_list_spec, ai_diagnosis_spec.
  destruct (first_raised _); [reflexivity |].
  destruct clicked; reflexivity.
Qed.

Lemma sort_values_desc_perm {A : Type} (key : A -> Z) (df : list A) :
  Permutation (sort_values_desc key df) df.
Proof. apply sort_values_perm. Qed.

Lemma sort_values_desc_sorted {A : Type} (key : A -> Z) (df : list A) :
  StronglySorted (fun a b => (key b <= key a)%Z) (sort_values_desc key df).
Proof.
  unfold sort_values_desc.
  pose proof (sort_values_sorted (fun row => (- key row)%Z) df) as Hsorted.
  induction Hsorted as [| r rest Hs IH Hall]; constructor.
  - assumption.
  - eapply Forall_impl; [| exact Hall]. simpl. intros b Hb. lia.
Qed.

(** The history of a product: its actions, most recent first. *)
Lemma filtered_action_history_spec (action_history_df : list ActionRow)
    (pid : string) :
  Permutation (filtered_action_history action_history_df pid)
              (filter (fun a => String.eqb (action_product_id a) pid)
                      action_history_df)
  /\ StronglySorted (fun a b => (action_date b <= action_date a)%Z)
                    (filtered_action_history action_history_df pid).
Proof.
  unfold filtered_action_history.
  destruct (filter _ action_history_df) as [| a rest] eqn:Hrows.
  - simpl. split; [reflexivity | constructor].
  - change (0 <? length (a :: rest)) with true. cbv iota. split.
    + apply sort_values_desc_perm.
    + apply sort_values_desc_sorted.
Qed.

Lemma alert_types_In (window_alerts : list AlertRow) (x : string) :
  In x (alert_types window_alerts) <->
  exists ev, In ev window_alerts /\ identifier ev = x.
Proof.
  unfold alert_types. destruct window_alerts as [| ev rest].
  - simpl. split; [intros [] | intros (ev & [] & _)].
  - change (0 <? length (ev :: rest)) with true. cbv iota.
    rewrite unique_In, in_map_iff. split; intros (ev' & H1 & H2); eauto.
Qed.

Lemma existsb_eqb_In (x : string) (l : list string) :
  existsb (String.eqb x) l = true <-> In x l.
Proof.
  rewrite existsb_exists. split.
  - intros (y & Hin & Heq). apply String.eqb_eq in Heq. subst. assumption.
  - intros Hin. exists x. split; [assumption | apply String.eqb_refl].
Qed.

Lemma nan_geb_le (m y : Q) : nan_geb (Some m) y = true <-> (y <= m)%Q.
Proof. apply Qgeb_le. Qed.

Lemma nan_geb_lt (m y : Q) : nan_geb (Some m) y = false <-> (m < y)%Q.
Proof. apply Qgeb_false_lt. Qed.

(** The recommendations under high severity: the three conditional lines
    that apply, in their order, then the physical inspection. *)
Lemma recommendations_high (float_repr : Q -> string)
    (str_repr : string -> string) (max_score : option Q)
    (sensors : list (string * Q)) (types : list string)
    (actions : list ActionRow) :
  nan_geb max_score 2.5%Q = true ->
  recommendations_of float_repr str_repr max_score sensors types actions =
  (if contains "temperature-sensor" (list_str float_repr str_repr sensors)
   then [rec_temperature_sensor] else [])
  ++ (if existsb (String.eqb "과열") types
         || existsb (String.eqb "오버 히팅") types
      then [rec_cooling_system] else [])
  ++ (if (0 <? length actions)
         && existsb (fun a => contains "온도센서교체" (treatment a)) actions
      then [rec_past_fix] else [])
  ++ [rec_physical_inspection].
Proof.
  intros Hhigh. unfold recommendations_of. rewrite Hhigh.
  destruct (contains "temperature-sensor" (list_str float_repr str_repr sensors));
    destruct (existsb (String.eqb "과열") types
              || existsb (String.eqb "오버 히팅") types);
    destruct ((0 <? length actions)
              && existsb (fun a => contains "온도센서교체" (treatment a))
                         actions);
    reflexivity.
Qed.

End DetailFacts.

Import DetailPage DetailFacts TextFacts.

Lemma filter_none {A : Type} (f : A -> bool) (l : list A) :
  (forall x, In x l -> f x = false) -> filter f l = [].
Proof.
  induction l as [| x rest IH]; intros Hf; simpl.
  - reflexivity.
  - rewrite (Hf x) by (left; reflexivity).
    apply IH. intros y Hy. apply Hf. right. assumption.
Qed.

Lemma similar_actions_firstn (history : list ActionRow) :
  similar_actions history = firstn 3 history.
Proof. destruct history; reflexivity. Qed.

Lemma existsb_similar (history : list ActionRow) :
  (0 <? length (similar_actions history))
  && existsb (fun a => contains "온도센서교체" (treatment a))
             (similar_actions history) = true <->
  exists act, In act (firstn 3 history)
              /\ contains "온도센서교체" (treatment act) = true.
Proof.
  rewrite similar_actions_firstn, andb_true_iff, existsb_exists. split.
  - intros [_ H]. exact H.
  - intros (act & Hin & Hc). split; [| eauto].
    destruct (firstn 3 history); [destruct Hin | reflexivity].
Qed.

(** Which lines a list of the high-severity shape holds. *)
Lemma high_lines (c1 c2 c3 : bool) :
  let recs :=
    (if c1 then [rec_temperature_sensor] else [])
    ++ (if c2 then [rec_cooling_system] else [])
    ++ (if c3 then [rec_past_fix] else [])
    ++ [rec_physical_inspection] in
  (In rec_temperature_sensor recs <-> c1 = true)
  /\ (In rec_cooling_system recs <-> c2 = true)
  /\ (In rec_past_fix recs <-> c3 = true).
Proof.
  destruct c1, c2, c3; simpl;
    unfold rec_temperature_sensor, rec_cooling_system, rec_past_fix,
      rec_physical_inspection;
    repeat split; intros; auto; intuition discriminate.
Qed.


(** Scenario E: a maximum of 3.0, an overheating alert, the temperature
    sensor among the high sensors and a past replacement of it give High
    and the four lines in order. *)
Example scenario_e_diagnosis :
  detail_page Samples.two_decimals repr_ascii (Some Samples.scenario_e)
    (Some Samples.scenario_e_alerts) (Some Samples.scenario_e_actions)
    "D1" 0 1000 true
  = Shown (Some {| severity := High;
                   recommendations :=
                     [rec_temperature_sensor; rec_cooling_system;
                      rec_past_fix; rec_physical_inspection] |}).
Proof. reflexivity. Qed.

Lemma two_decimals_chars :
  forall q c, In c (list_ascii_of_string (Samples.two_decimals q)) ->
              In c float_chars.
Proof.
  intros q c Hin. simpl in Hin.
  destruct Hin as [<- | [<- | [<- | [<- | []]]]]; simpl; tauto.
Defined.


(** A sensor name that starts with a tab: [repr] prints the tab as a
    backslash and a t, so the search finds temperature-sensor in
    [str(high_sensor_list)] and the line is there, although no sensor name
    holds that text. *)
Example escaped_tab_gives_the_line :
  detail_page Samples.two_decimals repr_ascii (Some Samples.scenario_tab)
    None None "D1" 0 1000 true
  = Shown (Some {| severity := High;
                   recommendations :=
                     [rec_temperature_sensor; rec_physical_inspection] |})
  /\ window_high_sensors (filtered_anomaly Samples.scenario_tab "D1" 0 1000)
     = [(Samples.tab_name, 3.0%Q)]
  /\ contains "temperature-sensor" Samples.tab_name = false
  /\ repr_ascii Samples.tab_name <> quoted Samples.tab_name.
Proof.
  split; [reflexivity |]. split; [reflexivity |]. split; [reflexivity |].
  discriminate.
Qed.

(** C10: with a largest score of at least 2.5 the severity is High and the
    recommendations end with the physical inspection, whatever the
    sensors, the alert identifiers and the past actions are; the lines
    before it are among the three conditional ones. *)
Theorem physical_inspection_always_last :
  forall (float_repr : Q -> string) (str_repr : string -> string) (m : Q)
         (sensors : list (string * Q)) (types : list string)
         (actions : list ActionRow),
    (2.5 <= m)%Q ->
    severity_of (Some m) = High
    /\ In rec_physical_inspection
          (recommendations_of float_repr str_repr (Some m) sensors types
             actions)
    /\ exists front,
        recommendations_of float_repr str_repr (Some m) sensors types
          actions =
        front ++ [rec_physical_inspection]
        /\ (forall line, In line front ->
                         line = rec_temperature_sensor
                         \/ line = rec_cooling_system
                         \/ line = rec_past_fix)
        /\ ~ In rec_physical_inspection front.
Proof.
  intros float_repr str_repr m sensors types actions Hm.
  apply nan_geb_le in Hm.
  split; [unfold severity_of; rewrite Hm; reflexivity |].
  rewrite (recommendations_high float_repr str_repr _ sensors types actions
             Hm).
  destruct (contains "temperature-sensor"
              (list_str float_repr str_repr sensors));
    destruct (existsb (String.eqb "과열") types
              || existsb (String.eqb "오버 히팅") types);
    destruct ((0 <? length actions)
              && existsb (fun a => contains "온도센서교체" (treatment a))
                         actions);
    (split; [simpl; tauto |]);
    match goal with
    | |- exists front, ?l ++ ?r ++ ?t ++ [?x] = _ /\ _ =>
        exists (l ++ r ++ t)
    end;
    (split; [rewrite <- !app_assoc; reflexivity |]);
    simpl;
    unfold rec_temperature_sensor, rec_cooling_system, rec_past_fix,
      rec_physical_inspection;
    (split; [intros line Hin; intuition (subst; auto)
            | intuition discriminate]).
Qed.

Lemma physical_inspection_always_last_witness :
  (2.5 <= 3)%Q
  /\ severity_of (Some 3%Q) = High
  /\ In rec_physical_inspection
        (recommendations_of Samples.two_decimals repr_ascii (Some 3%Q)
           [] [] []).
Proof.
  assert (Hm : (2.5 <= 3)%Q) by (vm_compute; discriminate).
  destruct (physical_inspection_always_last Samples.two_decimals repr_ascii
              3%Q
              [] [] [] Hm) as (Hsev & Hin & _).
  split; [exact Hm |]. split; [exact Hsev | exact Hin].
Defined.

(** With nothing else present the physical inspection is the only line. *)
Example high_without_evidence :
  recommendations_of Samples.two_decimals repr_ascii (Some 3%Q) [] [] []
  = [rec_physical_inspection].
Proof. reflexivity. Qed.

(** ** Query parameters *)

Lemma inverted_window_empty (anomaly_df : list AnomalyRow) (pid : string)
    (t1 t2 : Z) :
  (t2 < t1)%Z -> filtered_anomaly anomaly_df pid t1 t2 = [].
Proof.
  intros Hlt. apply filter_none. intros row _.
  destruct (t1 <=? time row)%Z eqn:H1;
    [| rewrite andb_false_r; reflexivity].
  apply Z.leb_le in H1.
  replace (time row <=? t2)%Z with false
    by (symmetry; apply Z.leb_gt; lia).
  apply andb_false_r.
Qed.

(** C7, as amended: the two sliders hand back a threshold of at least 0
    and a minimum duration of at least 2 minutes, so a negative threshold
    or a non-positive duration cannot be entered; and a window whose end
    lies before its start selects no row, so the detail page, on a score
    frame with rows, stops with its no-data warning, as for any selection
    without rows. *)
Theorem parameters_bounded_not_validated :
  forall (float_repr : Q -> string) (str_repr : string -> string)
         (anomaly_df : list AnomalyRow)
         (alert_file : option (list AlertRow))
         (action_file : option (list ActionRow))
         (pid : string) (t1 t2 : Z) (clicked : bool),
    (forall alpha, alpha_in_slider alpha -> (0 <= alpha)%Q)
    /\ (forall beta, beta_in_slider beta -> (2 <= beta)%Z)
    /\ ((t2 < t1)%Z ->
        filtered_anomaly anomaly_df pid t1 t2 = []
        /\ (anomaly_df <> [] ->
            detail_page float_repr str_repr (Some anomaly_df) alert_file
                        action_file pid t1 t2 clicked = StoppedNoData)).
Proof.
  intros float_repr str_repr anomaly_df alert_file action_file pid t1 t2
         clicked.
  split; [| split].
  - intros alpha [Hmin _]. simpl in Hmin.
    eapply Qle_trans; [| exact Hmin]. discriminate.
  - intros beta [Hmin _]. exact Hmin.
  - intros Hlt. pose proof (inverted_window_empty anomaly_df pid _ _ Hlt) as He.
    split; [exact He |]. intros Hrows.
    rewrite (detail_page_rows _ _ _ _ _ _ _ _ _ Hrows), He. reflexivity.
Qed.

Lemma parameters_bounded_not_validated_witness :
  alpha_in_slider 1%Q /\ beta_in_slider 4%Z /\ (0 < 600)%Z
  /\ (0 <= 1)%Q /\ (2 <= 4)%Z
  /\ detail_page Samples.two_decimals repr_ascii (Some Samples.scenario_a)
       None None "D1" 600 0 true = StoppedNoData.
Proof.
  assert (Ha : alpha_in_slider 1%Q) by (split; vm_compute; discriminate).
  assert (Hb : beta_in_slider 4%Z) by (unfold beta_in_slider; simpl; lia).
  assert (Hw : (0 < 600)%Z) by lia.
  destruct (parameters_bounded_not_validated Samples.two_decimals
              repr_ascii Samples.scenario_a None None "D1" 600 0 true)
    as (Halpha & Hbeta & Hwindow).
  split; [exact Ha |]. split; [exact Hb |]. split; [exact Hw |].
  split; [apply Halpha; exact Ha |]. split; [apply Hbeta; exact Hb |].
  apply Hwindow; [exact Hw | discriminate].
Defined.

(** C7, as stated, fails: a window that ends before it starts is not
    answered with an error of its own.  The page stops with the no-data
    warning, exactly as for a well-formed window after the last row, and on
    this frame the page has no other way to end than that warning or the
    page shown. *)
Lemma inverted_window_not_rejected :
  detail_page Samples.two_decimals repr_ascii (Some Samples.scenario_a)
    None None "D1" 600 0 true = StoppedNoData
  /\ detail_page Samples.two_decimals repr_ascii (Some Samples.scenario_a)
       None None "D1" 700 800 true = StoppedNoData
  /\ forall alert_file action_file pid t1 t2 clicked view,
      detail_page Samples.two_decimals repr_ascii (Some Samples.scenario_a)
        alert_file action_file pid t1 t2 clicked = view ->
      view = StoppedNoData \/ exists diagnosis, view = Shown diagnosis.
Proof.
  split; [reflexivity |]. split; [reflexivity |].
  intros alert_file action_file pid t1 t2 clicked view <-.
  rewrite detail_page_rows by discriminate.
  destruct (length (filtered_anomaly Samples.scenario_a pid t1 t2) =? 0);
    [left; reflexivity |].
  replace (first_raised (filtered_anomaly Samples.scenario_a pid t1 t2))
    with (@None Uncaught).
  - right. destruct clicked; eexists; reflexivity.
  - symmetry. apply first_of_None. intros row Hin.
    apply filter_In in Hin as [Hin _]. simpl in Hin.
    repeat (destruct Hin as [<- | Hin]; [reflexivity |]). destruct Hin.
Qed.

(** The scan itself does not look at the sign of its parameters; it is
    the sliders that keep them in range. *)
Example scan_without_checks :
  alarms Samples.scenario_a [] (-1)%Q 0
  = Done (alarm_records Samples.scenario_a [] (-1)%Q 0)
  /\ length (alarm_records Samples.scenario_a [] (-1)%Q 0) = 1.
Proof. split; reflexivity. Qed.

(** A product without rows in the window of the detail page: the page
    stops with its no-data warning. *)
Lemma detail_page_unknown_product (float_repr : Q -> string)
    (str_repr : string -> string)
    (anomaly_df : list AnomalyRow) (alert_file : option (list AlertRow))
    (action_file : option (list ActionRow)) (pid : string) (t1 t2 : Z)
    (clicked : bool) :
  anomaly_df <> [] ->
  (forall row, In row anomaly_df -> product_id row <> pid) ->
  detail_page float_repr str_repr (Some anomaly_df) alert_file action_file
              pid t1 t2 clicked = StoppedNoData.
Proof.
  intros Hrows Hnone. rewrite (detail_page_rows _ _ _ _ _ _ _ _ _ Hrows).
  replace (filtered_anomaly anomaly_df pid t1 t2) with (@nil AnomalyRow);
    [reflexivity |].
  symmetry. apply filter_none. intros row Hin.
  replace (String.eqb (product_id row) pid) with false; [reflexivity |].
  symmetry. apply String.eqb_neq. apply Hnone. assumption.
Qed.

(** * Further properties of the alarm page *)

Lemma duration_of_mono (t1 t2 u1 u2 : Z) :
  (t2 - t1 <= u2 - u1)%Z -> (duration_of t1 t2 <= duration_of u1 u2)%Q.
Proof.
  intros Hle. unfold duration_of. apply Qplus_le_compat; [| apply Qle_refl].
  apply Qmult_le_compat_r; [| discriminate].
  rewrite <- Zle_Qle. assumption.
Qed.

Lemma duration_of_ge_two (t1 t2 : Z) :
  (t1 <= t2)%Z -> (2 <= duration_of t1 t2)%Q.
Proof.
  intros Hle. apply (Qle_trans _ (duration_of t1 t1)).
  - unfold duration_of. rewrite Z.sub_diag. discriminate.
  - apply duration_of_mono. lia.
Qed.

Lemma filter_flat_map {A B : Type} (f : A -> list B) (p : B -> bool)
    (l : list A) :
  filter p (flat_map f l) = flat_map (fun x => filter p (f x)) l.
Proof.
  induction l as [| x rest IH]; simpl.
  - reflexivity.
  - rewrite filter_app, IH. reflexivity.
Qed.

Lemma filter_map_swap {A B : Type} (g : A -> B) (p : B -> bool)
    (l : list A) :
  filter p (map g l) = map g (filter (fun x => p (g x)) l).
Proof.
  induction l as [| x rest IH]; simpl.
  - reflexivity.
  - destruct (p (g x)); simpl; rewrite IH; reflexivity.
Qed.

Lemma filter_filter {A : Type} (p q : A -> bool) (l : list A) :
  filter p (filter q l) = filter (fun x => q x && p x) l.
Proof.
  induction l as [| x rest IH]; simpl.
  - reflexivity.
  - destruct (q x); simpl; [destruct (p x) |]; rewrite IH; reflexivity.
Qed.

Lemma alarm_records_raise_beta :
  forall (anomaly_df : list AnomalyRow) (alert_df : list AlertRow)
         (alpha : Q) (beta beta' : Z),
    (beta <= beta')%Z ->
    alarm_records anomaly_df alert_df alpha beta' =
    filter (fun a => Qgeb (duration_minutes a) (inject_Z beta'))
           (alarm_records anomaly_df alert_df alpha beta).
Proof.
  intros anomaly_df alert_df alpha beta beta' Hle.
  rewrite !alarm_records_flat_map, filter_flat_map.
  apply flat_map_ext. intros pid.
  rewrite !product_records_runs, filter_map_swap, filter_filter.
  f_equal. apply filter_ext. intros [s e].
  unfold long_enough. simpl.
  destruct (Qgeb (duration_of _ _) (inject_Z beta')) eqn:Hlong.
  - rewrite andb_true_r. symmetry. apply Qgeb_le.
    apply Qgeb_le in Hlong. eapply Qle_trans; [| exact Hlong].
    rewrite <- Zle_Qle. assumption.
  - rewrite andb_false_r. reflexivity.
Qed.

Lemma page_raised_raise_beta (anomaly_df : list AnomalyRow) (alpha : Q)
    (beta beta' : Z) :
  (beta <= beta')%Z ->
  page_raised anomaly_df alpha beta = None ->
  page_raised anomaly_df alpha beta' = None.
Proof.
  intros Hle Hnone. apply page_raised_None. intros pid.
  apply product_raised_None. intros s e k row Hrun Hlong Hk Hrow.
  apply (proj1 (product_raised_None anomaly_df alpha beta pid)
               (proj1 (page_raised_None anomaly_df alpha beta) Hnone pid)
               s e k row Hrun); [| exact Hk | exact Hrow].
  eapply Qle_trans; [| exact Hlong]. rewrite <- Zle_Qle. exact Hle.
Qed.

(** X1: moving the beta slider up only removes alarms: the list at the
    larger [beta'] is the list at [beta] without the alarms shorter than
    [beta'], in the same order and with the same contents. *)
Theorem raising_beta_filters_alarms :
  forall (anomaly_df : list AnomalyRow) (alert_df : list AlertRow)
         (alpha : Q) (beta beta' : Z) (listed : list Alarm),
    (beta <= beta')%Z ->
    alarms anomaly_df alert_df alpha beta = Done listed ->
    alarms anomaly_df alert_df alpha beta' =
    Done (filter (fun a => Qgeb (duration_minutes a) (inject_Z beta'))
                 listed).
Proof.
  intros anomaly_df alert_df alpha beta beta' listed Hle Hdone.
  apply alarms_Done_iff in Hdone as [Hnone ->].
  apply alarms_Done_iff. split.
  - apply (page_raised_raise_beta anomaly_df alpha beta beta' Hle Hnone).
  - symmetry. apply alarm_records_raise_beta. exact Hle.
Qed.

Lemma raising_beta_filters_alarms_witness :
  (2 <= 4)%Z
  /\ alarms Samples.two_runs [] 1%Q 2
     = Done (alarm_records Samples.two_runs [] 1%Q 2)
  /\ alarms Samples.two_runs [] 1%Q 4 =
     Done (filter (fun a => Qgeb (duration_minutes a) (inject_Z 4))
                  (alarm_records Samples.two_runs [] 1%Q 2))
  /\ length (alarm_records Samples.two_runs [] 1%Q 2) = 2
  /\ length (filter (fun a => Qgeb (duration_minutes a) (inject_Z 4))
                    (alarm_records Samples.two_runs [] 1%Q 2)) = 1.
Proof.
  assert (H : (2 <= 4)%Z) by lia.
  assert (Hdone : alarms Samples.two_runs [] 1%Q 2
                  = Done (alarm_records Samples.two_runs [] 1%Q 2))
    by reflexivity.
  split; [lia |]. split; [exact Hdone |].
  split; [exact (raising_beta_filters_alarms Samples.two_runs [] 1%Q 2 4 _ H
                   Hdone) |].
  split; reflexivity.
Defined.

(** X2: with [beta] at most 2, the lowest position of its slider, no run
    is dropped: every maximal run of rows above [alpha] has its alarm. *)
Theorem lowest_beta_keeps_every_run :
  forall (anomaly_df : list AnomalyRow) (alert_df : list AlertRow)
         (alpha : Q) (beta : Z) (pid : string) (s e : nat)
         (listed : list Alarm),
    (beta <= 2)%Z ->
    maximal_run alpha (product_data anomaly_df pid) s e ->
    alarms anomaly_df alert_df alpha beta = Done listed ->
    In (run_record (product_data anomaly_df pid) alert_df pid s e) listed.
Proof.
  intros anomaly_df alert_df alpha beta pid s e listed Hbeta Hrun Hdone.
  apply alarms_Done in Hdone. subst listed.
  apply alarm_records_In. exists pid. apply product_records_In.
  exists s, e. split; [assumption |]. split; [| reflexivity].
  apply (Qle_trans _ 2).
  - change 2%Q with (inject_Z 2). rewrite <- Zle_Qle. assumption.
  - apply duration_of_ge_two, run_times_ordered.
    eapply maximal_run_range. eassumption.
Qed.

Lemma lowest_beta_keeps_every_run_witness :
  (2 <= 2)%Z
  /\ maximal_run 1%Q (product_data Samples.two_runs "D1") 3 3
  /\ alarms Samples.two_runs [] 1%Q 2
     = Done (alarm_records Samples.two_runs [] 1%Q 2)
  /\ In (run_record (product_data Samples.two_runs "D1") [] "D1" 3 3)
        (alarm_records Samples.two_runs [] 1%Q 2).
Proof.
  assert (Hb : (2 <= 2)%Z) by lia.
  assert (Hrun : maximal_run 1%Q (product_data Samples.two_runs "D1") 3 3).
  { apply runs_maximal. vm_compute. right. left. reflexivity. }
  assert (Hdone : alarms Samples.two_runs [] 1%Q 2
                  = Done (alarm_records Samples.two_runs [] 1%Q 2))
    by reflexivity.
  split; [exact Hb |]. split; [exact Hrun |]. split; [exact Hdone |].
  exact (lowest_beta_keeps_every_run Samples.two_runs [] 1%Q 2 "D1" 3 3 _
           Hb Hrun Hdone).
Defined.

(** X3: moving the alpha slider up only shrinks or splits alarms: every
    alarm of a product at the higher [alpha'] lies inside the period of an
    alarm of that product at [alpha]. *)
Theorem raising_alpha_shrinks_alarms :
  forall (anomaly_df : list AnomalyRow) (alert_df : list AlertRow)
         (alpha alpha' : Q) (beta : Z) (pid : string)
         (listed listed' : list Alarm) (a' : Alarm),
    (alpha <= alpha')%Q ->
    product_alarms anomaly_df alert_df alpha beta pid = Done listed ->
    product_alarms anomaly_df alert_df alpha' beta pid = Done listed' ->
    In a' listed' ->
    exists a,
      In a listed
      /\ (start_time a <= start_time a')%Z
      /\ (end_time a' <= end_time a)%Z.
Proof.
  intros anomaly_df alert_df alpha alpha' beta pid listed listed' a' Halpha
         Hdone Hdone' Hin.
  apply product_alarms_Done in Hdone, Hdone'. subst listed listed'.
  apply product_records_In in Hin as (s' & e' & Hrun' & Hlong' & ->).
  set (data := product_data anomaly_df pid) in *.
  pose proof (maximal_run_range _ _ _ _ Hrun') as [Hse' He'].
  destruct Hrun' as (_ & Hall' & _).
  assert (Hweaker : forall k, s' <= k <= e' -> above_at alpha data k).
  { intros k Hk. destruct (Hall' k Hk) as (row & Hrow & Hlt).
    exists row. split; [assumption |].
    eapply Qle_lt_trans; eassumption. }
  destruct (above_in_run data alpha s' (Hweaker s' ltac:(lia)) 0)
    as (s & e & Hin & Hs); [lia |].
  apply runs_maximal in Hin.
  pose proof (maximal_run_range _ _ _ _ Hin) as [Hse He].
  assert (Hee : e' <= e).
  { destruct (Nat.le_gt_cases e' e) as [Hle | Hgt]; [assumption |].
    exfalso. destruct Hin as (_ & _ & _ & Hright).
    apply Hright, Hweaker. lia. }
  assert (Hts : (iloc_time data s <= iloc_time data s')%Z)
    by (apply iloc_time_le; [apply product_data_sorted | lia | lia]).
  assert (Hte : (iloc_time data e' <= iloc_time data e)%Z)
    by (apply iloc_time_le; [apply product_data_sorted | lia | lia]).
  exists (run_record data alert_df pid s e). split; [| split].
  - apply product_records_In. exists s, e. split; [assumption |].
    split; [| reflexivity].
    eapply Qle_trans; [exact Hlong' |]. apply duration_of_mono.
    unfold data in *. lia.
  - exact Hts.
  - exact Hte.
Qed.

Lemma raising_alpha_shrinks_alarms_witness :
  (1 <= 1.5)%Q
  /\ product_alarms Samples.scenario_a [] 1%Q 2 "D1"
     = Done [run_record (product_data Samples.scenario_a "D1") [] "D1" 2 4]
  /\ product_alarms Samples.scenario_a [] 1.5%Q 2 "D1"
     = Done [run_record (product_data Samples.scenario_a "D1") [] "D1" 3 3]
  /\ exists a,
      In a [run_record (product_data Samples.scenario_a "D1") [] "D1" 2 4]
      /\ (start_time a <= 360)%Z /\ (360 <= end_time a)%Z.
Proof.
  assert (Ha : (1 <= 1.5)%Q) by (vm_compute; discriminate).
  assert (Hdone : product_alarms Samples.scenario_a [] 1%Q 2 "D1"
                  = Done [run_record (product_data Samples.scenario_a "D1")
                            [] "D1" 2 4])
    by (vm_compute; reflexivity).
  assert (Hdone' : product_alarms Samples.scenario_a [] 1.5%Q 2 "D1"
                   = Done [run_record (product_data Samples.scenario_a "D1")
                             [] "D1" 3 3])
    by (vm_compute; reflexivity).
  split; [exact Ha |]. split; [exact Hdone |]. split; [exact Hdone' |].
  exact (raising_alpha_shrinks_alarms Samples.scenario_a [] 1%Q 1.5%Q 2 "D1"
           _ _ _ Ha Hdone Hdone' (or_introl eq_refl)).
Defined.

(** X4: when the aggregate score of every row of a product is the largest
    of its sensor scores, as the generator writes it, and [alpha] is at
    least 1.0, every row of an alarm's period has an entry in
    [sensor_anomalies] with the row's time and its aggregate score; the
    evidence of such an alarm is never empty. *)
Theorem consistent_rows_give_evidence :
  forall (anomaly_df : list AnomalyRow) (alert_df : list AlertRow)
         (alpha : Q) (beta : Z) (pid : string)
         (listed : list Alarm) (a : Alarm),
    (1 <= alpha)%Q ->
    (forall row, In row anomaly_df -> product_id row = pid ->
       exists sensor_dict,
         sensor_anomaly_score row = Parsed sensor_dict
         /\ col_max (map snd sensor_dict) = Some (product_anomaly_score row)) ->
    product_alarms anomaly_df alert_df alpha beta pid = Done listed ->
    In a listed ->
    sensor_anomalies a <> []
    /\ exists s e,
        a = run_record (product_data anomaly_df pid) alert_df pid s e
        /\ forall k row,
            s <= k <= e ->
            nth_error (product_data anomaly_df pid) k = Some row ->
            exists sensor,
              In (mkSensorAnomaly (time row) sensor
                    (product_anomaly_score row))
                 (sensor_anomalies a).
Proof.
  intros anomaly_df alert_df alpha beta pid listed a Halpha Hcons Hdone Hin.
  apply product_alarms_Done in Hdone. subst listed.
  apply product_records_In in Hin as (s & e & Hrun & _ & ->).
  set (data := product_data anomaly_df pid) in *.
  pose proof (maximal_run_range _ _ _ _ Hrun) as [Hse He].
  destruct Hrun as (_ & Hall & _).
  assert (Hrows : forall k row,
             s <= k <= e -> nth_error data k = Some row ->
             exists sensor,
               In (mkSensorAnomaly (time row) sensor
                     (product_anomaly_score row))
                  (sensor_anomalies (run_record data alert_df pid s e))).
  { intros k row Hk Hrow.
    assert (Hin : In row data) by (eapply nth_error_In; eassumption).
    apply product_data_In in Hin as [Hin Hpid].
    destruct (Hcons row Hin Hpid) as (sensor_dict & Hcell & Hmax).
    destruct (Hall k Hk) as (row' & Hrow' & Hlt).
    assert (row' = row) by congruence. subst row'.
    destruct (col_max_spec (map snd sensor_dict)) as (m & Hm & Hm_in & _).
    { intros Hnil. rewrite Hnil in Hmax. discriminate. }
    rewrite Hmax in Hm. inversion Hm; subst m.
    apply in_map_iff in Hm_in as ([sensor score] & Hscore & Hitem).
    simpl in Hscore. subst score.
    exists sensor.
    change (In (mkSensorAnomaly (time row) sensor (product_anomaly_score row))
               (flat_map row_anomalies (iloc_slice data s (e + 1)))).
    apply in_flat_map. exists row. split.
    - apply iloc_slice_In. exists k. split; [lia | assumption].
    - apply row_anomalies_In.
      exists sensor_dict, sensor, (product_anomaly_score row).
      repeat split; try assumption.
      apply Qlt_le_weak. eapply Qle_lt_trans; eassumption. }
  split.
  - destruct (nth_error data s) as [row |] eqn:Hrow;
      [| apply nth_error_None in Hrow; lia].
    destruct (Hrows s row ltac:(lia) Hrow) as (sensor & Hin).
    intros Hnil. rewrite Hnil in Hin. destruct Hin.
  - exists s, e. split; [reflexivity | exact Hrows].
Qed.

Lemma consistent_rows_give_evidence_witness :
  (1 <= 1)%Q
  /\ (forall row, In row Samples.scenario_a -> product_id row = "D1"%string ->
        exists sensor_dict,
          sensor_anomaly_score row = Parsed sensor_dict
          /\ col_max (map snd sensor_dict) = Some (product_anomaly_score row))
  /\ product_alarms Samples.scenario_a [] 1%Q 4 "D1"
     = Done [run_record (product_data Samples.scenario_a "D1") [] "D1" 2 4]
  /\ sensor_anomalies
       (run_record (product_data Samples.scenario_a "D1") [] "D1" 2 4)
     <> [].
Proof.
  assert (Ha : (1 <= 1)%Q) by apply Qle_refl.
  assert (Hcons : forall row,
             In row Samples.scenario_a -> product_id row = "D1"%string ->
             exists sensor_dict,
               sensor_anomaly_score row = Parsed sensor_dict
               /\ col_max (map snd sensor_dict)
                  = Some (product_anomaly_score row)).
  { intros row Hin _. simpl in Hin.
    repeat (destruct Hin as [<- | Hin];
            [eexists; split; reflexivity |]).
    destruct Hin. }
  assert (Hdone : product_alarms Samples.scenario_a [] 1%Q 4 "D1"
                  = Done [run_record (product_data Samples.scenario_a "D1")
                            [] "D1" 2 4])
    by (vm_compute; reflexivity).
  split; [exact Ha |]. split; [exact Hcons |]. split; [exact Hdone |].
  exact (proj1 (consistent_rows_give_evidence Samples.scenario_a [] 1%Q 4
                  "D1" _ _ Ha Hcons Hdone (or_introl eq_refl))).
Defined.

(** ** The order of text *)

Lemma ascii_compare_refl (a : ascii) : Ascii.compare a a = Eq.
Proof. unfold Ascii.compare. apply N.compare_refl. Qed.

Lemma ascii_compare_lt_trans (a b c : ascii) :
  Ascii.compare a b = Lt -> Ascii.compare b c = Lt -> Ascii.compare a c = Lt.
Proof.
  unfold Ascii.compare. rewrite !N.compare_lt_iff. apply N.lt_trans.
Qed.

Lemma string_leb_refl (s : string) : String.leb s s = true.
Proof. destruct (String.leb_total s s); assumption. Qed.

Lemma string_compare_trans (s1 s2 s3 : string) :
  String.compare s1 s2 <> Gt -> String.compare s2 s3 <> Gt ->
  String.compare s1 s3 <> Gt.
Proof.
  revert s2 s3. induction s1 as [| c1 s1 IH]; intros s2 s3 H12 H23.
  - destruct s3; discriminate.
  - destruct s2 as [| c2 s2]; [simpl in H12; congruence |].
    destruct s3 as [| c3 s3]; [simpl in H23; congruence |].
    simpl in *.
    destruct (Ascii.compare c1 c2) eqn:E12; [| | congruence];
      destruct (Ascii.compare c2 c3) eqn:E23; try congruence.
    + apply Ascii.compare_eq_iff in E12, E23. subst.
      rewrite ascii_compare_refl. apply (IH s2); assumption.
    + apply Ascii.compare_eq_iff in E12. subst. rewrite E23. discriminate.
    + apply Ascii.compare_eq_iff in E23. subst. rewrite E12. discriminate.
    + rewrite (ascii_compare_lt_trans _ _ _ E12 E23). discriminate.
Qed.

Lemma string_leb_trans (s1 s2 s3 : string) :
  String.leb s1 s2 = true -> String.leb s2 s3 = true ->
  String.leb s1 s3 = true.
Proof.
  unfold String.leb. intros H12 H23.
  pose proof (string_compare_trans s1 s2 s3) as Htrans.
  destruct (String.compare s1 s2); try discriminate;
    destruct (String.compare s2 s3); try discriminate;
    destruct (String.compare s1 s3); try reflexivity;
    exfalso; apply Htrans; congruence.
Qed.

Lemma insert_str_sorted (x : string) (l : list string) :
  StronglySorted (fun a b => String.leb a b = true) l ->
  StronglySorted (fun a b => String.leb a b = true) (insert_str x l).
Proof.
  induction 1 as [| y rest Hsorted IH Hall]; simpl.
  - repeat constructor.
  - destruct (String.leb y x) eqn:Hle.
    + constructor; [assumption |].
      rewrite (insert_str_perm x rest). constructor; assumption.
    + assert (Hxy : String.leb x y = true)
        by (destruct (String.leb_total x y); congruence).
      constructor; [constructor; assumption |].
      constructor; [assumption |].
      eapply Forall_impl; [| exact Hall]. simpl. intros b Hb.
      eapply string_leb_trans; eassumption.
Qed.

Lemma sorted_str_sorted (col : list string) :
  StronglySorted (fun a b => String.leb a b = true) (sorted_str col).
Proof.
  unfold sorted_str.
  assert (H : forall acc,
             StronglySorted (fun a b => String.leb a b = true) acc ->
             StronglySorted (fun a b => String.leb a b = true)
               (fold_left (fun acc x => insert_str x acc) col acc)).
  { induction col as [| x rest IH]; intros acc Hacc; simpl.
    - assumption.
    - apply IH, insert_str_sorted. assumption. }
  apply H. constructor.
Qed.

Lemma unique_NoDup (col : list string) : NoDup (unique col).
Proof.
  induction col as [| x rest IH]; simpl.
  - constructor.
  - constructor.
    + rewrite filter_In, negb_true_iff, String.eqb_neq. tauto.
    + apply NoDup_filter. assumption.
Qed.

Lemma product_ids_NoDup (anomaly_df : list AnomalyRow) :
  NoDup (sorted_str (unique (map product_id anomaly_df))).
Proof.
  eapply Permutation_NoDup; [| apply unique_NoDup].
  symmetry. apply sorted_str_perm.
Qed.

Lemma product_records_id (anomaly_df : list AnomalyRow)
    (alert_df : list AlertRow) (alpha : Q) (beta : Z) (pid : string)
    (a : Alarm) :
  In a (product_records anomaly_df alert_df alpha beta pid) ->
  alarm_product_id a = pid.
Proof.
  intros Hin. apply product_records_In in Hin as (s & e & _ & _ & ->).
  reflexivity.
Qed.

Lemma filter_all {A : Type} (f : A -> bool) (l : list A) :
  (forall x, In x l -> f x = true) -> filter f l = l.
Proof.
  induction l as [| x rest IH]; intros Hf; simpl.
  - reflexivity.
  - rewrite (Hf x) by (left; reflexivity). f_equal.
    apply IH. intros y Hy. apply Hf. right. assumption.
Qed.

Lemma flat_map_nil {A B : Type} (g : A -> list B) (l : list A) :
  (forall y, In y l -> g y = []) -> flat_map g l = [].
Proof.
  induction l as [| y rest IH]; intros Hg; simpl.
  - reflexivity.
  - rewrite (Hg y) by (left; reflexivity).
    apply IH. intros z Hz. apply Hg. right. assumption.
Qed.

Lemma flat_map_single {A B : Type} (f : A -> list B) (g : A -> list B)
    (x : A) (l : list A) :
  NoDup l -> In x l ->
  (forall y, y <> x -> g y = []) -> g x = f x ->
  flat_map g l = f x.
Proof.
  intros Hnd Hin Hother Hx. induction Hnd as [| y rest Hnotin Hnd IH]; simpl.
  - destruct Hin.
  - destruct Hin as [-> | Hin].
    + rewrite Hx, flat_map_nil; [apply app_nil_r |].
      intros z Hz. apply Hother. intros ->. contradiction.
    + rewrite (Hother y) by (intros ->; contradiction).
      apply IH. assumption.
Qed.

Lemma alarm_records_grouped :
  forall (anomaly_df : list AnomalyRow) (alert_df : list AlertRow)
         (alpha : Q) (beta : Z),
    StronglySorted (fun p q => String.leb p q = true)
      (map alarm_product_id (alarm_records anomaly_df alert_df alpha beta))
    /\ forall pid,
        filter (fun a => String.eqb (alarm_product_id a) pid)
               (alarm_records anomaly_df alert_df alpha beta)
        = product_records anomaly_df alert_df alpha beta pid.
Proof.
  intros anomaly_df alert_df alpha beta. rewrite alarm_records_flat_map.
  pose proof (sorted_str_sorted (unique (map product_id anomaly_df))) as Hs.
  pose proof (product_ids_NoDup anomaly_df) as Hnd.
  pose proof (product_ids_In anomaly_df) as Hids.
  set (ids := sorted_str (unique (map product_id anomaly_df))) in *.
  set (PA := product_records anomaly_df alert_df alpha beta).
  split.
  - clear Hnd Hids. induction Hs as [| p rest Hsorted IH Hall]; simpl.
    + constructor.
    + rewrite map_app.
      assert (Hp : Forall (fun q => q = p) (map alarm_product_id (PA p))).
      { apply Forall_forall. intros q Hq.
        apply in_map_iff in Hq as (a & <- & Ha).
        eapply product_records_id. exact Ha. }
      induction Hp as [| q qs Hq Hqs IHq]; simpl; [assumption |].
      subst q. constructor; [assumption |].
      apply Forall_app. split.
      * eapply Forall_impl; [| exact Hqs]. simpl. intros q ->.
        apply string_leb_refl.
      * apply Forall_forall. intros q Hq.
        apply in_map_iff in Hq as (a & <- & Ha).
        apply in_flat_map in Ha as (p' & Hp' & Ha).
        rewrite (product_records_id _ _ _ _ _ _ Ha).
        rewrite Forall_forall in Hall. apply Hall. assumption.
  - intros pid. rewrite filter_flat_map.
    destruct (in_dec string_dec pid ids) as [Hin | Hnotin].
    + apply (flat_map_single PA); [assumption | assumption | |].
      * intros q Hq. apply filter_none. intros a Ha.
        apply String.eqb_neq. rewrite (product_records_id _ _ _ _ _ _ Ha).
        assumption.
      * apply filter_all. intros a Ha. apply String.eqb_eq.
        eapply product_records_id. exact Ha.
    + rewrite flat_map_nil.
      * symmetry. apply product_records_unknown. intros row Hrow Hpid.
        apply Hnotin, Hids. eauto.
      * intros q Hq. apply filter_none. intros a Ha.
        apply String.eqb_neq. rewrite (product_records_id _ _ _ _ _ _ Ha).
        intros ->. contradiction.
Qed.

(** X5: the page lists the alarms product by product, in ascending order
    of the product id, and the alarms it lists for one product are the
    alarms of that product's own scan, in the order of the scan. *)
Theorem alarms_grouped_by_product :
  forall (anomaly_df : list AnomalyRow) (alert_df : list AlertRow)
         (alpha : Q) (beta : Z) (listed : list Alarm),
    alarms anomaly_df alert_df alpha beta = Done listed ->
    StronglySorted (fun p q => String.leb p q = true)
      (map alarm_product_id listed)
    /\ forall pid,
        product_alarms anomaly_df alert_df alpha beta pid
        = Done (filter (fun a => String.eqb (alarm_product_id a) pid) listed).
Proof.
  intros anomaly_df alert_df alpha beta listed Hdone.
  apply alarms_Done_iff in Hdone as [Hnone ->].
  destruct (alarm_records_grouped anomaly_df alert_df alpha beta)
    as [Hsorted Hfilter].
  split; [exact Hsorted |]. intros pid.
  apply product_alarms_Done_iff. split.
  - apply page_raised_None. exact Hnone.
  - apply Hfilter.
Qed.

Lemma alarms_grouped_by_product_witness :
  alarms [Samples.row 0 "B" 2.0%Q; Samples.row 0 "A" 2.0%Q] [] 1%Q 2
  = Done (alarm_records
            [Samples.row 0 "B" 2.0%Q; Samples.row 0 "A" 2.0%Q] [] 1%Q 2)
  /\ StronglySorted (fun p q => String.leb p q = true)
       (map alarm_product_id
            (alarm_records
               [Samples.row 0 "B" 2.0%Q; Samples.row 0 "A" 2.0%Q] [] 1%Q 2)).
Proof.
  assert (Hdone : alarms [Samples.row 0 "B" 2.0%Q; Samples.row 0 "A" 2.0%Q]
                    [] 1%Q 2
                  = Done (alarm_records
                            [Samples.row 0 "B" 2.0%Q; Samples.row 0 "A" 2.0%Q]
                            [] 1%Q 2)) by reflexivity.
  split; [exact Hdone |].
  exact (proj1 (alarms_grouped_by_product _ [] 1%Q 2 _ Hdone)).
Defined.

(** The two products of a frame, each with one run, come out in the order
    of their ids although B comes first in the file. *)
Example page_orders_products :
  alarms [Samples.row 0 "B" 2.0%Q; Samples.row 0 "A" 2.0%Q] [] 1%Q 2
  = Done (alarm_records
            [Samples.row 0 "B" 2.0%Q; Samples.row 0 "A" 2.0%Q] [] 1%Q 2)
  /\ map alarm_product_id
         (alarm_records [Samples.row 0 "B" 2.0%Q; Samples.row 0 "A" 2.0%Q]
            [] 1%Q 2)
     = ["A"%string; "B"%string].
Proof. split; reflexivity. Qed.

(** ** The order of the rows in the file *)

Lemma perm_filter {A : Type} (f : A -> bool) (l l' : list A) :
  Permutation l l' -> Permutation (filter f l) (filter f l').
Proof.
  induction 1 as [| x l l' Hp IH | x y l | l l' l'' Hp1 IH1 Hp2 IH2]; simpl.
  - constructor.
  - destruct (f x); [constructor |]; assumption.
  - destruct (f x), (f y); try reflexivity. apply perm_swap.
  - etransitivity; eassumption.
Qed.

(** A list has one ordering at most under an order without ties. *)
Lemma sorted_perm_unique {A : Type} (R : A -> A -> Prop) (l1 l2 : list A) :
  (forall x y, R x y -> R y x -> False) ->
  Permutation l1 l2 -> StronglySorted R l1 -> StronglySorted R l2 ->
  l1 = l2.
Proof.
  intros Hasym. revert l2.
  induction l1 as [| x r1 IH]; intros l2 Hperm Hs1 Hs2.
  - apply Permutation_nil in Hperm. congruence.
  - destruct l2 as [| y r2].
    + symmetry in Hperm. apply Permutation_nil in Hperm. discriminate.
    + inversion Hs1 as [| ? ? Hr1 Hall1]; subst.
      inversion Hs2 as [| ? ? Hr2 Hall2]; subst.
      rewrite Forall_forall in Hall1, Hall2.
      assert (Hxy : x = y).
      { assert (Hx : In x (y :: r2))
          by (eapply Permutation_in; [exact Hperm | left; reflexivity]).
        assert (Hy : In y (x :: r1))
          by (eapply Permutation_in;
              [symmetry; exact Hperm | left; reflexivity]).
        destruct Hx as [Hx | Hx]; [congruence |].
        destruct Hy as [Hy | Hy]; [congruence |].
        exfalso. apply (Hasym x y); [apply Hall1 | apply Hall2]; assumption. }
      subst y. f_equal. apply IH; try assumption.
      eapply Permutation_cons_inv. exact Hperm.
Qed.

Lemma product_data_perm (anomaly_df anomaly_df' : list AnomalyRow)
    (pid : string) :
  Permutation anomaly_df anomaly_df' ->
  NoDup (map time (filter (fun row => String.eqb (product_id row) pid)
                          anomaly_df)) ->
  product_data anomaly_df' pid = product_data anomaly_df pid.
Proof.
  intros Hperm Hnd. unfold product_data.
  set (f := fun row => String.eqb (product_id row) pid) in *.
  assert (Hf : Permutation (filter f anomaly_df) (filter f anomaly_df'))
    by (apply perm_filter; assumption).
  apply (sorted_perm_unique (fun a b => (time a < time b)%Z)).
  - intros x y Hxy Hyx. lia.
  - rewrite !sort_values_perm. symmetry. assumption.
  - apply sort_values_strict.
    eapply Permutation_NoDup; [| exact Hnd]. apply Permutation_map. assumption.
  - apply sort_values_strict. assumption.
Qed.

Lemma product_ids_perm (anomaly_df anomaly_df' : list AnomalyRow) :
  Permutation anomaly_df anomaly_df' ->
  sorted_str (unique (map product_id anomaly_df')) =
  sorted_str (unique (map product_id anomaly_df)).
Proof.
  intros Hperm.
  assert (Hstrict : forall df,
             StronglySorted
               (fun p q => String.leb p q = true /\ p <> q)
               (sorted_str (unique (map product_id df)))).
  { intros df. pose proof (sorted_str_sorted (unique (map product_id df))) as Hs.
    pose proof (product_ids_NoDup df) as Hnd.
    induction Hs as [| p rest Hsorted IH Hall]; [constructor |].
    inversion Hnd as [| ? ? Hnotin Hnd']; subst.
    constructor; [apply IH; assumption |].
    rewrite Forall_forall in *. intros q Hq.
    split; [apply Hall; assumption | intros ->; contradiction]. }
  apply (sorted_perm_unique
           (fun p q => String.leb p q = true /\ p <> q)).
  - intros p q [Hpq Hne] [Hqp _]. apply Hne. apply String.leb_antisym; auto.
  - apply NoDup_Permutation; try apply product_ids_NoDup.
    intros pid. rewrite !product_ids_In. split.
    + intros (row & Hin & Hpid). exists row. split; [| assumption].
      eapply Permutation_in; [symmetry; exact Hperm | assumption].
    + intros (row & Hin & Hpid). exists row. split; [| assumption].
      eapply Permutation_in; [exact Hperm | assumption].
  - apply Hstrict.
  - apply Hstrict.
Qed.

(** X6: when no product has two rows with the same time, the alarms do not
    depend on the order of the rows in the score file: every reordering of
    the rows gives the same list. *)
Theorem alarms_independent_of_row_order :
  forall (anomaly_df anomaly_df' : list AnomalyRow)
         (alert_df : list AlertRow) (alpha : Q) (beta : Z),
    Permutation anomaly_df anomaly_df' ->
    (forall pid,
        NoDup (map time (filter (fun row => String.eqb (product_id row) pid)
                                anomaly_df))) ->
    alarms anomaly_df' alert_df alpha beta =
    alarms anomaly_df alert_df alpha beta.
Proof.
  intros anomaly_df anomaly_df' alert_df alpha beta Hperm Hnd.
  rewrite !alarms_spec.
  assert (Hraised : page_raised anomaly_df' alpha beta
                    = page_raised anomaly_df alpha beta).
  { unfold page_raised. rewrite (product_ids_perm _ _ Hperm).
    apply first_of_ext. intros pid. unfold product_raised.
    rewrite (product_data_perm _ _ pid Hperm (Hnd pid)). reflexivity. }
  assert (Hrecords : alarm_records anomaly_df' alert_df alpha beta
                     = alarm_records anomaly_df alert_df alpha beta).
  { rewrite !alarm_records_flat_map, (product_ids_perm _ _ Hperm).
    apply flat_map_ext. intros pid. unfold product_records.
    rewrite (product_data_perm _ _ pid Hperm (Hnd pid)). reflexivity. }
  rewrite Hraised, Hrecords. reflexivity.
Qed.

Lemma alarms_independent_of_row_order_witness :
  Permutation Samples.scenario_a (rev Samples.scenario_a)
  /\ (forall pid,
        NoDup (map time (filter (fun row => String.eqb (product_id row) pid)
                                Samples.scenario_a)))
  /\ alarms (rev Samples.scenario_a) [] 1%Q 4 =
     alarms Samples.scenario_a [] 1%Q 4.
Proof.
  assert (Hperm : Permutation Samples.scenario_a (rev Samples.scenario_a))
    by apply Permutation_rev.
  assert (Hnd : forall pid,
             NoDup (map time
                      (filter (fun row => String.eqb (product_id row) pid)
                              Samples.scenario_a))).
  { intros pid. unfold Samples.scenario_a, Samples.row.
    cbn [filter product_id].
    destruct (String.eqb "D1" pid); cbn [map time].
    - repeat constructor; simpl; intuition discriminate.
    - constructor. }
  split; [exact Hperm |]. split; [exact Hnd |].
  exact (alarms_independent_of_row_order _ _ [] 1%Q 4 Hperm Hnd).
Defined.

(** * Further properties of the detail page *)

Module SummaryFacts.
Import DetailSummary.

Lemma window_table_sensors (window : list AnomalyRow) :
  flat_map snd (window_table window) = window_high_sensors window.
Proof.
  unfold window_table, window_high_sensors.
  induction window as [| row rest IH]; simpl; [reflexivity |].
  rewrite flat_map_app, IH. f_equal.
  destruct (row_high_sensors row) eqn:Hhs; simpl.
  - reflexivity.
  - rewrite app_nil_r. reflexivity.
Qed.

Lemma window_table_In (window : list AnomalyRow) (t : Z)
    (sensors : list (string * Q)) :
  In (t, sensors) (window_table window) <->
  sensors <> []
  /\ exists row sensor_dict,
       In row window /\ time row = t
       /\ sensor_anomaly_score row = Parsed sensor_dict
       /\ sensors = high_sensors sensor_dict.
Proof.
  unfold window_table. rewrite in_flat_map. split.
  - intros (row & Hrow & Hin).
    destruct (0 <? length (row_high_sensors row)) eqn:Hlen; [| destruct Hin].
    destruct Hin as [Heq | []]. inversion Heq; subst. clear Heq.
    split; [intros Hnil; rewrite Hnil in Hlen; discriminate |].
    unfold row_high_sensors in *.
    destruct (sensor_anomaly_score row) as [sensor_dict | e | e] eqn:Hcell;
      try discriminate.
    exists row, sensor_dict. auto.
  - intros (Hne & row & sensor_dict & Hrow & <- & Hcell & ->).
    exists row. split; [exact Hrow |].
    unfold row_high_sensors. rewrite Hcell.
    destruct (high_sensors sensor_dict) as [| item rest];
      [congruence | left; reflexivity].
Qed.

End SummaryFacts.

Import DetailSummary SummaryFacts.

(** X7: the table of section 2 and the diagnosis read the same sensors:
    when the loop of section 2 ends with its table, the loop of the
    diagnosis ends too and [high_sensor_list] is the rows of the table put
    end to end; no row of the table is empty, every score in it is at
    least 1.0, and every row comes from a row of the window that parses,
    with its time. *)
Theorem sensor_table_matches_diagnosis :
  forall (window : list AnomalyRow) (table : list (Z * list (string * Q))),
    sensor_data_list window = Done table ->
    high_sensor_list window = Done (flat_map snd table)
    /\ forall t sensors,
        In (t, sensors) table ->
        sensors <> []
        /\ (forall item, In item sensors -> (1 <= snd item)%Q)
        /\ exists row sensor_dict,
            In row window /\ time row = t
            /\ sensor_anomaly_score row = Parsed sensor_dict
            /\ sensors = high_sensors sensor_dict.
Proof.
  intros window table Hdone.
  rewrite sensor_data_list_spec in Hdone. rewrite high_sensor_list_spec.
  destruct (first_raised window); [discriminate |].
  inversion Hdone; subst table. clear Hdone. split.
  - rewrite window_table_sensors. reflexivity.
  - intros t sensors Hin.
    apply window_table_In in Hin
      as (Hne & row & sensor_dict & Hrow & Ht & Hcell & Hs).
    split; [exact Hne |]. split.
    + intros item Hitem. subst sensors.
      apply filter_In in Hitem as [_ Hge]. apply Qgeb_le. exact Hge.
    + exists row, sensor_dict. auto.
Qed.

Lemma sensor_table_matches_diagnosis_witness :
  sensor_data_list Samples.scenario_a
  = Done [(240%Z, [("temperature-sensor"%string, 1.5%Q)]);
          (360%Z, [("temperature-sensor"%string, 1.6%Q)]);
          (480%Z, [("temperature-sensor"%string, 1.4%Q)])]
  /\ high_sensor_list Samples.scenario_a
     = Done [("temperature-sensor"%string, 1.5%Q);
             ("temperature-sensor"%string, 1.6%Q);
             ("temperature-sensor"%string, 1.4%Q)].
Proof.
  assert (Hdone : sensor_data_list Samples.scenario_a
                  = Done [(240%Z, [("temperature-sensor"%string, 1.5%Q)]);
                          (360%Z, [("temperature-sensor"%string, 1.6%Q)]);
                          (480%Z, [("temperature-sensor"%string, 1.4%Q)])])
    by reflexivity.
  split; [exact Hdone |].
  exact (proj1 (sensor_table_matches_diagnosis Samples.scenario_a _ Hdone)).
Defined.

(** ** The sensor summary *)

Module DictFacts.
Import DetailSummary.

Lemma dict_get_None (key : string) (d : list (string * Q)) :
  dict_get key d = None <-> ~ In key (map fst d).
Proof.
  induction d as [| [k v] rest IH]; simpl.
  - tauto.
  - destruct (String.eqb_spec k key) as [-> | Hne].
    + split; [discriminate | intros H; exfalso; apply H; auto].
    + rewrite IH. tauto.
Qed.

Lemma dict_get_Some (key : string) (v : Q) (d : list (string * Q)) :
  dict_get key d = Some v -> In (key, v) d.
Proof.
  induction d as [| [k w] rest IH]; simpl; [discriminate |].
  destruct (String.eqb_spec k key) as [-> | Hne].
  - intros H. inversion H. auto.
  - auto.
Qed.

Lemma dict_set_new (key : string) (v : Q) (d : list (string * Q)) :
  ~ In key (map fst d) -> dict_set key v d = d ++ [(key, v)].
Proof.
  induction d as [| [k w] rest IH]; simpl; intros Hnotin.
  - reflexivity.
  - destruct (String.eqb_spec k key) as [-> | Hne]; [tauto |].
    rewrite IH by tauto. reflexivity.
Qed.

Lemma dict_set_keys (key : string) (v : Q) (d : list (string * Q)) :
  In key (map fst d) -> map fst (dict_set key v d) = map fst d.
Proof.
  induction d as [| [k w] rest IH]; simpl; intros Hin.
  - destruct Hin.
  - destruct (String.eqb_spec k key) as [-> | Hne]; simpl.
    + reflexivity.
    + f_equal. apply IH. destruct Hin; [contradiction | assumption].
Qed.

Lemma dict_set_In (key : string) (v : Q) (d : list (string * Q))
    (k' : string) (v' : Q) :
  NoDup (map fst d) -> In key (map fst d) ->
  (In (k', v') (dict_set key v d) <->
   (k' = key /\ v' = v) \/ (k' <> key /\ In (k', v') d)).
Proof.
  induction d as [| [k w] rest IH]; simpl; intros Hnd Hin.
  - destruct Hin.
  - inversion Hnd as [| ? ? Hnotin Hnd']; subst.
    destruct (String.eqb_spec k key) as [-> | Hne]; simpl.
    + split.
      * intros [Heq | Hrest]; [inversion Heq; auto |].
        right. split; [| auto]. intros ->. apply Hnotin.
        apply (in_map fst) in Hrest. exact Hrest.
      * intros [[-> ->] | [Hne [Heq | Hrest]]]; auto.
        inversion Heq. congruence.
    + assert (Hin' : In key (map fst rest))
        by (destruct Hin; [contradiction | assumption]).
      rewrite (IH Hnd' Hin'). split.
      * intros [Heq | [Hkv | [Hne' Hrest]]]; auto.
        inversion Heq; subst. right. split; auto.
      * intros [Hkv | [Hne' [Heq | Hrest]]]; auto.
Qed.

Lemma unique_sensors_step (d seen : list (string * Q)) (item : string * Q) :
  summarises d seen ->
  summarises
    (match dict_get (fst item) d with
     | None => dict_set (fst item) (snd item) d
     | Some old =>
         if Qltb old (snd item) then dict_set (fst item) (snd item) d
         else d
     end)
    (seen ++ [item]).
Proof.
  destruct item as [k0 v0]. simpl. intros (Hnd & Hkeys & Hmax).
  destruct (dict_get k0 d) as [old |] eqn:Hget.
  - apply dict_get_Some in Hget.
    assert (Hk0 : In k0 (map fst d)) by (apply (in_map fst) in Hget; exact Hget).
    destruct (Hmax _ _ Hget) as [Hold_seen Hold_max].
    destruct (Qltb old v0) eqn:Hlt.
    + unfold Qltb in Hlt. apply negb_true_iff in Hlt.
      assert (Hlt' : (old < v0)%Q).
      { apply Qnot_le_lt. intros Hle. apply Qle_bool_iff in Hle. congruence. }
      split; [rewrite dict_set_keys; assumption |]. split.
      * intros k. rewrite dict_set_keys by assumption.
        rewrite map_app, in_app_iff, Hkeys. simpl. split; [auto |].
        intros [H | [<- | []]]; [assumption | apply Hkeys; assumption].
      * intros k v Hin. apply (dict_set_In _ _ _ _ _ Hnd Hk0) in Hin.
        destruct Hin as [[-> ->] | [Hne Hin]].
        -- split; [apply in_or_app; right; left; reflexivity |].
           intros v' Hv'. apply in_app_or in Hv' as [Hv' | [Heq | []]].
           ++ apply Qlt_le_weak. eapply Qle_lt_trans; [| exact Hlt'].
              apply Hold_max. assumption.
           ++ inversion Heq. apply Qle_refl.
        -- destruct (Hmax _ _ Hin) as [Hseen Hle].
           split; [apply in_or_app; left; assumption |].
           intros v' Hv'. apply in_app_or in Hv' as [Hv' | [Heq | []]].
           ++ apply Hle. assumption.
           ++ inversion Heq. congruence.
    + unfold Qltb in Hlt. apply negb_false_iff, Qle_bool_iff in Hlt.
      split; [assumption |]. split.
      * intros k. rewrite map_app, in_app_iff, Hkeys. simpl. split; [auto |].
        intros [H | [<- | []]]; [assumption | apply Hkeys; assumption].
      * intros k v Hin. destruct (Hmax _ _ Hin) as [Hseen Hle].
        split; [apply in_or_app; left; assumption |].
        intros v' Hv'. apply in_app_or in Hv' as [Hv' | [Heq | []]].
        -- apply Hle. assumption.
        -- inversion Heq; subst.
           assert (v = old).
           { clear - Hnd Hin Hget. induction d as [| [k1 w] rest IH];
               [destruct Hin |].
             simpl in *. inversion Hnd as [| ? ? Hnotin Hnd']; subst.
             destruct Hin as [Hin | Hin], Hget as [Hget | Hget].
             - congruence.
             - inversion Hin; subst. exfalso. apply Hnotin.
               apply (in_map fst) in Hget. exact Hget.
             - inversion Hget; subst. exfalso. apply Hnotin.
               apply (in_map fst) in Hin. exact Hin.
             - apply IH; assumption. }
           subst. assumption.
  - apply dict_get_None in Hget.
    assert (Hnew : ~ In k0 (map fst seen)) by (rewrite <- Hkeys; assumption).
    rewrite dict_set_new by assumption.
    split; [| split].
    + rewrite map_app. simpl. apply NoDup_app; [assumption | | ].
      * repeat constructor. intros [].
      * intros k Hk [<- | []]. contradiction.
    + intros k. rewrite !map_app, !in_app_iff, Hkeys. tauto.
    + intros k v Hin. apply in_app_or in Hin as [Hin | [Heq | []]].
      * destruct (Hmax _ _ Hin) as [Hseen Hle].
        split; [apply in_or_app; left; assumption |].
        intros v' Hv'. apply in_app_or in Hv' as [Hv' | [Heq | []]].
        -- apply Hle. assumption.
        -- inversion Heq; subst. exfalso. apply Hnew.
           apply (in_map fst) in Hseen. exact Hseen.
      * inversion Heq; subst.
        split; [apply in_or_app; right; left; reflexivity |].
        intros v' Hv'. apply in_app_or in Hv' as [Hv' | [Heq' | []]].
        -- exfalso. apply Hnew. apply (in_map fst) in Hv'. exact Hv'.
        -- inversion Heq'. apply Qle_refl.
Qed.

Lemma unique_sensors_summarises (sensors : list (string * Q)) :
  summarises (unique_sensors sensors) sensors.
Proof.
  unfold unique_sensors.
  assert (H : forall d seen,
             summarises d seen ->
             summarises
               (fold_left
                  (fun d item =>
                     match dict_get (fst item) d with
                     | None => dict_set (fst item) (snd item) d
                     | Some old =>
                         if Qltb old (snd item)
                         then dict_set (fst item) (snd item) d
                         else d
                     end) sensors d)
               (seen ++ sensors)).
  { induction sensors as [| item rest IH]; intros d seen Hd; simpl.
    - rewrite app_nil_r. assumption.
    - replace (seen ++ item :: rest) with ((seen ++ [item]) ++ rest)
        by (rewrite <- app_assoc; reflexivity).
      apply IH, unique_sensors_step. assumption. }
  apply (H [] []). split; [constructor |]. split.
  - intros k. simpl. tauto.
  - intros k v [].
Qed.

Lemma insert_desc_perm (item : string * Q) (l : list (string * Q)) :
  Permutation (insert_desc item l) (item :: l).
Proof.
  induction l as [| x rest IH]; simpl.
  - reflexivity.
  - destruct (Qle_bool (snd item) (snd x)).
    + rewrite IH. apply perm_swap.
    + reflexivity.
Qed.

Lemma insert_desc_sorted (item : string * Q) (l : list (string * Q)) :
  StronglySorted (fun x y => (snd y <= snd x)%Q) l ->
  StronglySorted (fun x y => (snd y <= snd x)%Q) (insert_desc item l).
Proof.
  induction 1 as [| x rest Hsorted IH Hall]; simpl.
  - repeat constructor.
  - destruct (Qle_bool (snd item) (snd x)) eqn:Hle.
    + apply Qle_bool_iff in Hle. constructor; [assumption |].
      rewrite (insert_desc_perm item rest). constructor; assumption.
    + assert (Hlt : (snd x < snd item)%Q).
      { apply Qnot_le_lt. intros H. apply Qle_bool_iff in H. congruence. }
      constructor; [constructor; assumption |].
      constructor; [apply Qlt_le_weak; assumption |].
      eapply Forall_impl; [| exact Hall]. simpl. intros y Hy.
      eapply Qle_trans; [exact Hy | apply Qlt_le_weak; assumption].
Qed.

Lemma sorted_desc_spec (items : list (string * Q)) :
  Permutation (sorted_desc items) items
  /\ StronglySorted (fun x y => (snd y <= snd x)%Q) (sorted_desc items).
Proof.
  unfold sorted_desc.
  assert (H : forall acc,
             StronglySorted (fun x y => (snd y <= snd x)%Q) acc ->
             Permutation
               (fold_left (fun acc item => insert_desc item acc) items acc)
               (acc ++ items)
             /\ StronglySorted (fun x y => (snd y <= snd x)%Q)
                  (fold_left (fun acc item => insert_desc item acc)
                     items acc)).
  { induction items as [| item rest IH]; intros acc Hacc; simpl.
    - rewrite app_nil_r. split; [reflexivity | assumption].
    - destruct (IH (insert_desc item acc)) as [Hp Hs];
        [apply insert_desc_sorted; assumption |].
      split; [| assumption].
      rewrite Hp, insert_desc_perm. apply Permutation_middle. }
  apply (H []). constructor.
Qed.

End DictFacts.
Import DictFacts.

(** X8: the sensor summary of the diagnosis names every sensor of
    [high_sensor_list] once, with the largest of the scores the list has
    for it, and orders the sensors by score, highest first. *)
Theorem sensor_summary_max_per_sensor :
  forall (sensors : list (string * Q)),
    NoDup (map fst (sensor_summary sensors))
    /\ (forall sensor,
          In sensor (map fst (sensor_summary sensors)) <->
          In sensor (map fst sensors))
    /\ (forall sensor score,
          In (sensor, score) (sensor_summary sensors) ->
          In (sensor, score) sensors
          /\ forall score', In (sensor, score') sensors ->
                            (score' <= score)%Q)
    /\ StronglySorted (fun x y => (snd y <= snd x)%Q)
                      (sensor_summary sensors).
Proof.
  intros sensors. unfold sensor_summary.
  destruct (sorted_desc_spec (unique_sensors sensors)) as [Hperm Hsorted].
  destruct (unique_sensors_summarises sensors) as (Hnd & Hkeys & Hmax).
  split; [| split; [| split]].
  - eapply Permutation_NoDup; [| exact Hnd].
    apply Permutation_map. symmetry. assumption.
  - intros sensor. rewrite <- Hkeys. split; apply Permutation_in;
      apply Permutation_map; [assumption | symmetry; assumption].
  - intros sensor score Hin. apply Hmax.
    eapply Permutation_in; [exact Hperm | assumption].
  - assumption.
Qed.

Lemma sensor_summary_max_per_sensor_witness :
  In ("a"%string, 2.5%Q)
     (sensor_summary [("a"%string, 1.2%Q); ("b"%string, 1.9%Q);
                      ("a"%string, 2.5%Q); ("a"%string, 2.0%Q)])
  /\ (1.2 <= 2.5)%Q
  /\ sensor_summary [("a"%string, 1.2%Q); ("b"%string, 1.9%Q);
                     ("a"%string, 2.5%Q); ("a"%string, 2.0%Q)]
     = [("a"%string, 2.5%Q); ("b"%string, 1.9%Q)].
Proof.
  assert (Hin : In ("a"%string, 2.5%Q)
                   (sensor_summary [("a"%string, 1.2%Q); ("b"%string, 1.9%Q);
                                    ("a"%string, 2.5%Q);
                                    ("a"%string, 2.0%Q)])).
  { vm_compute. left. reflexivity. }
  destruct (sensor_summary_max_per_sensor
              [("a"%string, 1.2%Q); ("b"%string, 1.9%Q);
               ("a"%string, 2.5%Q); ("a"%string, 2.0%Q)])
    as (_ & _ & Hmax & _).
  split; [exact Hin |]. split; [| reflexivity].
  apply (proj2 (Hmax _ _ Hin)). left. reflexivity.
Defined.

(** ** The alert summary *)

Lemma alert_types_unique (window_alerts : list AlertRow) :
  alert_types window_alerts = unique (map identifier window_alerts).
Proof. destruct window_alerts; reflexivity. Qed.

Lemma sum_split_key (c : string -> nat) (x : string) (keys : list string) :
  NoDup keys ->
  list_sum (map c keys) =
  (if in_dec string_dec x keys then c x else 0)
  + list_sum (map c (filter (fun y => negb (String.eqb x y)) keys)).
Proof.
  induction 1 as [| k rest Hnotin Hnd IH]; simpl.
  - reflexivity.
  - destruct (String.eqb_spec x k) as [Heq | Hne]; simpl.
    + subst k. destruct (string_dec x x) as [Hx | Hn]; [| congruence].
      rewrite IH. destruct (in_dec string_dec x rest); [contradiction |].
      lia.
    + destruct (string_dec k x) as [Heq | Hkx]; [congruence |].
      rewrite IH. destruct (in_dec string_dec x rest); lia.
Qed.

Lemma counts_add_up (col : list string) :
  list_sum (map (fun t => length (filter (fun x => String.eqb x t) col))
                (unique col))
  = length col.
Proof.
  induction col as [| x rest IH]; simpl; [reflexivity |].
  rewrite String.eqb_refl. simpl. f_equal.
  rewrite <- IH.
  rewrite (sum_split_key
             (fun t => length (filter (fun y => String.eqb y t) rest))
             x (unique rest) (unique_NoDup rest)).
  f_equal.
  - destruct (in_dec string_dec x (unique rest)) as [Hin | Hnotin];
      [reflexivity |].
    rewrite filter_none; [reflexivity |].
    intros y Hy. apply String.eqb_neq. intros ->.
    apply Hnotin, unique_In. assumption.
  - f_equal. apply map_ext_in. intros t Ht.
    apply filter_In in Ht as [_ Hne]. apply negb_true_iff in Hne.
    rewrite Hne. reflexivity.
Qed.

(** X9: the alert summary names every identifier of the window's alerts
    once, in the order of first appearance; every count is the number of
    alerts with that identifier and is at least 1; and the counts add up to
    the number of alerts of the window. *)
Theorem alert_counts_add_up :
  forall (window_alerts : list AlertRow),
    NoDup (map fst (alert_counts window_alerts))
    /\ (forall alert_type,
          In alert_type (map fst (alert_counts window_alerts)) <->
          exists ev, In ev window_alerts /\ identifier ev = alert_type)
    /\ (forall alert_type n,
          In (alert_type, n) (alert_counts window_alerts) ->
          1 <= n
          /\ n = length (filter (fun ev => String.eqb (identifier ev)
                                                      alert_type)
                                window_alerts))
    /\ list_sum (map snd (alert_counts window_alerts))
       = length window_alerts.
Proof.
  intros window_alerts. unfold alert_counts.
  rewrite alert_types_unique, !map_map. simpl.
  rewrite map_id.
  split; [apply unique_NoDup |]. split; [| split].
  - intros alert_type. rewrite unique_In, in_map_iff.
    split; intros (ev & H1 & H2); eauto.
  - intros alert_type n Hin.
    apply in_map_iff in Hin as (t & Heq & Hin). inversion Heq; subst.
    split; [| reflexivity].
    apply unique_In, in_map_iff in Hin as (ev & Hid & Hev).
    assert (Hf : In ev (filter (fun ev0 => String.eqb (identifier ev0)
                                                      alert_type)
                               window_alerts))
      by (apply filter_In; split; [assumption | apply String.eqb_eq; auto]).
    destruct (filter _ window_alerts); [destruct Hf | simpl; lia].
  - rewrite <- (length_map identifier window_alerts).
    rewrite <- (counts_add_up (map identifier window_alerts)).
    f_equal. apply map_ext. intros t.
    rewrite <- (length_map identifier
                  (filter (fun ev => String.eqb (identifier ev) t)
                          window_alerts)).
    f_equal. rewrite filter_map_swap. reflexivity.
Qed.

Lemma alert_counts_add_up_witness :
  In ("스톨"%string, 2) (alert_counts Samples.sample_alerts)
  /\ 1 <= 2
  /\ list_sum (map snd (alert_counts Samples.sample_alerts)) = 5.
Proof.
  assert (Hin : In ("스톨"%string, 2) (alert_counts Samples.sample_alerts)).
  { vm_compute. right. right. left. reflexivity. }
  destruct (alert_counts_add_up Samples.sample_alerts)
    as (_ & _ & Hcount & Hsum).
  split; [exact Hin |]. split; [exact (proj1 (Hcount _ _ Hin)) |].
  exact Hsum.
Defined.

(** ** The past actions *)

Lemma sorted_firstn_skipn {A : Type} (R : A -> A -> Prop) (n : nat)
    (l : list A) :
  StronglySorted R l ->
  forall a b, In a (firstn n l) -> In b (skipn n l) -> R a b.
Proof.
  intros Hsorted. revert n.
  induction Hsorted as [| x rest Hs IH Hall]; intros n a b Ha Hb.
  - destruct n; destruct Ha.
  - destruct n as [| n]; [destruct Ha |]. simpl in Ha, Hb.
    destruct Ha as [<- | Ha].
    + rewrite Forall_forall in Hall. apply Hall.
      rewrite <- (firstn_skipn n rest). apply in_or_app. right. assumption.
    + apply (IH n); assumption.
Qed.

(** X10: the past cases of the diagnosis are at most three actions of the
    selected product, and they are its most recent ones: no action of the
    product that is left out has a later date than one that is listed. *)
Theorem similar_actions_most_recent :
  forall (action_history_df : list ActionRow) (pid : string),
    length (similar_actions (filtered_action_history action_history_df pid))
    <= 3
    /\ (forall a,
          In a (similar_actions
                  (filtered_action_history action_history_df pid)) ->
          In a action_history_df /\ action_product_id a = pid)
    /\ (forall a b,
          In a (similar_actions
                  (filtered_action_history action_history_df pid)) ->
          In b (skipn 3 (filtered_action_history action_history_df pid)) ->
          (action_date b <= action_date a)%Z)
    /\ Permutation
         (similar_actions (filtered_action_history action_history_df pid)
          ++ skipn 3 (filtered_action_history action_history_df pid))
         (filter (fun a => String.eqb (action_product_id a) pid)
                 action_history_df).
Proof.
  intros action_history_df pid.
  destruct (filtered_action_history_spec action_history_df pid)
    as [Hperm Hsorted].
  rewrite similar_actions_firstn.
  split; [apply firstn_le_length |]. split; [| split].
  - intros a Ha.
    assert (Hin : In a (filtered_action_history action_history_df pid)).
    { rewrite <- (firstn_skipn 3 _). apply in_or_app. left. assumption. }
    apply (Permutation_in _ Hperm), filter_In in Hin as [Hin Hpid].
    apply String.eqb_eq in Hpid. auto.
  - intros a b Ha Hb.
    apply (sorted_firstn_skipn _ 3 _ Hsorted a b Ha Hb).
  - rewrite firstn_skipn. assumption.
Qed.

Lemma similar_actions_most_recent_witness :
  In (mkActionRow 30 "D1" "과열" "-" "온도센서교체")
     (similar_actions
        (filtered_action_history Samples.scenario_e_actions "D1"))
  /\ action_product_id (mkActionRow 30 "D1" "과열" "-" "온도센서교체")
     = "D1"%string.
Proof.
  assert (Hin : In (mkActionRow 30 "D1" "과열" "-" "온도센서교체")
                   (similar_actions
                      (filtered_action_history Samples.scenario_e_actions
                         "D1"))).
  { vm_compute. left. reflexivity. }
  destruct (similar_actions_most_recent Samples.scenario_e_actions "D1")
    as (_ & Hfrom & _).
  split; [exact Hin | exact (proj2 (Hfrom _ Hin))].
Defined.

(** ** The other severities and the end of the page *)

(** X11: below 2.5 the recommendations do not look at alerts or past
    actions.  With the largest score in [1.5, 2.5) the severity is Medium
    and the list is the monitoring line, the sensor line exactly when some
    row of the window that parses has a sensor at 1.0 or more, and the
    maintenance line; with the largest score below 1.5 the severity is Low
    and the list is the two fixed lines, even when sensors are at 1.0 or
    more. *)
Theorem medium_and_low_recommendations :
  forall (float_repr : Q -> string) (str_repr : string -> string)
         (window : list AnomalyRow) (window_alerts : list AlertRow)
         (history : list ActionRow) (m : Q) (d : Diagnosis),
    col_max (map product_anomaly_score window) = Some m ->
    ai_diagnosis float_repr str_repr window window_alerts history = Done d ->
    ((1.5 <= m)%Q -> (m < 2.5)%Q ->
     severity d = Medium
     /\ ((exists row sensor_dict item,
            In row window /\ sensor_anomaly_score row = Parsed sensor_dict
            /\ In item sensor_dict /\ (1 <= snd item)%Q) ->
         recommendations d
         = [rec_keep_monitoring; rec_inspect_sensors; rec_preventive])
     /\ (~ (exists row sensor_dict item,
              In row window /\ sensor_anomaly_score row = Parsed sensor_dict
              /\ In item sensor_dict /\ (1 <= snd item)%Q) ->
         recommendations d = [rec_keep_monitoring; rec_preventive]))
    /\ ((m < 1.5)%Q ->
        severity d = Low
        /\ recommendations d = [rec_regular_schedule; rec_monitor_state]).
Proof.
  intros float_repr str_repr window window_alerts history m d Hm Hd.
  rewrite ai_diagnosis_spec in Hd.
  destruct (first_raised window); [discriminate |].
  inversion Hd; subst d. clear Hd.
  unfold diagnosis_of. rewrite Hm. simpl severity. simpl recommendations.
  unfold severity_of, recommendations_of. split.
  - intros H15 H25. apply nan_geb_le in H15. apply nan_geb_lt in H25.
    rewrite H25, H15. split; [reflexivity |].
    assert (Hlist : (exists row sensor_dict item,
                        In row window
                        /\ sensor_anomaly_score row = Parsed sensor_dict
                        /\ In item sensor_dict /\ (1 <= snd item)%Q)
                    <-> window_high_sensors window <> []).
    { split.
      - intros (row & d & item & Hrow & Hd & Hitem & Hge) Hnil.
        assert (Hin : In item (window_high_sensors window))
          by (apply window_high_sensors_In; exists row, d; auto).
        rewrite Hnil in Hin. destruct Hin.
      - intros Hne.
        destruct (window_high_sensors window) as [| item rest] eqn:Hl;
          [congruence |].
        assert (Hin : In item (window_high_sensors window))
          by (rewrite Hl; left; reflexivity).
        apply window_high_sensors_In in Hin
          as (row & d & Hrow & Hd & Hi & Hge).
        exists row, d, item. auto. }
    split.
    + intros Hex. apply Hlist in Hex.
      destruct (window_high_sensors window); [congruence | reflexivity].
    + intros Hnone.
      destruct (window_high_sensors window) as [| item rest] eqn:Hl;
        [reflexivity |].
      exfalso. apply Hnone, Hlist. discriminate.
  - intros H15. assert (H25 : (m < 2.5)%Q)
      by (eapply Qlt_trans; [exact H15 | reflexivity]).
    apply nan_geb_lt in H15. apply nan_geb_lt in H25.
    rewrite H25, H15. split; reflexivity.
Qed.

Lemma medium_and_low_recommendations_witness :
  col_max (map product_anomaly_score Samples.scenario_a) = Some 1.6%Q
  /\ ai_diagnosis Samples.two_decimals repr_ascii Samples.scenario_a [] []
     = Done {| severity := Medium;
               recommendations :=
                 [rec_keep_monitoring; rec_inspect_sensors;
                  rec_preventive] |}
  /\ (1.5 <= 1.6)%Q /\ (1.6 < 2.5)%Q
  /\ Medium = Medium.
Proof.
  assert (Hm : col_max (map product_anomaly_score Samples.scenario_a)
               = Some 1.6%Q) by reflexivity.
  assert (Hd : ai_diagnosis Samples.two_decimals repr_ascii
                 Samples.scenario_a [] []
               = Done {| severity := Medium;
                         recommendations :=
                           [rec_keep_monitoring; rec_inspect_sensors;
                            rec_preventive] |}) by reflexivity.
  assert (H15 : (1.5 <= 1.6)%Q) by (vm_compute; discriminate).
  assert (H25 : (1.6 < 2.5)%Q) by reflexivity.
  destruct (medium_and_low_recommendations Samples.two_decimals repr_ascii
              Samples.scenario_a [] [] 1.6%Q _ Hm Hd) as [Hmedium _].
  destruct (Hmedium H15 H25) as (Hsev & _).
  split; [exact Hm |]. split; [exact Hd |]. split; [exact H15 |].
  split; [exact H25 | exact Hsev].
Defined.



(** A list in a cell of the window: the page ends with AttributeError in
    the loop of section 2, with or without the button. *)
Example list_cell_ends_detail_page :
  detail_page Samples.two_decimals repr_ascii
    (Some Samples.scenario_list_cell) None None "D1" 0 1000 false
  = Raised AttributeError
  /\ detail_page Samples.two_decimals repr_ascii
       (Some Samples.scenario_list_cell) None None "D1" 0 1000 true
     = Raised AttributeError
  /\ detail_page Samples.two_decimals repr_ascii
       (Some Samples.scenario_list_cell) None None "D1" 0 300 true
     = Shown (Some {| severity := Medium;
                      recommendations :=
                        [rec_keep_monitoring; rec_inspect_sensors;
                         rec_preventive] |}).
Proof. repeat split. Qed.

(** * Properties of the dashboard *)

Module DashboardFacts.
Import Dashboard.

Lemma Qmin_cases (x z : Q) :
  (Qmin x z = x /\ (x <= z)%Q) \/ (Qmin x z = z /\ (z <= x)%Q).
Proof.
  unfold Qmin, GenericMinMax.gmin. destruct (x ?= z)%Q eqn:Hc.
  - left. split; [reflexivity |]. apply Qeq_alt in Hc. rewrite Hc.
    apply Qle_refl.
  - left. split; [reflexivity |]. apply Qlt_alt in Hc.
    apply Qlt_le_weak. assumption.
  - right. split; [reflexivity |]. apply Qgt_alt in Hc.
    apply Qlt_le_weak. assumption.
Qed.

Lemma fold_Qmin_spec (rest : list Q) (x : Q) :
  In (fold_left Qmin rest x) (x :: rest)
  /\ forall y, In y (x :: rest) -> (fold_left Qmin rest x <= y)%Q.
Proof.
  revert x. induction rest as [| z rest IH]; intros x; simpl.
  - split; [auto |]. intros y [-> | []]. apply Qle_refl.
  - destruct (IH (Qmin x z)) as [Hin Hle].
    destruct (Qmin_cases x z) as [[Hm Hxz] | [Hm Hzx]]; rewrite Hm in *.
    + split.
      * destruct Hin as [Heq | Hin]; auto.
      * intros y [-> | [-> | Hy]].
        -- apply Hle. left. reflexivity.
        -- eapply Qle_trans; [| exact Hxz]. apply Hle. left. reflexivity.
        -- apply Hle. right. assumption.
    + split.
      * destruct Hin as [Heq | Hin]; auto.
      * intros y [-> | [-> | Hy]].
        -- eapply Qle_trans; [| exact Hzx]. apply Hle. left. reflexivity.
        -- apply Hle. left. reflexivity.
        -- apply Hle. right. assumption.
Qed.

Lemma col_min_spec (col : list Q) :
  col <> [] ->
  exists m, col_min col = Some m /\ In m col
            /\ forall y, In y col -> (m <= y)%Q.
Proof.
  destruct col as [| x rest]; [congruence |]. intros _.
  exists (fold_left Qmin rest x). split; [reflexivity |].
  apply fold_Qmin_spec.
Qed.

Lemma insert_score_perm (x : Q) (l : list Q) :
  Permutation (insert_score x l) (x :: l).
Proof.
  induction l as [| y rest IH]; simpl.
  - reflexivity.
  - destruct (Qle_bool y x).
    + rewrite IH. apply perm_swap.
    + reflexivity.
Qed.

Lemma sort_scores_perm (col : list Q) : Permutation (sort_scores col) col.
Proof.
  unfold sort_scores.
  assert (H : forall acc,
             Permutation (fold_left (fun acc x => insert_score x acc) col acc)
                         (acc ++ col)).
  { induction col as [| x rest IH]; intros acc; simpl.
    - rewrite app_nil_r. reflexivity.
    - rewrite IH, insert_score_perm. apply Permutation_middle. }
  apply (H []).
Qed.

Lemma sorted_nth_In (col : list Q) (k : nat) :
  k < length col -> In (nth k (sort_scores col) 0%Q) col.
Proof.
  intros Hk. apply (Permutation_in _ (sort_scores_perm col)).
  apply nth_In. rewrite (Permutation_length (sort_scores_perm col)).
  assumption.
Qed.

(** The median lies between two values of the column. *)
Lemma median_between (col : list Q) (lo hi : Q) :
  col <> [] ->
  (forall y, In y col -> (lo <= y)%Q /\ (y <= hi)%Q) ->
  exists med, median col = Some med /\ (lo <= med)%Q /\ (med <= hi)%Q.
Proof.
  intros Hne Hbounds. unfold median.
  assert (Hlen : 0 < length col) by (destruct col; [congruence | simpl; lia]).
  replace (length col =? 0) with false by (symmetry; apply Nat.eqb_neq; lia).
  assert (Hhalf : length col / 2 < length col)
    by (apply Nat.div_lt; lia).
  destruct (Nat.even (length col)).
  - destruct (Hbounds _ (sorted_nth_In col (length col / 2 - 1) ltac:(lia)))
      as [Ha1 Ha2].
    destruct (Hbounds _ (sorted_nth_In col (length col / 2) Hhalf))
      as [Hb1 Hb2].
    eexists. split; [reflexivity |].
    set (a := nth (length col / 2 - 1) (sort_scores col) 0%Q) in *.
    set (b := nth (length col / 2) (sort_scores col) 0%Q) in *.
    split.
    + apply Qle_shift_div_l; [reflexivity | lra].
    + apply Qle_shift_div_r; [reflexivity | lra].
  - destruct (Hbounds _ (sorted_nth_In col (length col / 2) Hhalf))
      as [Hb1 Hb2].
    eexists. split; [reflexivity |]. split; assumption.
Qed.

Lemma filtered_df_In (df : list AnomalyRow) (selected : list string)
    (row : AnomalyRow) :
  In row (filtered_df df selected) <->
  In row df /\ In (product_id row) selected.
Proof.
  unfold filtered_df. rewrite filter_In, existsb_exists. split.
  - intros [Hin (p & Hp & Heq)]. apply String.eqb_eq in Heq. subst. auto.
  - intros [Hin Hp]. split; [assumption |].
    exists (product_id row). split; [assumption | apply String.eqb_refl].
Qed.

Lemma unique_times_In (col : list Z) (t : Z) :
  In t (unique_times col) <-> In t col.
Proof.
  induction col as [| u rest IH]; simpl; [tauto |].
  rewrite filter_In, IH, negb_true_iff, Z.eqb_neq.
  destruct (Z.eq_dec u t) as [-> | Hne].
  - split; auto.
  - split.
    + intros [Heq | [Hin _]]; auto.
    + intros [Heq | Hin]; auto.
Qed.

Lemma unique_times_NoDup (col : list Z) : NoDup (unique_times col).
Proof.
  induction col as [| t rest IH]; simpl.
  - constructor.
  - constructor.
    + rewrite filter_In, negb_true_iff, Z.eqb_neq. tauto.
    + apply NoDup_filter. assumption.
Qed.

End DashboardFacts.
Import Dashboard DashboardFacts.

(** X13: the default selection of the dashboard, all product ids, hides
    no row; whatever is selected, the rows shown are the rows of the
    selected products, in file order; and on a frame with rows the page
    stops for want of a selection exactly when no selected product has a
    row. *)
Theorem dashboard_selection :
  forall (df : list AnomalyRow) (selected_products : list string),
    filtered_df df (product_ids df) = df
    /\ filtered_df df selected_products =
       filter (fun row =>
                 if in_dec string_dec (product_id row) selected_products
                 then true else false) df
    /\ (df <> [] ->
        (dashboard (Some df) selected_products = NoSelection
         <-> forall row, In row df ->
                         ~ In (product_id row) selected_products)
        /\ dashboard (Some df) (product_ids df) =
           Heatmap (pivot_values df) (400 + length (pivot_values df) * 50)
                   (stats_of df)).
Proof.
  intros df selected_products.
  assert (Hall : filtered_df df (product_ids df) = df).
  { apply filter_all. intros row Hin. apply existsb_exists.
    exists (product_id row). split; [| apply String.eqb_refl].
    apply product_ids_In. exists row. auto. }
  split; [exact Hall |]. split.
  - apply filter_ext. intros row.
    destruct (in_dec string_dec (product_id row) selected_products)
      as [Hin | Hnotin].
    + apply existsb_exists. exists (product_id row).
      split; [assumption | apply String.eqb_refl].
    + apply not_true_is_false. intros Hex.
      apply existsb_exists in Hex as (p & Hp & Heq).
      apply String.eqb_eq in Heq. subst. contradiction.
  - intros Hne. split.
    + destruct df as [| r0 rest0]; [congruence |].
      unfold dashboard.
      set (df := r0 :: rest0) in *.
      destruct (filtered_df df selected_products) as [| r rest] eqn:Hf.
      * simpl. split; [| reflexivity]. intros _ row Hin Hsel.
        assert (Hrow : In row (filtered_df df selected_products))
          by (apply filtered_df_In; auto).
        rewrite Hf in Hrow. destruct Hrow.
      * simpl. split; [discriminate |]. intros Hnone. exfalso.
        assert (Hr : In r (filtered_df df selected_products))
          by (rewrite Hf; left; reflexivity).
        apply filtered_df_In in Hr as [Hin Hsel]. apply (Hnone r); assumption.
    + destruct df as [| r0 rest0]; [congruence |].
      unfold dashboard. rewrite Hall. reflexivity.
Qed.

Lemma dashboard_selection_witness :
  Samples.two_runs <> []
  /\ dashboard (Some Samples.two_runs) ["D9"%string] = NoSelection
  /\ filtered_df Samples.two_runs (product_ids Samples.two_runs)
     = Samples.two_runs.
Proof.
  assert (Hne : Samples.two_runs <> []) by discriminate.
  destruct (dashboard_selection Samples.two_runs ["D9"%string])
    as (Hall & _ & Hstop).
  destruct (Hstop Hne) as [Hiff _].
  split; [exact Hne |]. split; [| exact Hall].
  apply Hiff. intros row Hin [Heq | []]. simpl in Hin.
  repeat (destruct Hin as [<- | Hin]; [discriminate |]). destruct Hin.
Defined.

(** X14: for rows to show, the three score metrics exist and are in order,
    minimum <= median <= maximum, the minimum and the maximum are scores
    of rows, and the count of high scores is positive exactly when the
    maximum is above 2.0. *)
Theorem dashboard_stats_ordered :
  forall (rows : list AnomalyRow),
    rows <> [] ->
    exists lo med hi,
      min_of_scores (stats_of rows) = Some lo
      /\ median_score (stats_of rows) = Some med
      /\ max_of_scores (stats_of rows) = Some hi
      /\ (lo <= med)%Q /\ (med <= hi)%Q
      /\ (exists row, In row rows /\ product_anomaly_score row = lo)
      /\ (exists row, In row rows /\ product_anomaly_score row = hi)
      /\ high_count (stats_of rows) <= length rows
      /\ (0 < high_count (stats_of rows) <-> (2.0 < hi)%Q).
Proof.
  intros rows Hne. simpl.
  set (col := map product_anomaly_score rows).
  assert (Hcol : col <> []).
  { intros Hnil. apply Hne. destruct rows; [reflexivity | discriminate]. }
  destruct (col_min_spec col Hcol) as (lo & Hlo & Hlo_in & Hlo_le).
  destruct (col_max_spec col Hcol) as (hi & Hhi & Hhi_in & Hhi_le).
  destruct (median_between col lo hi Hcol) as (med & Hmed & Hl & Hh).
  { intros y Hy. split; [apply Hlo_le | apply Hhi_le]; assumption. }
  exists lo, med, hi. repeat (split; [assumption |]).
  apply in_map_iff in Hlo_in as (rlo & Hrlo & Hrlo_in).
  apply in_map_iff in Hhi_in as (rhi & Hrhi & Hrhi_in).
  split; [eauto |]. split; [eauto |].
  unfold high_anomaly_count. split; [apply filter_length_le |].
  split.
  - intros Hpos.
    destruct (filter _ rows) as [| r rest] eqn:Hf; [simpl in Hpos; lia |].
    assert (Hr : In r (filter (fun row =>
                                 Qgtb (product_anomaly_score row) 2.0%Q)
                              rows))
      by (rewrite Hf; left; reflexivity).
    apply filter_In in Hr as [Hr Hgt]. apply Qgtb_lt in Hgt.
    eapply Qlt_le_trans; [exact Hgt |]. apply Hhi_le, in_map. assumption.
  - intros Hgt.
    assert (Hr : In rhi (filter (fun row =>
                                   Qgtb (product_anomaly_score row) 2.0%Q)
                                rows)).
    { apply filter_In. split; [assumption |]. apply Qgtb_lt.
      rewrite Hrhi. assumption. }
    destruct (filter _ rows); [destruct Hr | simpl; lia].
Qed.

Lemma dashboard_stats_ordered_witness :
  Samples.scenario_e <> []
  /\ exists lo med hi,
      min_of_scores (stats_of Samples.scenario_e) = Some lo
      /\ median_score (stats_of Samples.scenario_e) = Some med
      /\ max_of_scores (stats_of Samples.scenario_e) = Some hi
      /\ (lo <= med)%Q /\ (med <= hi)%Q.
Proof.
  assert (Hne : Samples.scenario_e <> []) by discriminate.
  split; [exact Hne |].
  destruct (dashboard_stats_ordered Samples.scenario_e Hne)
    as (lo & med & hi & H1 & H2 & H3 & H4 & H5 & _).
  exists lo, med, hi. auto.
Defined.

(** The metrics of scenario E: median 1.2 between 0.1 and 3.0, one high
    score. *)
Example scenario_e_stats :
  stats_of Samples.scenario_e
  = {| median_score := Some 1.2%Q; max_of_scores := Some 3.0%Q;
       min_of_scores := Some 0.1%Q; high_count := 1 |}.
Proof. reflexivity. Qed.

Lemma pivot_cell_None (rows : list AnomalyRow) (pid : string) (t : Z) :
  pivot_cell rows pid t = None <->
  forall row, In row rows -> ~ (product_id row = pid /\ time row = t).
Proof.
  unfold pivot_cell.
  destruct (filter _ rows) as [| r rest] eqn:Hf.
  - split; [| reflexivity]. intros _ row Hin [Hpid Ht].
    assert (Hr : In row (filter (fun row => String.eqb (product_id row) pid
                                             && (time row =? t)%Z) rows)).
    { apply filter_In. split; [assumption |].
      apply andb_true_iff. split; [apply String.eqb_eq | apply Z.eqb_eq];
        assumption. }
    rewrite Hf in Hr. destruct Hr.
  - split; [discriminate |]. intros Hnone. exfalso.
    assert (Hr : In r (filter (fun row => String.eqb (product_id row) pid
                                           && (time row =? t)%Z) rows))
      by (rewrite Hf; left; reflexivity).
    apply filter_In in Hr as [Hin Hkey]. apply andb_true_iff in Hkey as [H1 H2].
    apply String.eqb_eq in H1. apply Z.eqb_eq in H2.
    apply (Hnone r Hin). auto.
Qed.

Lemma pivot_cell_Some (rows : list AnomalyRow) (pid : string) (t : Z)
    (score : Q) :
  pivot_cell rows pid t = Some score ->
  exists row, In row rows /\ product_id row = pid /\ time row = t
              /\ product_anomaly_score row = score.
Proof.
  unfold pivot_cell.
  destruct (filter _ rows) as [| r rest] eqn:Hf; [discriminate |].
  intros Heq. inversion Heq; subst.
  assert (Hr : In r (filter (fun row => String.eqb (product_id row) pid
                                         && (time row =? t)%Z) rows))
    by (rewrite Hf; left; reflexivity).
  apply filter_In in Hr as [Hin Hkey]. apply andb_true_iff in Hkey as [H1 H2].
  apply String.eqb_eq in H1. apply Z.eqb_eq in H2.
  exists r. auto.
Qed.

(** X15: the heat map has one line per product of the rows shown, in
    ascending order of the id, and one column per time, in ascending
    order; a cell is empty exactly when the product has no row at the
    time; and when the rows of one product at one time agree on the score,
    every row is read back from its cell. *)
Theorem heatmap_holds_every_row :
  forall (rows : list AnomalyRow),
    length (pivot_values rows) = length (pivot_index rows)
    /\ Forall (fun line => length line = length (pivot_columns rows))
              (pivot_values rows)
    /\ NoDup (pivot_index rows)
    /\ StronglySorted (fun p q => String.leb p q = true) (pivot_index rows)
    /\ StronglySorted Z.lt (pivot_columns rows)
    /\ (forall row, In row rows ->
          In (product_id row) (pivot_index rows)
          /\ In (time row) (pivot_columns rows))
    /\ (forall pid t,
          pivot_cell rows pid t = None <->
          forall row, In row rows ->
                      ~ (product_id row = pid /\ time row = t))
    /\ (forall row,
          In row rows ->
          (forall row', In row' rows ->
             product_id row' = product_id row -> time row' = time row ->
             product_anomaly_score row' = product_anomaly_score row) ->
          pivot_cell rows (product_id row) (time row)
          = Some (product_anomaly_score row)).
Proof.
  intros rows. unfold pivot_values.
  split; [apply length_map |]. split.
  { apply Forall_forall. intros line Hline.
    apply in_map_iff in Hline as (pid & <- & _). apply length_map. }
  split; [apply (product_ids_NoDup rows) |].
  split; [apply sorted_str_sorted |]. split.
  { unfold pivot_columns.
    apply (sort_values_strict (fun t : Z => t)).
    rewrite map_id. apply unique_times_NoDup. }
  split.
  { intros row Hin. split.
    - apply product_ids_In. exists row. auto.
    - unfold pivot_columns.
      apply (Permutation_in _ (Permutation_sym (sort_values_perm _ _))).
      apply unique_times_In, in_map. assumption. }
  split; [apply pivot_cell_None |].
  intros row Hin Hagree.
  destruct (pivot_cell rows (product_id row) (time row)) as [score |] eqn:Hc.
  - apply pivot_cell_Some in Hc as (row' & Hin' & Hpid & Ht & Hscore).
    rewrite <- Hscore, (Hagree row' Hin' Hpid Ht). reflexivity.
  - exfalso. apply (proj1 (pivot_cell_None _ _ _) Hc row Hin). auto.
Qed.

Lemma heatmap_holds_every_row_witness :
  In (Samples.row 120 "D1" 1.7%Q) Samples.two_runs
  /\ pivot_cell Samples.two_runs "D1" 120 = Some 1.7%Q
  /\ pivot_cell Samples.two_runs "D2" 120 = None.
Proof.
  assert (Hin : In (Samples.row 120 "D1" 1.7%Q) Samples.two_runs)
    by (simpl; tauto).
  destruct (heatmap_holds_every_row Samples.two_runs)
    as (_ & _ & _ & _ & _ & _ & Hnone & Hsome).
  split; [exact Hin |]. split.
  - apply (Hsome _ Hin). intros row' Hin' Hpid Ht. simpl in Hin'.
    repeat (destruct Hin' as [<- | Hin'];
            [first [reflexivity | discriminate] |]).
    destruct Hin'.
  - apply Hnone. intros row Hin' [Hpid Ht]. simpl in Hin'.
    repeat (destruct Hin' as [<- | Hin']; [discriminate |]).
    destruct Hin'.
Defined.

(** The heat map of the two products of [two_runs]. *)
Example two_runs_heatmap :
  pivot_index Samples.two_runs = ["D1"%string; "D2"%string]
  /\ pivot_columns Samples.two_runs = [0; 120; 240; 360; 480]%Z
  /\ pivot_values Samples.two_runs
     = [[Some 1.5%Q; Some 1.7%Q; Some 0.4%Q; Some 1.2%Q; Some 0.3%Q];
        [Some 0.2%Q; None; None; None; None]].
Proof. repeat split. Qed.

(** * The generator of the mock data *)

(** ** Rounding to two decimals *)

Module RoundFacts.
Import MockData.

Lemma round_half_even_cases (q : Q) :
  round_half_even q = Qfloor q \/ round_half_even q = (Qfloor q + 1)%Z.
Proof.
  unfold round_half_even.
  destruct (q - inject_Z (Qfloor q) ?= 1 # 2)%Q; auto.
  destruct (Z.even (Qfloor q)); auto.
Qed.

Lemma round_half_even_comp (p q : Q) :
  (p == q)%Q -> round_half_even p = round_half_even q.
Proof.
  intros Hpq. unfold round_half_even.
  rewrite (Qfloor_comp p q Hpq).
  replace (p - inject_Z (Qfloor q) ?= 1 # 2)%Q
    with (q - inject_Z (Qfloor q) ?= 1 # 2)%Q; [reflexivity |].
  apply Qcompare_comp; [rewrite Hpq |]; reflexivity.
Qed.

Lemma round_half_even_Z (z : Z) : round_half_even (inject_Z z) = z.
Proof.
  unfold round_half_even. rewrite Qfloor_Z.
  destruct (Qcompare_spec (inject_Z z - inject_Z z) (1 # 2)) as [H | H | H];
    [lra | reflexivity | lra].
Qed.

Lemma round_half_even_mono (p q : Q) :
  (p <= q)%Q -> (round_half_even p <= round_half_even q)%Z.
Proof.
  intros Hpq.
  pose proof (Qfloor_resp_le p q Hpq) as Hfloor.
  destruct (Z.eq_dec (Qfloor p) (Qfloor q)) as [Heq | Hne].
  - unfold round_half_even. rewrite Heq.
    destruct (Qcompare_spec (p - inject_Z (Qfloor q)) (1 # 2)) as [Hp | Hp | Hp];
      destruct (Qcompare_spec (q - inject_Z (Qfloor q)) (1 # 2))
        as [Hq | Hq | Hq];
      try destruct (Z.even (Qfloor q)); try lia; lra.
  - destruct (round_half_even_cases p) as [-> | ->];
      destruct (round_half_even_cases q) as [Hq | Hq]; rewrite Hq; lia.
Qed.

Lemma round2_mono (p q : Q) : (p <= q)%Q -> (round2 p <= round2 q)%Q.
Proof.
  intros Hpq. unfold round2.
  assert (H : (round_half_even (p * 100) <= round_half_even (q * 100))%Z)
    by (apply round_half_even_mono; lra).
  rewrite Zle_Qle in H.
  apply Qle_shift_div_l; [reflexivity |].
  unfold Qdiv. rewrite <- Qmult_assoc.
  setoid_replace (/ 100 * 100)%Q with 1%Q by reflexivity. lra.
Qed.

(** A score of two decimals is left as it is. *)
Lemma round2_hundredths (n : Z) :
  round2 (inject_Z n / 100) = (inject_Z n / 100)%Q.
Proof.
  unfold round2 at 1. f_equal. f_equal.
  rewrite (round_half_even_comp _ (inject_Z n)); [apply round_half_even_Z |].
  field.
Qed.

Lemma round2_idem (q : Q) : round2 (round2 q) = round2 q.
Proof. unfold round2 at 2 3. apply round2_hundredths. Qed.

Lemma round2_ge (n : Z) (q : Q) :
  (inject_Z n / 100 <= q)%Q -> (inject_Z n / 100 <= round2 q)%Q.
Proof.
  intros H. rewrite <- (round2_hundredths n). apply round2_mono. exact H.
Qed.

Lemma round2_le (n : Z) (q : Q) :
  (q <= inject_Z n / 100)%Q -> (round2 q <= inject_Z n / 100)%Q.
Proof.
  intros H. rewrite <- (round2_hundredths n). apply round2_mono. exact H.
Qed.

End RoundFacts.

(** ** The three score generators and the loop of [generate_data] *)

Module MockFacts.
Import MockData RoundFacts.

Lemma round2_between (lo hi : Z) (a b q : Q) :
  (a == inject_Z lo / 100)%Q -> (b == inject_Z hi / 100)%Q ->
  (a <= q)%Q /\ (q <= b)%Q -> (a <= round2 q)%Q /\ (round2 q <= b)%Q.
Proof.
  intros Ha Hb [Hlo Hhi]. split.
  - rewrite Ha. apply round2_ge. rewrite <- Ha. exact Hlo.
  - rewrite Hb. apply round2_le. rewrite <- Hb. exact Hhi.
Qed.

Lemma normal_score_range (x : Q) :
  (0 <= x)%Q ->
  (0 <= round2 (Qmin x 0.3))%Q /\ (round2 (Qmin x 0.3) <= 0.3)%Q.
Proof.
  intros Hx. apply (round2_between 0 30); [reflexivity | reflexivity |].
  destruct (Qmin_cases x 0.3) as [[-> H] | [-> H]]; lra.
Qed.

Lemma uniform_score_range (x : Q) :
  (2.0 <= x)%Q /\ (x <= 3.5)%Q ->
  (2.0 <= round2 x)%Q /\ (round2 x <= 3.5)%Q.
Proof. apply (round2_between 200 350); reflexivity. Qed.

Lemma gradual_score_range (base_level variation : Q) :
  let score := Qmax (Qmax 0 (base_level + variation)) (base_level * 0.8) in
  (0 <= round2 (Qmin score 3.5))%Q /\ (round2 (Qmin score 3.5) <= 3.5)%Q
  /\ (round2 (Qmin (base_level * 0.8) 3.5) <= round2 (Qmin score 3.5))%Q.
Proof.
  intros score.
  assert (H0 : (0 <= score)%Q /\ (base_level * 0.8 <= score)%Q).
  { unfold score.
    destruct (Qmax_cases 0 (base_level + variation)) as [[-> H1] | [-> H1]];
      destruct (Qmax_cases 0 (base_level * 0.8)) as [[H2e H2] | [H2e H2]];
      destruct (Qmax_cases (base_level + variation) (base_level * 0.8))
        as [[H3e H3] | [H3e H3]];
      try rewrite H2e; try rewrite H3e; split; lra. }
  destruct H0 as [H0 Hbase].
  assert (Hmin : (0 <= Qmin score 3.5)%Q /\ (Qmin score 3.5 <= 3.5)%Q).
  { destruct (Qmin_cases score 3.5) as [[-> H] | [-> H]];
      split; lra. }
  destruct (round2_between 0 350 0 3.5 (Qmin score 3.5)) as [Hlo Hhi];
    [reflexivity | reflexivity | exact Hmin |].
  split; [exact Hlo |]. split; [exact Hhi |].
  apply round2_mono.
  destruct (Qmin_cases score 3.5) as [[-> H] | [-> H]];
    destruct (Qmin_cases (base_level * 0.8) 3.5)
      as [[-> H'] | [-> H']]; lra.
Qed.

Lemma normal_scores_keys (exponential : string -> Q) :
  map fst (generate_normal_sensor_scores exponential) = SENSORS.
Proof. reflexivity. Qed.

Lemma spike_scores_keys (anomaly_sensors : list string)
    (uniform exponential : string -> Q) :
  map fst (generate_spike_anomaly_scores anomaly_sensors uniform exponential)
  = SENSORS.
Proof. reflexivity. Qed.

Lemma gradual_scores_keys (base_level : Q) (normal : string -> Q) :
  map fst (generate_gradual_anomaly_scores base_level normal) = SENSORS.
Proof. reflexivity. Qed.

Lemma scores_at_keys (draws : Draws) (i : nat) (pid : string) :
  map fst (scores_at draws i pid) = SENSORS.
Proof.
  unfold scores_at.
  destruct (existsb _ _ && _); [apply gradual_scores_keys |].
  destruct (DetailSummary.Qltb _ _);
    [apply normal_scores_keys | apply spike_scores_keys].
Qed.

(** Every score a generator writes is a score of two decimals. *)
Lemma scores_at_rounded (draws : Draws) (i : nat) (pid : string)
    (score : Q) :
  In score (map snd (scores_at draws i pid)) -> round2 score = score.
Proof.
  unfold scores_at, generate_gradual_anomaly_scores,
    generate_normal_sensor_scores, generate_spike_anomaly_scores.
  destruct (existsb _ _ && _); [| destruct (DetailSummary.Qltb _ _)];
    rewrite map_map; intros Hin; apply in_map_iff in Hin as (s & <- & _);
    cbn [snd]; apply round2_idem.
Qed.

Lemma scores_at_max (draws : Draws) (i : nat) (pid : string) :
  col_max (map snd (scores_at draws i pid))
  = Some (product_score_of (scores_at draws i pid)).
Proof.
  unfold product_score_of.
  destruct (col_max_spec (map snd (scores_at draws i pid)))
    as (m & Hm & Hin & _).
  { intros Hnil. pose proof (scores_at_keys draws i pid) as Hk.
    apply (f_equal (@length _)) in Hnil, Hk.
    rewrite length_map in Hnil, Hk. simpl in Hnil, Hk. congruence. }
  rewrite Hm. f_equal. symmetry.
  apply (scores_at_rounded draws i pid). exact Hin.
Qed.

Lemma make_record_at (draws : Draws) (i : nat) (pid : string) :
  make_record i pid (scores_at draws i pid) = Some (record_at draws i pid).
Proof.
  pose proof (scores_at_max draws i pid) as Hm.
  unfold make_record, record_at. rewrite Hm. f_equal. f_equal.
  unfold product_score_of in *.
  destruct (col_max (map snd (scores_at draws i pid)));
    [apply round2_idem | discriminate Hm].
Qed.

(** The gradual branch, read without the state. *)
Lemma gradual_step_spec (draws : Draws) (i : nat) (pid : string)
    (state : ProductState) :
  state_ok draws i pid state ->
  state_ok draws (S i) pid (fst (gradual_step draws i pid state))
  /\ match snd (gradual_step draws i pid state) with
     | Some scores => scores
     | None =>
         if DetailSummary.Qltb (random draws i pid) 0.95
         then generate_normal_sensor_scores (exponential draws i pid)
         else generate_spike_anomaly_scores (spike_sensors draws i pid)
                (uniform draws i pid) (exponential draws i pid)
     end = scores_at draws i pid.
Proof.
  unfold state_ok, gradual_step, scores_at.
  destruct (existsb (String.eqb pid) (gradual_anomaly_products draws));
    cbn [andb]; [| intros H; split; [exact H | reflexivity]].
  set (start := gradual_start_times draws pid).
  destruct (start <=? i) eqn:Hle.
  - apply Nat.leb_le in Hle.
    replace (start <? S i) with true by (symmetry; apply Nat.ltb_lt; lia).
    destruct (start <? i) eqn:Hlt.
    + apply Nat.ltb_lt in Hlt. intros [Hin Hstart]. rewrite Hin.
      cbn [negb fst snd in_gradual_anomaly state_start_time].
      split; [split; [exact Hin | exact Hstart] |].
      rewrite Hstart. unfold level_after.
      rewrite Nat2Z.inj_sub by lia. reflexivity.
    + apply Nat.ltb_ge in Hlt. assert (start = i) by lia. subst i.
      intros Hin. rewrite Hin.
      cbn [negb fst snd in_gradual_anomaly state_start_time].
      split; [split; reflexivity |].
      unfold level_after. rewrite Z.sub_diag, Nat.sub_diag. reflexivity.
  - apply Nat.leb_gt in Hle.
    replace (start <? S i) with false by (symmetry; apply Nat.ltb_ge; lia).
    replace (start <? i) with false by (symmetry; apply Nat.ltb_ge; lia).
    intros H. split; [exact H | reflexivity].
Qed.

Lemma generate_record_spec (draws : Draws) (i : nat) (pid : string)
    (product_states : string -> ProductState) (records : list AnomalyRow) :
  state_ok draws i pid (product_states pid) ->
  exists state,
    state_ok draws (S i) pid state
    /\ generate_record draws i (Some (product_states, records)) pid
       = Some (fun q => if String.eqb q pid then state else product_states q,
               records ++ [record_at draws i pid]).
Proof.
  intros Hok.
  destruct (gradual_step_spec draws i pid _ Hok) as [Hnext Hscores].
  unfold generate_record.
  destruct (gradual_step draws i pid (product_states pid)) as [state gradual].
  cbn [fst snd] in Hnext, Hscores. rewrite Hscores, make_record_at.
  exists state. split; [exact Hnext | reflexivity].
Qed.

Lemma inner_loop (draws : Draws) (i : nat) (pids : list string) :
  NoDup pids ->
  forall (product_states : string -> ProductState)
         (records : list AnomalyRow),
    (forall p, In p pids -> state_ok draws i p (product_states p)) ->
    exists states',
      fold_left (generate_record draws i) pids
                (Some (product_states, records))
      = Some (states', records ++ map (record_at draws i) pids)
      /\ (forall p, In p pids -> state_ok draws (S i) p (states' p))
      /\ (forall p, ~ In p pids -> states' p = product_states p).
Proof.
  induction 1 as [| pid rest Hnotin Hnd IH]; intros product_states records Hok.
  - exists product_states. cbn [fold_left map]. rewrite app_nil_r.
    split; [reflexivity |]. split; [intros p [] | reflexivity].
  - destruct (generate_record_spec draws i pid product_states records)
      as (state & Hstate & Hstep); [apply Hok; left; reflexivity |].
    cbn [fold_left]. rewrite Hstep.
    destruct (IH (fun q => if String.eqb q pid then state
                           else product_states q)
                 (records ++ [record_at draws i pid]))
      as (states' & Hfold & Hin & Hout).
    { intros p Hp. destruct (String.eqb_spec p pid) as [-> | Hne];
        [contradiction | apply Hok; right; exact Hp]. }
    exists states'. rewrite Hfold, <- app_assoc. split; [reflexivity |].
    split.
    + intros p [<- | Hp]; [| apply Hin; exact Hp].
      rewrite (Hout pid Hnotin), String.eqb_refl. exact Hstate.
    + intros p Hp. rewrite Hout by (intros Hr; apply Hp; right; exact Hr).
      destruct (String.eqb_spec p pid) as [-> | Hne]; [| reflexivity].
      exfalso. apply Hp. left. reflexivity.
Qed.

Lemma PRODUCT_IDS_NoDup : NoDup PRODUCT_IDS.
Proof.
  unfold PRODUCT_IDS.
  repeat (constructor; [simpl; intuition discriminate |]). constructor.
Qed.

Lemma outer_loop (draws : Draws) (n : nat) :
  forall (i : nat) (product_states : string -> ProductState)
         (records : list AnomalyRow),
    (forall p, In p PRODUCT_IDS -> state_ok draws i p (product_states p)) ->
    exists states',
      fold_left
        (fun acc i => fold_left (generate_record draws i) PRODUCT_IDS acc)
        (seq i n) (Some (product_states, records))
      = Some (states',
              records ++ flat_map (fun i => map (record_at draws i) PRODUCT_IDS)
                                  (seq i n)).
Proof.
  induction n as [| n IH]; intros i product_states records Hok.
  - exists product_states. cbn [seq fold_left flat_map].
    rewrite app_nil_r. reflexivity.
  - destruct (inner_loop draws i PRODUCT_IDS PRODUCT_IDS_NoDup
                product_states records Hok) as (states1 & Hfold & Hin & _).
    cbn [seq fold_left flat_map]. rewrite Hfold.
    destruct (IH (S i) states1
                 (records ++ map (record_at draws i) PRODUCT_IDS) Hin)
      as (states' & Hrest).
    exists states'. rewrite Hrest, <- app_assoc. reflexivity.
Qed.

Lemma generate_data_records (draws : Draws) :
  generate_data draws = Some (records_of draws).
Proof.
  unfold generate_data, records_of.
  destruct (outer_loop draws NUM_TIME_POINTS 0 (fun _ => initial_state) [])
    as (states' & Hfold).
  { intros p _. unfold state_ok.
    destruct (existsb _ _); reflexivity. }
  rewrite Hfold. reflexivity.
Qed.

End MockFacts.

(** ** The records of a run, product by product *)

Module GeneratedFacts.
Import MockData RoundFacts MockFacts.

Lemma records_of_In (draws : Draws) (row : AnomalyRow) :
  In row (records_of draws) <->
  exists i pid, i < NUM_TIME_POINTS /\ In pid PRODUCT_IDS
                /\ row = record_at draws i pid.
Proof.
  unfold records_of. rewrite in_flat_map. split.
  - intros (i & Hi & Hin). apply in_seq in Hi.
    apply in_map_iff in Hin as (pid & <- & Hpid).
    exists i, pid. split; [lia |]. split; [exact Hpid | reflexivity].
  - intros (i & pid & Hi & Hpid & ->). exists i. split.
    + apply in_seq. lia.
    + apply in_map. exact Hpid.
Qed.

Lemma filter_by_key {A : Type} (key : A -> string) (g : string -> A)
    (x : string) (l : list string) :
  NoDup l -> In x l -> (forall y, key (g y) = y) ->
  filter (fun r => String.eqb (key r) x) (map g l) = [g x].
Proof.
  intros Hnd Hin Hkey. rewrite filter_map_swap.
  induction Hnd as [| y rest Hnotin Hnd IH]; [destruct Hin |].
  cbn [filter]. rewrite Hkey.
  destruct (String.eqb_spec y x) as [-> | Hne].
  - cbn [map]. f_equal. rewrite filter_none; [reflexivity |].
    intros z Hz. rewrite Hkey. apply String.eqb_neq. intros ->. contradiction.
  - destruct Hin as [-> | Hin]; [contradiction | apply IH; exact Hin].
Qed.

Lemma flat_map_one {A B : Type} (f : A -> B) (l : list A) :
  flat_map (fun x => [f x]) l = map f l.
Proof. induction l as [| x rest IH]; simpl; [| rewrite IH]; reflexivity. Qed.

Lemma insert_row_last {A : Type} (key : A -> Z) (row : A) (l : list A) :
  Forall (fun r => (key r <= key row)%Z) l ->
  insert_row key row l = l ++ [row].
Proof.
  induction 1 as [| r rest Hr _ IH]; simpl; [reflexivity |].
  apply Z.leb_le in Hr. rewrite Hr, IH. reflexivity.
Qed.

Lemma sorted_app_head {A : Type} (R : A -> A -> Prop) (acc rest : list A)
    (x : A) :
  StronglySorted R (acc ++ x :: rest) -> Forall (fun r => R r x) acc.
Proof.
  induction acc as [| a acc IH]; simpl; intros Hs; [constructor |].
  inversion Hs as [| ? ? Hs' Hall]; subst. constructor.
  - rewrite Forall_forall in Hall. apply Hall, in_or_app. right. left.
    reflexivity.
  - apply IH. exact Hs'.
Qed.

(** Rows that are in order already are left as they are. *)
Lemma sort_values_sorted_id {A : Type} (key : A -> Z) (l : list A) :
  StronglySorted (fun a b => (key a <= key b)%Z) l -> sort_values key l = l.
Proof.
  unfold sort_values.
  assert (H : forall acc,
             StronglySorted (fun a b => (key a <= key b)%Z) (acc ++ l) ->
             fold_left (fun sorted row => insert_row key row sorted) l acc
             = acc ++ l).
  { induction l as [| x rest IH]; intros acc Hs; simpl.
    - rewrite app_nil_r. reflexivity.
    - rewrite insert_row_last
        by (apply (sorted_app_head (fun a b => (key a <= key b)%Z) acc rest);
            exact Hs).
      rewrite IH; rewrite <- app_assoc; [reflexivity | exact Hs]. }
  intros Hs. apply (H []). exact Hs.
Qed.

Lemma current_time_lt (i j : nat) :
  i < j -> (current_time i < current_time j)%Z.
Proof. unfold current_time, TIME_INTERVAL_MINUTES. lia. Qed.

Lemma current_time_diff (i j : nat) :
  (current_time j - current_time i
   = 60 * (2 * (Z.of_nat j - Z.of_nat i)))%Z.
Proof. unfold current_time, TIME_INTERVAL_MINUTES. lia. Qed.

Lemma product_rows_sorted (draws : Draws) (pid : string) (n a : nat) :
  StronglySorted (fun r r' => (time r <= time r')%Z)
                 (map (fun i => record_at draws i pid) (seq a n)).
Proof.
  revert a. induction n as [| n IH]; intros a; simpl; constructor.
  - apply IH.
  - apply Forall_forall. intros r Hr.
    apply in_map_iff in Hr as (j & <- & Hj). apply in_seq in Hj.
    cbn [time record_at]. apply Z.lt_le_incl, current_time_lt. lia.
Qed.

(** The rows of a product, as the alarm page sorts them: one per time
    point, in the order of the time points. *)
Lemma product_data_generated (draws : Draws) (pid : string) :
  In pid PRODUCT_IDS ->
  product_data (records_of draws) pid
  = map (fun i => record_at draws i pid) (seq 0 NUM_TIME_POINTS).
Proof.
  intros Hpid. unfold product_data, records_of.
  rewrite filter_flat_map.
  rewrite (flat_map_ext _ (fun i => [record_at draws i pid])).
  - rewrite flat_map_one. apply sort_values_sorted_id, product_rows_sorted.
  - intros i.
    apply (filter_by_key product_id (record_at draws i));
      [apply PRODUCT_IDS_NoDup | exact Hpid | reflexivity].
Qed.

Lemma product_data_row (draws : Draws) (pid : string) (k : nat) :
  In pid PRODUCT_IDS -> k < NUM_TIME_POINTS ->
  nth_error (product_data (records_of draws) pid) k
  = Some (record_at draws k pid).
Proof.
  intros Hpid Hk. rewrite product_data_generated by exact Hpid.
  rewrite nth_error_map.
  rewrite (nth_error_nth' _ 0) by (rewrite length_seq; exact Hk).
  rewrite seq_nth by exact Hk. reflexivity.
Qed.

Lemma product_data_length (draws : Draws) (pid : string) :
  In pid PRODUCT_IDS ->
  length (product_data (records_of draws) pid) = NUM_TIME_POINTS.
Proof.
  intros Hpid. rewrite product_data_generated by exact Hpid.
  rewrite length_map, length_seq. reflexivity.
Qed.

Lemma product_data_time (draws : Draws) (pid : string) (k : nat) :
  In pid PRODUCT_IDS -> k < NUM_TIME_POINTS ->
  iloc_time (product_data (records_of draws) pid) k = current_time k.
Proof.
  intros Hpid Hk.
  rewrite (iloc_time_nth _ k (record_at draws k pid));
    [reflexivity | apply product_data_row; assumption].
Qed.

(** The aggregate score of a record is one of its sensor scores and none
    of them exceeds it. *)
Lemma product_score_max (draws : Draws) (i : nat) (pid : string) :
  In (product_anomaly_score (record_at draws i pid))
     (map snd (scores_at draws i pid))
  /\ forall score, In score (map snd (scores_at draws i pid)) ->
                   (score <= product_anomaly_score (record_at draws i pid))%Q.
Proof.
  cbn [product_anomaly_score record_at].
  pose proof (scores_at_max draws i pid) as Hm.
  destruct (col_max_spec (map snd (scores_at draws i pid)))
    as (m & Hm' & Hin & Hle).
  { intros Hnil. rewrite Hnil in Hm. discriminate. }
  rewrite Hm in Hm'. inversion Hm'; subst m. split; assumption.
Qed.

Lemma in_gradual_phase (draws : Draws) (i : nat) (pid : string) :
  existsb (String.eqb pid) (gradual_anomaly_products draws)
  && (gradual_start_times draws pid <=? i) = true
  <-> In pid (gradual_anomaly_products draws)
      /\ gradual_start_times draws pid <= i.
Proof. rewrite andb_true_iff, existsb_eqb_In, Nat.leb_le. reflexivity. Qed.

Lemma gradual_phase_scores (draws : Draws) (i : nat) (pid : string)
    (score : Q) :
  In pid (gradual_anomaly_products draws) ->
  gradual_start_times draws pid <= i ->
  In score (map snd (scores_at draws i pid)) ->
  (round2 (Qmin (level_after (i - gradual_start_times draws pid) * 0.8) 3.5)
   <= score)%Q.
Proof.
  intros Hpid Hi. unfold scores_at.
  rewrite (proj2 (in_gradual_phase draws i pid)) by (split; assumption).
  unfold generate_gradual_anomaly_scores. rewrite map_map.
  intros Hin. apply in_map_iff in Hin as (sensor & <- & _). cbn [snd].
  apply gradual_score_range.
Qed.

Lemma level_after_six (elapsed : nat) :
  6 <= elapsed ->
  (1.12 <= round2 (Qmin (level_after elapsed * 0.8) 3.5))%Q.
Proof.
  intros He.
  assert (H6 : (6 <= inject_Z (Z.of_nat elapsed))%Q)
    by (change 6%Q with (inject_Z 6); rewrite <- Zle_Qle; lia).
  assert (Hlevel : (1.4 <= level_after elapsed)%Q).
  { unfold level_after.
    destruct (Qmin_cases (0.5 + inject_Z (Z.of_nat elapsed) * 0.15) 3.5)
      as [[-> H] | [-> H]]; lra. }
  setoid_replace 1.12%Q with (inject_Z 112 / 100)%Q by reflexivity.
  apply round2_ge.
  destruct (Qmin_cases (level_after elapsed * 0.8) 3.5) as [[-> H] | [-> H]];
    setoid_replace (inject_Z 112 / 100)%Q with 1.12%Q by reflexivity; lra.
Qed.

Lemma scores_at_nonempty (draws : Draws) (i : nat) (pid : string) :
  exists score, In score (map snd (scores_at draws i pid)).
Proof.
  pose proof (product_score_max draws i pid) as [Hin _]. eauto.
Qed.

(** Outside a gradual anomaly a record holds normal scores or a spike. *)
Lemma quiet_scores (draws : Draws) (i : nat) (pid : string) :
  ~ (In pid (gradual_anomaly_products draws)
     /\ gradual_start_times draws pid <= i) ->
  scores_at draws i pid
  = if DetailSummary.Qltb (random draws i pid) 0.95
    then generate_normal_sensor_scores (exponential draws i pid)
    else generate_spike_anomaly_scores (spike_sensors draws i pid)
           (uniform draws i pid) (exponential draws i pid).
Proof.
  intros Hq. unfold scores_at.
  destruct (existsb _ _ && _) eqn:Hphase; [| reflexivity].
  apply in_gradual_phase in Hphase. contradiction.
Qed.

Lemma normal_scores_low (exponential : string -> Q) (score : Q) :
  (forall sensor, 0 <= exponential sensor)%Q ->
  In score (map snd (generate_normal_sensor_scores exponential)) ->
  (0 <= score)%Q /\ (score <= 0.3)%Q.
Proof.
  intros Hexp. unfold generate_normal_sensor_scores. rewrite map_map.
  intros Hin. apply in_map_iff in Hin as (sensor & <- & _). cbn [snd].
  apply normal_score_range, Hexp.
Qed.

Lemma spike_scores_high (anomaly_sensors : list string)
    (uniform exponential : string -> Q) :
  anomaly_sensors <> [] -> incl anomaly_sensors SENSORS ->
  (forall sensor, (2.0 <= uniform sensor)%Q /\ (uniform sensor <= 3.5)%Q) ->
  exists score,
    In score (map snd (generate_spike_anomaly_scores anomaly_sensors uniform
                         exponential))
    /\ (2.0 <= score)%Q.
Proof.
  intros Hne Hincl Hu.
  destruct anomaly_sensors as [| sensor rest]; [congruence |].
  exists (round2 (uniform sensor)). split; [| apply uniform_score_range, Hu].
  unfold generate_spike_anomaly_scores. rewrite map_map.
  apply in_map_iff. exists sensor. cbn [snd]. split.
  - cbn [existsb]. rewrite String.eqb_refl. reflexivity.
  - apply Hincl. left. reflexivity.
Qed.

End GeneratedFacts.

Import MockData RoundFacts MockFacts GeneratedFacts.

Lemma scores_at_range (draws : Draws) (i : nat) (pid : string) (score : Q) :
  draws_in_range draws ->
  In score (map snd (scores_at draws i pid)) ->
  (0 <= score)%Q /\ (score <= 3.5)%Q.
Proof.
  intros (_ & _ & _ & Hexp & Huni & _). unfold scores_at.
  destruct (existsb _ _ && _).
  - unfold generate_gradual_anomaly_scores. rewrite map_map.
    intros Hin. apply in_map_iff in Hin as (sensor & <- & _). cbn [snd].
    destruct (gradual_score_range
                (level_after (i - gradual_start_times draws pid))
                (normal draws i pid sensor)) as (Hlo & Hhi & _).
    split; assumption.
  - destruct (DetailSummary.Qltb _ _).
    + intros Hin. apply normal_scores_low in Hin; [| apply Hexp]. lra.
    + unfold generate_spike_anomaly_scores. rewrite map_map.
      intros Hin. apply in_map_iff in Hin as (sensor & <- & _). cbn [snd].
      destruct (existsb _ _).
      * pose proof (uniform_score_range _ (Huni i pid sensor)). lra.
      * pose proof (normal_score_range _ (Hexp i pid sensor)). lra.
Qed.

Lemma sample_draws_in_range : draws_in_range sample_draws.
Proof.
  unfold draws_in_range, sample_draws; cbn.
  split; [discriminate |].
  split; [intros p [<- | []]; right; left; reflexivity |].
  split; [intros; lia |].
  split; [intros; discriminate |].
  split; [intros; split; discriminate |].
  intros _ _. split; [discriminate |].
  intros s [<- | []]. right. left. reflexivity.
Qed.

(** X16: the ranges of the scores the three generators write.  A normal
    score lies in [0, 0.3]; in a spike the drawn sensors get a score in
    [2.0, 3.5] and the others a normal score; a score of a gradual
    anomaly lies in [0, 3.5] and is at least 80% of the level, capped at
    3.5 and rounded to two decimals. *)
Theorem generator_score_ranges :
  forall (exponential uniform normal : string -> Q)
         (anomaly_sensors : list string) (base_level : Q)
         (sensor : string) (score : Q),
    (forall s, 0 <= exponential s)%Q ->
    (forall s, (2.0 <= uniform s)%Q /\ (uniform s <= 3.5)%Q) ->
    (In (sensor, score) (generate_normal_sensor_scores exponential) ->
     (0 <= score)%Q /\ (score <= 0.3)%Q)
    /\ (In (sensor, score)
           (generate_spike_anomaly_scores anomaly_sensors uniform
              exponential) ->
        (In sensor anomaly_sensors ->
         (2.0 <= score)%Q /\ (score <= 3.5)%Q)
        /\ (~ In sensor anomaly_sensors ->
            (0 <= score)%Q /\ (score <= 0.3)%Q))
    /\ (In (sensor, score)
           (generate_gradual_anomaly_scores base_level normal) ->
        (0 <= score)%Q /\ (score <= 3.5)%Q
        /\ (round2 (Qmin (base_level * 0.8) 3.5) <= score)%Q).
Proof.
  intros exponential uniform normal anomaly_sensors base_level sensor score
         Hexp Huni.
  split; [| split].
  - intros Hin. apply (normal_scores_low exponential); [exact Hexp |].
    apply in_map_iff. exists (sensor, score). auto.
  - unfold generate_spike_anomaly_scores. intros Hin.
    apply in_map_iff in Hin as (s & Heq & _). inversion Heq; subst s.
    split; intros Hs.
    + apply existsb_eqb_In in Hs. rewrite Hs. apply uniform_score_range, Huni.
    + destruct (existsb (String.eqb sensor) anomaly_sensors) eqn:Hex.
      * apply existsb_eqb_In in Hex. contradiction.
      * apply normal_score_range, Hexp.
  - unfold generate_gradual_anomaly_scores. intros Hin.
    apply in_map_iff in Hin as (s & Heq & _). inversion Heq; subst s.
    apply gradual_score_range.
Qed.

Lemma generator_score_ranges_witness :
  (forall s : string, 0 <= 0.04)%Q
  /\ (forall s : string, (2.0 <= 2.5)%Q /\ (2.5 <= 3.5)%Q)
  /\ (In ("fuse-state"%string, round2 2.5)
         (generate_spike_anomaly_scores ["fuse-state"%string]
            (fun _ => 2.5%Q) (fun _ => 0.04%Q)) ->
      (In "fuse-state"%string ["fuse-state"%string] ->
       (2.0 <= round2 2.5)%Q /\ (round2 2.5 <= 3.5)%Q)
      /\ (~ In "fuse-state"%string ["fuse-state"%string] ->
          (0 <= round2 2.5)%Q /\ (round2 2.5 <= 0.3)%Q)).
Proof.
  assert (Hexp : forall s : string, (0 <= 0.04)%Q) by (intros; discriminate).
  assert (Huni : forall s : string, (2.0 <= 2.5)%Q /\ (2.5 <= 3.5)%Q)
    by (intros; split; discriminate).
  split; [exact Hexp |]. split; [exact Huni |].
  exact (proj1 (proj2 (generator_score_ranges (fun _ => 0.04%Q)
                         (fun _ => 2.5%Q) (fun _ => 0.1%Q)
                         ["fuse-state"%string] 1.4%Q "fuse-state"%string
                         (round2 2.5) Hexp Huni))).
Defined.

(** X17: [generate_data] never raises, whatever is drawn, and returns one
    record per time point and product, in the order of the loops: 180
    records.  The state kept per product adds nothing to the draws: the
    record of a product at time point [i] is that of [record_at], whose
    level in a gradual anomaly is [min(0.5 + 0.15 * (i - start), 3.5)]
    with [start] the drawn start of the product. *)
Theorem generate_data_never_raises :
  forall draws : Draws,
    generate_data draws = Some (records_of draws)
    /\ length (records_of draws) = 180.
Proof.
  intros draws. split; [apply generate_data_records |].
  unfold records_of. rewrite flat_map_constant_length with (c := 6).
  - rewrite length_seq. reflexivity.
  - intros i _. rewrite length_map. reflexivity.
Qed.

(** X18: every record of a run whose draws are in the ranges numpy
    promises is well formed: its product is one of PRODUCT_IDS, its time
    one of the 30 time points, its cell parses to a dict with the five
    sensors in the order of SENSORS, every score lies in [0, 3.5], and
    the aggregate score is the largest of the sensor scores: rounding it
    again changes nothing. *)
Theorem generated_rows_well_formed :
  forall (draws : Draws) (records : list AnomalyRow) (row : AnomalyRow),
    draws_in_range draws ->
    generate_data draws = Some records ->
    In row records ->
    In (product_id row) PRODUCT_IDS
    /\ (exists i, i < NUM_TIME_POINTS /\ time row = current_time i)
    /\ exists sensor_dict,
        sensor_anomaly_score row = Parsed sensor_dict
        /\ map fst sensor_dict = SENSORS
        /\ col_max (map snd sensor_dict) = Some (product_anomaly_score row)
        /\ forall sensor score,
            In (sensor, score) sensor_dict ->
            (0 <= score)%Q /\ (score <= 3.5)%Q.
Proof.
  intros draws records row Hrange Hgen Hin.
  rewrite generate_data_records in Hgen. inversion Hgen; subst records.
  apply records_of_In in Hin as (i & pid & Hi & Hpid & ->).
  split; [exact Hpid |]. split; [exists i; split; [exact Hi | reflexivity] |].
  exists (scores_at draws i pid). split; [reflexivity |].
  split; [apply scores_at_keys |]. split; [apply scores_at_max |].
  intros sensor score Hitem. apply (scores_at_range draws i pid);
    [exact Hrange |].
  apply in_map_iff. exists (sensor, score). auto.
Qed.

Lemma generated_rows_well_formed_witness :
  draws_in_range sample_draws
  /\ generate_data sample_draws = Some (records_of sample_draws)
  /\ In (record_at sample_draws 9 "RAG-00055") (records_of sample_draws)
  /\ In "RAG-00055"%string PRODUCT_IDS.
Proof.
  assert (Hgen : generate_data sample_draws = Some (records_of sample_draws))
    by (vm_compute; reflexivity).
  assert (Hin : In (record_at sample_draws 9 "RAG-00055")
                   (records_of sample_draws)).
  { apply records_of_In. exists 9, "RAG-00055"%string.
    split; [unfold NUM_TIME_POINTS; lia |].
    split; [right; left; reflexivity | reflexivity]. }
  split; [exact sample_draws_in_range |]. split; [exact Hgen |].
  split; [exact Hin |].
  exact (proj1 (generated_rows_well_formed sample_draws _ _
                  sample_draws_in_range Hgen Hin)).
Defined.

(** No cell of a generated frame raises: the alarm page ends with its
    list. *)
Lemma generated_alarms_done (draws : Draws) (alert_df : list AlertRow)
    (alpha : Q) (beta : Z) :
  alarms (records_of draws) alert_df alpha beta
  = Done (alarm_records (records_of draws) alert_df alpha beta).
Proof.
  rewrite alarms_spec, page_raised_handled; [reflexivity |].
  intros row Hin. apply records_of_In in Hin as (i & pid & _ & _ & ->).
  reflexivity.
Qed.

Lemma generated_alarm_product (draws : Draws) (pid : string) (k : nat) :
  k < length (product_data (records_of draws) pid) -> In pid PRODUCT_IDS.
Proof.
  intros Hk.
  destruct (nth_error (product_data (records_of draws) pid) k) as [row |]
    eqn:Hrow; [| apply nth_error_None in Hrow; lia].
  apply nth_error_In, product_data_In in Hrow as [Hin Hid].
  apply records_of_In in Hin as (i & p & _ & Hp & ->).
  cbn [product_id record_at] in Hid. subst p. exact Hp.
Qed.

Lemma duration_of_time_points (s e : nat) :
  s <= e ->
  (duration_of (current_time s) (current_time e)
   == inject_Z (2 * Z.of_nat (e - s + 1)))%Q.
Proof.
  intros Hse. unfold duration_of. rewrite current_time_diff.
  replace (2 * Z.of_nat (e - s + 1))%Z
    with (2 * (Z.of_nat e - Z.of_nat s) + 2)%Z by lia.
  rewrite inject_Z_plus, !inject_Z_mult. field.
Qed.

(** X19: on the data of the generator, whose time points are two minutes
    apart, an alarm runs from one of the 30 time points to a later one
    and its duration in minutes is twice the number of rows of its
    period. *)
Theorem generated_alarm_duration_counts_rows :
  forall (draws : Draws) (records : list AnomalyRow)
         (alert_df : list AlertRow) (alpha : Q) (beta : Z)
         (listed : list Alarm) (a : Alarm),
    generate_data draws = Some records ->
    alarms records alert_df alpha beta = Done listed ->
    In a listed ->
    exists s e,
      s <= e < NUM_TIME_POINTS
      /\ start_time a = current_time s
      /\ end_time a = current_time e
      /\ (duration_minutes a == inject_Z (2 * Z.of_nat (e - s + 1)))%Q
      /\ (beta <= 2 * Z.of_nat (e - s + 1))%Z.
Proof.
  intros draws records alert_df alpha beta listed a Hgen Hdone Hin.
  rewrite generate_data_records in Hgen. inversion Hgen; subst records.
  apply alarms_Done in Hdone. subst listed.
  apply alarm_records_In in Hin as (pid & Hin).
  apply product_records_In in Hin as (s & e & Hrun & Hlong & ->).
  apply maximal_run_range in Hrun as [Hse He].
  assert (Hpid : In pid PRODUCT_IDS)
    by (eapply generated_alarm_product; exact He).
  rewrite product_data_length in He by exact Hpid.
  rewrite !product_data_time in Hlong by (try exact Hpid; lia).
  exists s, e. split; [lia |].
  cbn [start_time end_time duration_minutes run_record].
  rewrite !product_data_time by (try exact Hpid; lia).
  split; [reflexivity |]. split; [reflexivity |].
  split; [apply duration_of_time_points; exact Hse |].
  rewrite duration_of_time_points in Hlong by exact Hse.
  rewrite <- Zle_Qle in Hlong. exact Hlong.
Qed.

Lemma sample_gradual_alarm :
  In (run_record (product_data (records_of sample_draws) "RAG-00055") []
        "RAG-00055" 10 29)
     (alarm_records (records_of sample_draws) [] 1%Q 4).
Proof.
  apply (proj2 (alarm_records_In (records_of sample_draws) [] 1%Q 4 _)).
  exists "RAG-00055"%string. vm_compute. left. reflexivity.
Qed.

Lemma generated_alarm_duration_counts_rows_witness :
  generate_data sample_draws = Some (records_of sample_draws)
  /\ alarms (records_of sample_draws) [] 1%Q 4
     = Done (alarm_records (records_of sample_draws) [] 1%Q 4)
  /\ exists s e,
      s <= e < NUM_TIME_POINTS
      /\ start_time
           (run_record (product_data (records_of sample_draws) "RAG-00055")
              [] "RAG-00055" 10 29) = current_time s
      /\ end_time
           (run_record (product_data (records_of sample_draws) "RAG-00055")
              [] "RAG-00055" 10 29) = current_time e
      /\ (duration_minutes
            (run_record (product_data (records_of sample_draws) "RAG-00055")
               [] "RAG-00055" 10 29)
          == inject_Z (2 * Z.of_nat (e - s + 1)))%Q
      /\ (4 <= 2 * Z.of_nat (e - s + 1))%Z.
Proof.
  assert (Hgen : generate_data sample_draws = Some (records_of sample_draws))
    by (vm_compute; reflexivity).
  split; [exact Hgen |].
  split; [apply generated_alarms_done |].
  exact (generated_alarm_duration_counts_rows sample_draws _ [] 1%Q 4 _ _ Hgen
           (generated_alarms_done sample_draws [] 1%Q 4)
           sample_gradual_alarm).
Defined.

Lemma gradual_rows_above (draws : Draws) (pid : string) (alpha : Q)
    (k : nat) :
  In pid PRODUCT_IDS -> In pid (gradual_anomaly_products draws) ->
  (alpha < 1.12)%Q ->
  gradual_start_times draws pid + 6 <= k < NUM_TIME_POINTS ->
  above_at alpha (product_data (records_of draws) pid) k.
Proof.
  intros Hpid Hgrad Halpha Hk.
  exists (record_at draws k pid).
  split; [apply product_data_row; [exact Hpid | lia] |].
  destruct (product_score_max draws k pid) as [Hin _].
  apply (gradual_phase_scores draws k pid) in Hin; [| exact Hgrad | lia].
  pose proof (level_after_six (k - gradual_start_times draws pid)
                ltac:(lia)) as Hlevel.
  lra.
Qed.

(** X20: a gradual anomaly always ends in an alarm.  Whatever is drawn
    within the ranges of numpy, for a threshold below 1.12 (so at the
    default 1.0) and a minimum duration of at most 20 minutes, the alarm
    page lists for every product drawn for a gradual anomaly an alarm that
    lasts to the last time point and began no later than six time points
    after the drawn start. *)
Theorem gradual_anomaly_raises_alarm :
  forall (draws : Draws) (records : list AnomalyRow)
         (alert_df : list AlertRow) (alpha : Q) (beta : Z) (pid : string),
    draws_in_range draws ->
    generate_data draws = Some records ->
    In pid (gradual_anomaly_products draws) ->
    (alpha < 1.12)%Q -> (beta <= 20)%Z ->
    exists listed a,
      alarms records alert_df alpha beta = Done listed
      /\ In a listed
      /\ alarm_product_id a = pid
      /\ end_time a = current_time (NUM_TIME_POINTS - 1)
      /\ (start_time a
          <= current_time (gradual_start_times draws pid + 6))%Z.
Proof.
  intros draws records alert_df alpha beta pid Hrange Hgen Hgrad Halpha
         Hbeta.
  rewrite generate_data_records in Hgen. inversion Hgen; subst records.
  destruct Hrange as (_ & Hincl & Hstart & _).
  assert (Hpid : In pid PRODUCT_IDS) by (apply Hincl; exact Hgrad).
  specialize (Hstart pid Hgrad).
  set (data := product_data (records_of draws) pid).
  set (start := gradual_start_times draws pid) in *.
  assert (Habove : forall k, start + 6 <= k < NUM_TIME_POINTS ->
                             above_at alpha data k)
    by (intros k Hk; apply gradual_rows_above; assumption).
  assert (Hlen : length data = NUM_TIME_POINTS)
    by (apply product_data_length; exact Hpid).
  unfold NUM_TIME_POINTS in *.
  destruct (above_in_run data alpha 29 (Habove 29 ltac:(lia)) 0 ltac:(lia))
    as (s & e & Hin & Hs).
  apply runs_maximal in Hin.
  pose proof (maximal_run_range _ _ _ _ Hin) as [_ He].
  assert (e = 29) by lia. subst e.
  assert (Hs6 : s <= start + 6).
  { destruct (Nat.le_gt_cases s (start + 6)) as [Hle | Hgt]; [exact Hle |].
    exfalso. destruct Hin as (_ & _ & Hbefore & _).
    apply (Hbefore (s - 1)); [lia |]. apply Habove. lia. }
  exists (alarm_records (records_of draws) alert_df alpha beta),
    (run_record data alert_df pid s 29).
  split; [apply generated_alarms_done |].
  split; [| split; [reflexivity | split]].
  - apply alarm_records_In. exists pid. apply product_records_In.
    exists s, 29. split; [exact Hin |]. split; [| reflexivity].
    fold data. unfold data.
    rewrite !product_data_time
      by (try exact Hpid; unfold NUM_TIME_POINTS; lia).
    rewrite duration_of_time_points by lia.
    rewrite <- Zle_Qle. lia.
  - cbn [end_time run_record]. unfold data.
    apply product_data_time; [exact Hpid | unfold NUM_TIME_POINTS; lia].
  - cbn [start_time run_record]. unfold data.
    rewrite product_data_time
      by (try exact Hpid; unfold NUM_TIME_POINTS; lia).
    destruct (Nat.eq_dec s (start + 6)) as [-> | Hne]; [lia |].
    apply Z.lt_le_incl, current_time_lt. lia.
Qed.

Lemma gradual_anomaly_raises_alarm_witness :
  draws_in_range sample_draws
  /\ generate_data sample_draws = Some (records_of sample_draws)
  /\ In "RAG-00055"%string (gradual_anomaly_products sample_draws)
  /\ (1 < 1.12)%Q /\ (4 <= 20)%Z
  /\ exists listed a,
      alarms (records_of sample_draws) [] 1%Q 4 = Done listed
      /\ In a listed
      /\ alarm_product_id a = "RAG-00055"%string
      /\ end_time a = current_time (NUM_TIME_POINTS - 1)
      /\ (start_time a
          <= current_time (gradual_start_times sample_draws "RAG-00055" + 6))%Z.
Proof.
  assert (Hgen : generate_data sample_draws = Some (records_of sample_draws))
    by (vm_compute; reflexivity).
  assert (Hgrad : In "RAG-00055"%string
                     (gradual_anomaly_products sample_draws))
    by (left; reflexivity).
  assert (Halpha : (1 < 1.12)%Q) by reflexivity.
  assert (Hbeta : (4 <= 20)%Z) by lia.
  split; [exact sample_draws_in_range |]. split; [exact Hgen |].
  split; [exact Hgrad |]. split; [exact Halpha |]. split; [exact Hbeta |].
  exact (gradual_anomaly_raises_alarm sample_draws _ [] 1%Q 4 "RAG-00055"
           sample_draws_in_range Hgen Hgrad Halpha Hbeta).
Defined.

(** X21: outside a gradual anomaly the rows above the threshold are the
    spikes.  For a threshold from 0.3 up to, but not reaching, 2.0, a
    record of a product that is not in its gradual anomaly lies above the
    threshold exactly when the draw of [np.random.random()] was not below
    0.95. *)
Theorem spikes_are_the_rows_above :
  forall (draws : Draws) (records : list AnomalyRow) (alpha : Q)
         (pid : string) (k : nat),
    draws_in_range draws ->
    generate_data draws = Some records ->
    In pid PRODUCT_IDS -> k < NUM_TIME_POINTS ->
    ~ (In pid (gradual_anomaly_products draws)
       /\ gradual_start_times draws pid <= k) ->
    (0.3 <= alpha)%Q -> (alpha < 2.0)%Q ->
    (above_at alpha (product_data records pid) k
     <-> (0.95 <= random draws k pid)%Q).
Proof.
  intros draws records alpha pid k Hrange Hgen Hpid Hk Hquiet Hlo Hhi.
  rewrite generate_data_records in Hgen. inversion Hgen; subst records.
  destruct Hrange as (_ & _ & _ & Hexp & Huni & Hspike).
  rewrite (above_at_row alpha _ k (record_at draws k pid))
    by (apply product_data_row; assumption).
  rewrite above_lt.
  destruct (product_score_max draws k pid) as [Hin Hmax].
  rewrite (quiet_scores draws k pid Hquiet) in Hin, Hmax.
  unfold DetailSummary.Qltb in Hin, Hmax.
  destruct (Qle_bool 0.95 (random draws k pid)) eqn:Hdraw; cbn [negb] in *.
  - apply Qle_bool_iff in Hdraw. split; [intros _; exact Hdraw | intros _].
    destruct (spike_scores_high (spike_sensors draws k pid)
                (uniform draws k pid) (exponential draws k pid))
      as (score & Hscore & Hge);
      [apply Hspike | apply Hspike | apply Huni |].
    apply Hmax in Hscore. lra.
  - assert (Hlt : ~ (0.95 <= random draws k pid)%Q)
      by (rewrite <- Qle_bool_iff, Hdraw; discriminate).
    apply normal_scores_low in Hin; [| apply Hexp].
    split; [intros Habove; lra | intros Hge; contradiction].
Qed.

Lemma spikes_are_the_rows_above_witness :
  draws_in_range sample_draws
  /\ generate_data sample_draws = Some (records_of sample_draws)
  /\ In "RAG-00042"%string PRODUCT_IDS /\ 3 < NUM_TIME_POINTS
  /\ ~ (In "RAG-00042"%string (gradual_anomaly_products sample_draws)
        /\ gradual_start_times sample_draws "RAG-00042" <= 3)
  /\ (0.3 <= 1)%Q /\ (1 < 2.0)%Q
  /\ (above_at 1 (product_data (records_of sample_draws) "RAG-00042") 3
      <-> (0.95 <= random sample_draws 3 "RAG-00042")%Q).
Proof.
  assert (Hgen : generate_data sample_draws = Some (records_of sample_draws))
    by (vm_compute; reflexivity).
  assert (Hpid : In "RAG-00042"%string PRODUCT_IDS) by (left; reflexivity).
  assert (Hk : 3 < NUM_TIME_POINTS) by (unfold NUM_TIME_POINTS; lia).
  assert (Hquiet : ~ (In "RAG-00042"%string
                         (gradual_anomaly_products sample_draws)
                      /\ gradual_start_times sample_draws "RAG-00042" <= 3)).
  { intros [_ Hle]. cbn in Hle. lia. }
  assert (Hlo : (0.3 <= 1)%Q) by discriminate.
  assert (Hhi : (1 < 2.0)%Q) by reflexivity.
  split; [exact sample_draws_in_range |]. split; [exact Hgen |].
  split; [exact Hpid |]. split; [exact Hk |]. split; [exact Hquiet |].
  split; [exact Hlo |]. split; [exact Hhi |].
  exact (spikes_are_the_rows_above sample_draws _ 1%Q "RAG-00042" 3
           sample_draws_in_range Hgen Hpid Hk Hquiet Hlo Hhi).
Defined.

(** ** The generator of the alerts *)

Module AlertFacts.
Import MockData MockFacts GeneratedFacts.

Lemma alert_inner_loop (draws : AlertDraws) (i : nat) (pids : list string) :
  NoDup pids ->
  forall (alert_states : string -> AlertState) (records : list AlertRecord),
    (forall p, In p pids ->
               alert_states p = alert_state_before draws p i) ->
    exists states',
      fold_left (generate_alert_record draws i) pids (alert_states, records)
      = (states',
         records ++ flat_map (fun pid => match alert_at draws i pid with
                                         | Some r => [r]
                                         | None => []
                                         end) pids)
      /\ (forall p, In p pids ->
                    states' p = alert_state_before draws p (S i))
      /\ (forall p, ~ In p pids -> states' p = alert_states p).
Proof.
  induction 1 as [| pid rest Hnotin Hnd IH]; intros alert_states records Hok.
  - exists alert_states. cbn [fold_left flat_map]. rewrite app_nil_r.
    split; [reflexivity |]. split; [intros p [] | reflexivity].
  - cbn [fold_left flat_map]. unfold generate_alert_record at 2.
    rewrite (Hok pid) by (left; reflexivity). unfold alert_at at 1.
    destruct (alert_step draws i pid (alert_state_before draws pid i))
      as [state record] eqn:Hstep.
    cbn [snd].
    destruct (IH (fun q => if String.eqb q pid then state else alert_states q)
                 (match record with
                  | Some r => records ++ [r]
                  | None => records
                  end))
      as (states' & Hfold & Hin & Hout).
    { intros p Hp. destruct (String.eqb_spec p pid) as [-> | Hne];
        [contradiction | apply Hok; right; exact Hp]. }
    exists states'. rewrite Hfold. split; [| split].
    + f_equal. destruct record; [rewrite <- app_assoc |]; reflexivity.
    + intros p [<- | Hp]; [| apply Hin; exact Hp].
      rewrite (Hout pid Hnotin), String.eqb_refl.
      cbn [alert_state_before]. rewrite Hstep. reflexivity.
    + intros p Hp. rewrite Hout by (intros Hr; apply Hp; right; exact Hr).
      destruct (String.eqb_spec p pid) as [-> | Hne]; [| reflexivity].
      exfalso. apply Hp. left. reflexivity.
Qed.

Lemma alert_outer_loop (draws : AlertDraws) (n : nat) :
  forall (i : nat) (alert_states : string -> AlertState)
         (records : list AlertRecord),
    (forall p, In p PRODUCT_IDS ->
               alert_states p = alert_state_before draws p i) ->
    snd (fold_left
           (fun acc i =>
              fold_left (generate_alert_record draws i) PRODUCT_IDS acc)
           (seq i n) (alert_states, records))
    = records
      ++ flat_map (fun i =>
                     flat_map (fun pid => match alert_at draws i pid with
                                          | Some r => [r]
                                          | None => []
                                          end) PRODUCT_IDS)
                  (seq i n).
Proof.
  induction n as [| n IH]; intros i alert_states records Hok.
  - cbn [seq fold_left flat_map snd]. rewrite app_nil_r. reflexivity.
  - destruct (alert_inner_loop draws i PRODUCT_IDS PRODUCT_IDS_NoDup
                alert_states records Hok) as (states1 & Hfold & Hin & _).
    cbn [seq fold_left flat_map]. rewrite Hfold, IH by exact Hin.
    rewrite <- app_assoc. reflexivity.
Qed.

(** A record is in the frame exactly when it is the record of a product
    at a time point. *)
Lemma generate_alert_data_In (draws : AlertDraws) (r : AlertRecord) :
  In r (generate_alert_data draws) <->
  exists i pid, i < NUM_TIME_POINTS /\ In pid PRODUCT_IDS
                /\ alert_at draws i pid = Some r.
Proof.
  unfold generate_alert_data.
  rewrite alert_outer_loop by (intros p _; reflexivity).
  cbn [app]. rewrite in_flat_map. split.
  - intros (i & Hi & Hin). apply in_seq in Hi.
    apply in_flat_map in Hin as (pid & Hpid & Hr).
    exists i, pid. split; [lia |]. split; [exact Hpid |].
    destruct (alert_at draws i pid) as [r' |]; [| destruct Hr].
    destruct Hr as [-> | []]. reflexivity.
  - intros (i & pid & Hi & Hpid & Hr). exists i.
    split; [apply in_seq; lia |].
    apply in_flat_map. exists pid. split; [exact Hpid |].
    rewrite Hr. left. reflexivity.
Qed.

Lemma alert_at_fields (draws : AlertDraws) (i : nat) (pid : string)
    (r : AlertRecord) :
  alert_at draws i pid = Some r ->
  ar_time r = current_time i /\ ar_product_id r = pid.
Proof.
  unfold alert_at, alert_step.
  destruct (has_alert _); [destruct (_ <=? _)%Z | destruct (Qltb _ _)];
    cbn [snd]; intros Hr; inversion Hr; subst r; split; reflexivity.
Qed.

Lemma alert_state_duration (draws : AlertDraws) (pid : string) (i : nat) :
  has_alert (alert_state_before draws pid i) = true ->
  (1 <= alert_duration (alert_state_before draws pid i))%Z.
Proof.
  induction i as [| i IH]; [discriminate |].
  cbn [alert_state_before]. unfold alert_step.
  destruct (has_alert (alert_state_before draws pid i)) eqn:Hhas.
  - specialize (IH eq_refl).
    destruct (_ <=? _)%Z; cbn [fst has_alert alert_duration];
      [intros _; lia | discriminate].
  - destruct (Qltb _ _); cbn [fst has_alert alert_duration];
      [intros _; lia | rewrite Hhas; discriminate].
Qed.

(** A record leaves the alert on, with the identifier of the record. *)
Lemma alert_at_after (draws : AlertDraws) (i : nat) (pid : string)
    (r : AlertRecord) :
  alert_at draws i pid = Some r ->
  has_alert (alert_state_before draws pid (S i)) = true
  /\ alert_type (alert_state_before draws pid (S i)) = ar_identifier r
  /\ (1 <= alert_duration (alert_state_before draws pid (S i)))%Z
  /\ (has_alert (alert_state_before draws pid i) = true ->
      alert_type (alert_state_before draws pid i) = ar_identifier r
      /\ (alert_duration (alert_state_before draws pid (S i))
          = alert_duration (alert_state_before draws pid i) + 1)%Z
      /\ (alert_duration (alert_state_before draws pid (S i))
          <= alert_randint draws i pid)%Z).
Proof.
  unfold alert_at. cbn [alert_state_before]. unfold alert_step.
  destruct (has_alert (alert_state_before draws pid i)) eqn:Hhas.
  - destruct (_ <=? _)%Z eqn:Hle; cbn [fst snd]; intros Hr;
      inversion Hr; subst r.
    apply Z.leb_le in Hle.
    pose proof (alert_state_duration draws pid i Hhas) as Hd.
    cbn [has_alert alert_type alert_duration ar_identifier].
    split; [reflexivity |]. split; [reflexivity |].
    split; [lia |]. intros _. split; [reflexivity |].
    split; [reflexivity | exact Hle].
  - destruct (Qltb _ _); cbn [fst snd]; intros Hr; inversion Hr; subst r.
    cbn [has_alert alert_type alert_duration ar_identifier].
    split; [reflexivity |]. split; [reflexivity |].
    split; [lia | discriminate].
Qed.

(** While an alert is on, its type is one of the identifiers and it has
    lasted at least one time point. *)
Lemma alert_state_type (draws : AlertDraws) (pid : string) (i : nat) :
  (forall j p, In (alert_choice draws j p) ALERT_IDENTIFIERS) ->
  has_alert (alert_state_before draws pid i) = true ->
  exists x, alert_type (alert_state_before draws pid i) = Some x
            /\ In x ALERT_IDENTIFIERS
            /\ (1 <= alert_duration (alert_state_before draws pid i))%Z.
Proof.
  intros Hchoice. induction i as [| i IH]; [discriminate |].
  cbn [alert_state_before]. unfold alert_step.
  destruct (has_alert (alert_state_before draws pid i)) eqn:Hhas.
  - destruct (IH eq_refl) as (x & Hx & Hin & Hd).
    destruct (_ <=? _)%Z; cbn [fst has_alert alert_type alert_duration];
      [intros _ | discriminate].
    exists x. split; [exact Hx |]. split; [exact Hin | lia].
  - destruct (Qltb _ _); cbn [fst has_alert alert_type alert_duration].
    + intros _. exists (alert_choice draws i pid).
      split; [reflexivity |]. split; [apply Hchoice | lia].
    + rewrite Hhas. discriminate.
Qed.

Lemma current_time_inj (i j : nat) : current_time i = current_time j -> i = j.
Proof. unfold current_time, TIME_INTERVAL_MINUTES. lia. Qed.

Lemma NoDup_flat_map {A B : Type} (f : A -> list B) (l : list A) :
  NoDup l -> (forall x, In x l -> NoDup (f x)) ->
  (forall x y b, In x l -> In y l -> In b (f x) -> In b (f y) -> x = y) ->
  NoDup (flat_map f l).
Proof.
  induction 1 as [| x rest Hnotin Hnd IH]; intros Hf Hinj; simpl.
  - constructor.
  - apply NoDup_app.
    + apply Hf. left. reflexivity.
    + apply IH.
      * intros y Hy. apply Hf. right. exact Hy.
      * intros y z b Hy Hz. apply Hinj; right; assumption.
    + intros b Hb Hb'. apply in_flat_map in Hb' as (y & Hy & Hby).
      apply Hnotin.
      rewrite (Hinj x y b); [exact Hy | left; reflexivity | right; exact Hy
                             | exact Hb | exact Hby].
Qed.

End AlertFacts.

Import MockData MockFacts GeneratedFacts AlertFacts.

Lemma generate_alert_data_eq (draws : AlertDraws) :
  generate_alert_data draws
  = flat_map (fun i =>
                flat_map (fun pid => match alert_at draws i pid with
                                     | Some r => [r]
                                     | None => []
                                     end) PRODUCT_IDS)
             (seq 0 NUM_TIME_POINTS).
Proof.
  unfold generate_alert_data.
  rewrite alert_outer_loop by (intros p _; reflexivity). reflexivity.
Qed.

Lemma generate_alert_data_NoDup (draws : AlertDraws) :
  NoDup (generate_alert_data draws).
Proof.
  rewrite generate_alert_data_eq. apply NoDup_flat_map.
  - apply seq_NoDup.
  - intros i _. apply NoDup_flat_map.
    + apply PRODUCT_IDS_NoDup.
    + intros pid _. destruct (alert_at draws i pid);
        repeat constructor. intros [].
    + intros p q b _ _ Hp Hq.
      destruct (alert_at draws i p) as [r |] eqn:Hrp; [| destruct Hp].
      destruct (alert_at draws i q) as [r' |] eqn:Hrq; [| destruct Hq].
      destruct Hp as [<- | []]. destruct Hq as [-> | []].
      apply alert_at_fields in Hrp as [_ Hp], Hrq as [_ Hq]. congruence.
  - intros i j b _ _ Hi Hj.
    apply in_flat_map in Hi as (p & _ & Hp), Hj as (q & _ & Hq).
    destruct (alert_at draws i p) as [r |] eqn:Hrp; [| destruct Hp].
    destruct (alert_at draws j q) as [r' |] eqn:Hrq; [| destruct Hq].
    destruct Hp as [<- | []]. destruct Hq as [-> | []].
    apply alert_at_fields in Hrp as [Hi _], Hrq as [Hj _].
    apply current_time_inj. congruence.
Qed.

Lemma alert_at_identifier (draws : AlertDraws) (i : nat) (pid : string)
    (r : AlertRecord) :
  (forall j p, In (alert_choice draws j p) ALERT_IDENTIFIERS) ->
  alert_at draws i pid = Some r ->
  exists x, ar_identifier r = Some x /\ In x ALERT_IDENTIFIERS.
Proof.
  intros Hchoice Hr.
  destruct (alert_at_after draws i pid r Hr) as (Hhas & Htype & _).
  destruct (alert_state_type draws pid (S i) Hchoice Hhas)
    as (x & Hx & Hin & _).
  exists x. split; [congruence | exact Hin].
Qed.

Lemma sample_alert_draws_in_range : alert_draws_in_range sample_alert_draws.
Proof.
  intros i pid. cbn. split; [lia |]. do 2 right. left. reflexivity.
Qed.

(** X22: the alert frame of a run whose draws are in the ranges of numpy
    holds no record twice and at most one record for a product and a time
    point; every record is of one of the products, at one of the 30 time
    points, and its identifier is one of ALERT_IDENTIFIERS, never the None
    an idle state holds. *)
Theorem generated_alerts_well_formed :
  forall draws : AlertDraws,
    alert_draws_in_range draws ->
    NoDup (generate_alert_data draws)
    /\ forall r,
        In r (generate_alert_data draws) ->
        (exists i, i < NUM_TIME_POINTS /\ ar_time r = current_time i)
        /\ In (ar_product_id r) PRODUCT_IDS
        /\ (exists x, ar_identifier r = Some x /\ In x ALERT_IDENTIFIERS)
        /\ forall r',
            In r' (generate_alert_data draws) ->
            ar_time r' = ar_time r -> ar_product_id r' = ar_product_id r ->
            r' = r.
Proof.
  intros draws Hrange. split; [apply generate_alert_data_NoDup |].
  intros r Hin.
  destruct (proj1 (generate_alert_data_In draws r) Hin)
    as (i & pid & Hi & Hpid & Hr).
  destruct (alert_at_fields draws i pid r Hr) as [Htime Hid].
  split; [exists i; split; assumption |].
  split; [rewrite Hid; exact Hpid |].
  split; [apply (alert_at_identifier draws i pid);
          [intros j p; apply Hrange | exact Hr] |].
  intros r' Hin' Htime' Hid'.
  destruct (proj1 (generate_alert_data_In draws r') Hin')
    as (i' & pid' & _ & _ & Hr').
  destruct (alert_at_fields draws i' pid' r' Hr') as [Ht Hp].
  assert (i' = i) by (apply current_time_inj; congruence).
  assert (pid' = pid) by congruence. subst i' pid'. congruence.
Qed.

Lemma generated_alerts_well_formed_witness :
  alert_draws_in_range sample_alert_draws
  /\ NoDup (generate_alert_data sample_alert_draws).
Proof.
  split; [exact sample_alert_draws_in_range |].
  exact (proj1 (generated_alerts_well_formed sample_alert_draws
                  sample_alert_draws_in_range)).
Defined.

Lemma alert_run_duration (draws : AlertDraws) (pid : string) (i m : nat) :
  (forall k, i <= k <= i + m -> alert_at draws k pid <> None) ->
  has_alert (alert_state_before draws pid (S (i + m))) = true
  /\ (Z.of_nat m + 1
      <= alert_duration (alert_state_before draws pid (S (i + m))))%Z.
Proof.
  induction m as [| m IH]; intros Hall.
  - rewrite Nat.add_0_r.
    destruct (alert_at draws i pid) as [r |] eqn:Hr;
      [| exfalso; apply (Hall i); [lia | exact Hr]].
    destruct (alert_at_after draws i pid r Hr) as (Hhas & _ & Hd & _).
    split; [exact Hhas | lia].
  - destruct IH as [Hhas Hd]; [intros k Hk; apply Hall; lia |].
    replace (i + S m) with (S (i + m)) by lia.
    destruct (alert_at draws (S (i + m)) pid) as [r |] eqn:Hr;
      [| exfalso; apply (Hall (S (i + m))); [lia | exact Hr]].
    destruct (alert_at_after draws (S (i + m)) pid r Hr)
      as (Hhas' & _ & _ & Hnext).
    destruct (Hnext Hhas) as (_ & Hd' & _).
    split; [exact Hhas' | lia].
Qed.

Lemma alert_record_at (draws : AlertDraws) (r : AlertRecord) (pid : string)
    (k : nat) :
  In r (generate_alert_data draws) ->
  ar_product_id r = pid -> ar_time r = current_time k ->
  alert_at draws k pid = Some r.
Proof.
  intros Hin Hid Htime.
  destruct (proj1 (generate_alert_data_In draws r) Hin)
    as (i & p & _ & _ & Hr).
  destruct (alert_at_fields draws i p r Hr) as [Ht Hp].
  assert (i = k) by (apply current_time_inj; congruence). subst i.
  replace pid with p by congruence. exact Hr.
Qed.

(** X23: the episodes of alerts.  Two alerts of a product at time points
    that follow each other carry the same identifier, and no product has
    alerts at six time points in a row: an episode lasts for five time
    points at most and is followed by a time point without alert. *)
Theorem alert_episodes_bounded :
  forall (draws : AlertDraws) (pid : string),
    alert_draws_in_range draws ->
    (forall r r',
        In r (generate_alert_data draws) ->
        In r' (generate_alert_data draws) ->
        ar_product_id r = pid -> ar_product_id r' = pid ->
        ar_time r' = (ar_time r + TIME_INTERVAL_MINUTES * 60)%Z ->
        ar_identifier r' = ar_identifier r)
    /\ forall i,
        ~ (forall k, i <= k <= i + 5 ->
             exists r, In r (generate_alert_data draws)
                       /\ ar_product_id r = pid
                       /\ ar_time r = current_time k).
Proof.
  intros draws pid Hrange. split.
  - intros r r' Hin Hin' Hid Hid' Htime.
    pose proof Hin as Hin0.
    destruct (proj1 (generate_alert_data_In draws r) Hin0)
      as (i & p & _ & _ & Hr).
    destruct (alert_at_fields draws i p r Hr) as [Ht Hp].
    replace p with pid in Hr by congruence. clear Hp p.
    assert (Hr' : alert_at draws (S i) pid = Some r').
    { apply alert_record_at; [exact Hin' | exact Hid' |].
      rewrite Htime, Ht. unfold current_time, TIME_INTERVAL_MINUTES. lia. }
    destruct (alert_at_after draws i pid r Hr) as (Hhas & Htype & _).
    destruct (alert_at_after draws (S i) pid r' Hr') as (_ & _ & _ & Hnext).
    destruct (Hnext Hhas) as (Htype' & _). congruence.
  - intros i Hall.
    assert (Hat : forall k, i <= k <= i + 5 -> alert_at draws k pid <> None).
    { intros k Hk. destruct (Hall k Hk) as (r & Hin & Hid & Htime).
      rewrite (alert_record_at draws r pid k Hin Hid Htime). discriminate. }
    destruct (alert_run_duration draws pid i 4) as [Hhas _];
      [intros k Hk; apply Hat; lia |].
    destruct (alert_run_duration draws pid i 5 Hat) as [_ Hd].
    destruct (alert_at draws (i + 5) pid) as [r |] eqn:Hr;
      [| apply (Hat (i + 5)); [lia | exact Hr]].
    destruct (alert_at_after draws (i + 5) pid r Hr) as (_ & _ & _ & Hnext).
    replace (i + 5) with (S (i + 4)) in Hnext by lia.
    destruct (Hnext Hhas) as (_ & _ & Hle).
    destruct (Hrange (S (i + 4)) pid) as [[_ Hmax] _].
    replace (S (S (i + 4))) with (S (i + 5)) in Hle by lia. lia.
Qed.

Lemma alert_episodes_bounded_witness :
  alert_draws_in_range sample_alert_draws
  /\ forall i,
      ~ (forall k, i <= k <= i + 5 ->
           exists r, In r (generate_alert_data sample_alert_draws)
                     /\ ar_product_id r = "RAG-00038"%string
                     /\ ar_time r = current_time k).
Proof.
  split; [exact sample_alert_draws_in_range |].
  exact (proj2 (alert_episodes_bounded sample_alert_draws "RAG-00038"
                  sample_alert_draws_in_range)).
Defined.
